(** * Harnosands HF API worker: a shallow embedding of [src/index.js]

    The worker fetches an iCalendar feed and an RSS feed, parses both with
    hand-written string scans and regular expressions, and serves four
    cached HTTP operations.  This development embeds the parsers, the
    request handlers and the part of the JavaScript runtime they rely on
    ([Date], [Number], [String.prototype] methods, [Array.prototype.sort]),
    and states the properties of the specification against that embedding.

    Conventions.
    - Text is a [string] of 8-bit characters, read as UTF-16 code units
      below 256.  The program's regular expressions only name ASCII
      characters; among the other code units only U+00A0 is treated
      specially by the runtime (it is white space).
    - A time value is a [Z] (milliseconds since the epoch); an invalid
      date (NaN) is [None].
    - Functions that can throw return an [outcome]; functions that read the
      clock, the edge cache or the network live in the monad [M]. *)

From Stdlib Require Import ZArith List String Ascii Bool Lia QArith Permutation Sorted.
Import ListNotations.

Local Open Scope string_scope.
Local Open Scope Z_scope.

(* ================================================================== *)
(** ** Exceptions and results *)

Inductive exn : Type :=
| RangeError (msg : string)
| TypeError (msg : string)
| NetworkError (msg : string)
| CacheError (msg : string).

Inductive outcome (A : Type) : Type :=
| Ok (a : A)
| Throw (e : exn).
Arguments Ok {A} a.
Arguments Throw {A} e.

Definition obind {A B} (x : outcome A) (f : A -> outcome B) : outcome B :=
  match x with
  | Ok a => f a
  | Throw e => Throw e
  end.

Declare Scope outcome_scope.
Delimit Scope outcome_scope with outcome.
Notation "'let!' x ':=' c 'in' k" := (obind c (fun x => k))
  (at level 10, x name, c at level 100, k at level 200) : outcome_scope.

(* ================================================================== *)
(** ** Strings as the runtime sees them *)

Module JSString.

Definition code (c : ascii) : Z := Z.of_N (N_of_ascii c).

Definition is_digit (c : ascii) : bool := (48 <=? code c) && (code c <=? 57).
Definition is_upper (c : ascii) : bool := (65 <=? code c) && (code c <=? 90).
Definition is_lower (c : ascii) : bool := (97 <=? code c) && (code c <=? 122).
(** [\w] of a regular expression. *)
Definition is_word (c : ascii) : bool :=
  is_digit c || is_upper c || is_lower c || (code c =? 95).
(** White space and line terminators: [\s], [trim] and [Number]. *)
Definition is_space (c : ascii) : bool :=
  ((9 <=? code c) && (code c <=? 13)) || (code c =? 32) || (code c =? 160).

Definition digit_val (c : ascii) : Z := code c - 48.
Definition digit_char (d : Z) : ascii := ascii_of_N (Z.to_N (48 + d)).

Definition upper_char (c : ascii) : ascii :=
  if is_lower c then ascii_of_N (Z.to_N (code c - 32)) else c.
Definition lower_char (c : ascii) : ascii :=
  if is_upper c then ascii_of_N (Z.to_N (code c + 32)) else c.

(** Line feed and carriage return, as one-character strings. *)
Definition LF : string := String (ascii_of_N 10) EmptyString.
Definition CR : string := String (ascii_of_N 13) EmptyString.

(** [toUpperCase] on the ASCII letters.  The field names the program
    reads are ASCII, and no other code unit below 256 upper-cases into
    one of them. *)
Fixpoint toUpperCase (s : string) : string :=
  match s with
  | EmptyString => EmptyString
  | String c r => String (upper_char c) (toUpperCase r)
  end.

Fixpoint all_digits (s : string) : bool :=
  match s with
  | EmptyString => true
  | String c r => is_digit c && all_digits r
  end.

(** Value of a run of decimal digits, most significant first. *)
Fixpoint digits_value_from (acc : Z) (s : string) : Z :=
  match s with
  | EmptyString => acc
  | String c r => digits_value_from (10 * acc + digit_val c) r
  end.
Definition digits_value (s : string) : Z := digits_value_from 0 s.

(** [s.slice(a, b)] for [0 <= a <= b]. *)
Definition slice (a b : nat) (s : string) : string := substring a (b - a) s.
(** [s.slice(a)]. *)
Fixpoint slice_from (a : nat) (s : string) : string :=
  match a, s with
  | O, _ => s
  | S _, EmptyString => EmptyString
  | S a', String _ r => slice_from a' r
  end.

(** Case-sensitive and ASCII-case-insensitive prefix tests; the second
    is how a regular expression with the [i] flag compares literals. *)
Fixpoint starts_with (p s : string) : bool :=
  match p, s with
  | EmptyString, _ => true
  | String _ _, EmptyString => false
  | String a p', String b s' => Ascii.eqb a b && starts_with p' s'
  end.
Fixpoint starts_with_ci (p s : string) : bool :=
  match p, s with
  | EmptyString, _ => true
  | String _ _, EmptyString => false
  | String a p', String b s' =>
      Ascii.eqb (lower_char a) (lower_char b) && starts_with_ci p' s'
  end.

(** [s.endsWith(p)]. *)
Definition endsWith (s p : string) : bool :=
  (String.length p <=? String.length s)%nat &&
  String.eqb (slice_from (String.length s - String.length p) s) p.

(** [s.indexOf(c)] for a one-character needle; [None] is [-1]. *)
Fixpoint indexOf_char (c : ascii) (s : string) : option nat :=
  match s with
  | EmptyString => None
  | String a r =>
      if Ascii.eqb a c then Some O
      else match indexOf_char c r with
           | Some n => Some (S n)
           | None => None
           end
  end.

(** Position of the first occurrence of [p] in [s], if any. *)
Fixpoint find (p s : string) : option nat :=
  if starts_with p s then Some O
  else match s with
       | EmptyString => None
       | String _ r => option_map S (find p r)
       end.
Fixpoint find_ci (p s : string) : option nat :=
  if starts_with_ci p s then Some O
  else match s with
       | EmptyString => None
       | String _ r => option_map S (find_ci p r)
       end.

Fixpoint drop_spaces (s : string) : string :=
  match s with
  | EmptyString => EmptyString
  | String c r => if is_space c then drop_spaces r else s
  end.
(** Drops trailing white space: the result of the recursive call is
    empty exactly when everything after [c] was white space. *)
Fixpoint drop_trailing_spaces (s : string) : string :=
  match s with
  | EmptyString => EmptyString
  | String c r =>
      match drop_trailing_spaces r with
      | EmptyString => if is_space c then EmptyString else String c EmptyString
      | r' => String c r'
      end
  end.
(** [s.trim()]. *)
Definition trim (s : string) : string := drop_trailing_spaces (drop_spaces s).

(** [s.replace(/\/+$/, "")]: removes every trailing slash. *)
Fixpoint strip_trailing_slashes (s : string) : string :=
  match s with
  | EmptyString => EmptyString
  | String c r =>
      match strip_trailing_slashes r with
      | EmptyString => if Ascii.eqb c "/" then EmptyString else String c EmptyString
      | r' => String c r'
      end
  end.

(** [left.split(";")[0]]: the text before the first occurrence of [c]. *)
Fixpoint before_char (c : ascii) (s : string) : string :=
  match s with
  | EmptyString => EmptyString
  | String a r => if Ascii.eqb a c then EmptyString else String a (before_char c r)
  end.

(** Zero-padded decimal rendering of [v] on [n] digits (low digits kept). *)
Fixpoint pad (n : nat) (v : Z) : string :=
  match n with
  | O => EmptyString
  | S n' => pad n' (v / 10) ++ String (digit_char (v mod 10)) EmptyString
  end.

End JSString.

(* ================================================================== *)
(** ** The runtime's [Date] (ECMA-262, "Date Objects") *)

Module JSDate.
Import JSString.

Definition msPerDay : Z := 86400000.
Definition msPerHour : Z := 3600000.
Definition msPerMinute : Z := 60000.
Definition msPerSecond : Z := 1000.
Definition maxTime : Z := 8640000000000000.

Definition Day (t : Z) : Z := t / msPerDay.
Definition TimeWithinDay (t : Z) : Z := t mod msPerDay.

Definition isLeapYear (y : Z) : bool :=
  (y mod 4 =? 0) && (negb (y mod 100 =? 0) || (y mod 400 =? 0)).
Definition DaysInYear (y : Z) : Z := if isLeapYear y then 366 else 365.
Definition DayFromYear (y : Z) : Z :=
  365 * (y - 1970) + (y - 1969) / 4 - (y - 1901) / 100 + (y - 1601) / 400.
Definition TimeFromYear (y : Z) : Z := msPerDay * DayFromYear y.

(** The year whose first day is the last one not after day [d]: an
    estimate from the mean year length, corrected by at most one. *)
Definition YearFromDay (d : Z) : Z :=
  let y0 := 1970 + (400 * d) / 146097 in
  if d <? DayFromYear y0 then y0 - 1
  else if DayFromYear (y0 + 1) <=? d then y0 + 1
  else y0.
Definition YearFromTime (t : Z) : Z := YearFromDay (Day t).
Definition InLeapYear (t : Z) : bool := isLeapYear (YearFromTime t).
Definition DayWithinYear (t : Z) : Z := Day t - DayFromYear (YearFromTime t).

(** Day number within the year of the first day of month [m] (0-based). *)
Definition monthStart (leap : bool) (m : Z) : Z :=
  let l := if leap then 1 else 0 in
  match m with
  | 0 => 0 | 1 => 31 | 2 => 59 + l | 3 => 90 + l | 4 => 120 + l
  | 5 => 151 + l | 6 => 181 + l | 7 => 212 + l | 8 => 243 + l
  | 9 => 273 + l | 10 => 304 + l | 11 => 334 + l
  | _ => 365 + l
  end.

Definition MonthFromTime (t : Z) : Z :=
  let d := DayWithinYear t in
  let leap := InLeapYear t in
  if d <? monthStart leap 1 then 0
  else if d <? monthStart leap 2 then 1
  else if d <? monthStart leap 3 then 2
  else if d <? monthStart leap 4 then 3
  else if d <? monthStart leap 5 then 4
  else if d <? monthStart leap 6 then 5
  else if d <? monthStart leap 7 then 6
  else if d <? monthStart leap 8 then 7
  else if d <? monthStart leap 9 then 8
  else if d <? monthStart leap 10 then 9
  else if d <? monthStart leap 11 then 10
  else 11.
Definition DateFromTime (t : Z) : Z :=
  DayWithinYear t - monthStart (InLeapYear t) (MonthFromTime t) + 1.

Definition HourFromTime (t : Z) : Z := (t / msPerHour) mod 24.
Definition MinFromTime (t : Z) : Z := (t / msPerMinute) mod 60.
Definition SecFromTime (t : Z) : Z := (t / msPerSecond) mod 60.
Definition msFromTime (t : Z) : Z := t mod msPerSecond.

Definition MakeTime (h m s ms : Z) : Z :=
  h * msPerHour + m * msPerMinute + s * msPerSecond + ms.
(** [month] is 0-based and may overflow into the following years; [date]
    may overflow into the following months. *)
Definition MakeDay (year month date : Z) : Z :=
  let ym := year + month / 12 in
  let mn := month mod 12 in
  DayFromYear ym + monthStart (isLeapYear ym) mn + date - 1.
Definition MakeDate (day time : Z) : Z := day * msPerDay + time.
Definition TimeClip (t : Z) : option Z :=
  if Z.abs t <=? maxTime then Some t else None.

(** *** Local time.  A zone gives the offset of local time from UTC, in
    minutes, at a UTC instant ([tza_utc], LocalTZA(t, true)) and at a
    local clock reading ([tza_local], LocalTZA(t, false)).  For a
    reading that the zone's clocks skip, the runtime uses the offset in
    force before the transition. *)
Record Zone : Type := mkZone {
  tza_utc : Z -> Z;
  tza_local : Z -> Z
}.
Definition fixedZone (minutes : Z) : Zone :=
  mkZone (fun _ => minutes) (fun _ => minutes).

Definition LocalTime (z : Zone) (t : Z) : Z := t + tza_utc z t * msPerMinute.
Definition UTC (z : Zone) (tl : Z) : Z := tl - tza_local z tl * msPerMinute.
(** [d.getTimezoneOffset()], in minutes: UTC minus local. *)
Definition getTimezoneOffset (z : Zone) (t : Z) : Z :=
  (t - LocalTime z t) / msPerMinute.

(** *** [toISOString]. *)
Definition year_string (y : Z) : string :=
  if (0 <=? y) && (y <=? 9999) then pad 4 y
  else String (if y <? 0 then "-"%char else "+"%char) (pad 6 (Z.abs y)).
Definition iso_string (t : Z) : string :=
  year_string (YearFromTime t) ++ "-" ++ pad 2 (MonthFromTime t + 1) ++ "-"
    ++ pad 2 (DateFromTime t) ++ "T" ++ pad 2 (HourFromTime t) ++ ":"
    ++ pad 2 (MinFromTime t) ++ ":" ++ pad 2 (SecFromTime t) ++ "."
    ++ pad 3 (msFromTime t) ++ "Z".
Definition toISOString (tv : option Z) : outcome string :=
  match tv with
  | Some t => Ok (iso_string t)
  | None => Throw (RangeError "Invalid time value")
  end.

(** *** Parsing the date-time string format.  [take_digits n s] reads
    exactly [n] decimal digits. *)
Definition take_digits (n : nat) (s : string) : option (Z * string) :=
  let d := substring 0 n s in
  if (String.length d =? n)%nat && all_digits d
  then Some (digits_value d, slice_from n s) else None.
Definition expect (c : ascii) (s : string) : option string :=
  match s with
  | String a r => if Ascii.eqb a c then Some r else None
  | EmptyString => None
  end.
Definition obnd {A B} (x : option A) (f : A -> option B) : option B :=
  match x with Some a => f a | None => None end.

(** The year: four digits, or a sign and six digits (minus zero is not
    a year). *)
Definition take_year (s : string) : option (Z * string) :=
  match s with
  | String "+" r => take_digits 6 r
  | String "-" r =>
      obnd (take_digits 6 r) (fun '(y, r') =>
        if y =? 0 then None else Some (- y, r'))
  | _ => take_digits 4 s
  end.

(** Optional [.sss], then the end of the string (local time) or [Z]. *)
Definition take_tail (s : string) : option (Z * bool) :=
  let fin (ms : Z) (r : string) :=
    if String.eqb r "" then Some (ms, false)
    else if String.eqb r "Z" then Some (ms, true) else None in
  match s with
  | String "." r => obnd (take_digits 3 r) (fun '(ms, r') => fin ms r')
  | _ => fin 0 s
  end.

Record fields : Type := mkFields {
  f_year : Z; f_month : Z; f_day : Z;
  f_hour : Z; f_min : Z; f_sec : Z; f_ms : Z;
  f_utc : bool
}.

(** The shapes [YYYY-MM-DDTHH:mm:ss], with an optional [.sss] and an
    optional [Z], the year possibly in the expanded form.  [None]: the
    string has another shape. *)
Definition iso_fields (s : string) : option fields :=
  obnd (take_year s) (fun '(y, s) =>
  obnd (expect "-" s) (fun s =>
  obnd (take_digits 2 s) (fun '(mo, s) =>
  obnd (expect "-" s) (fun s =>
  obnd (take_digits 2 s) (fun '(d, s) =>
  obnd (expect "T" s) (fun s =>
  obnd (take_digits 2 s) (fun '(h, s) =>
  obnd (expect ":" s) (fun s =>
  obnd (take_digits 2 s) (fun '(mi, s) =>
  obnd (expect ":" s) (fun s =>
  obnd (take_digits 2 s) (fun '(se, s) =>
  obnd (take_tail s) (fun '(ms, utc) =>
  Some (mkFields y mo d h mi se ms utc))))))))))))).

(** Element values the engine accepts (V8, which runs the worker: the
    day is checked against 31 whatever the month, and hour 24 is allowed
    for the end of a day). *)
Definition legal_fields (f : fields) : bool :=
  (1 <=? f_month f) && (f_month f <=? 12) &&
  (1 <=? f_day f) && (f_day f <=? 31) &&
  (((f_hour f <=? 23) && (f_min f <=? 59) && (f_sec f <=? 59)) ||
   ((f_hour f =? 24) && (f_min f =? 0) && (f_sec f =? 0) && (f_ms f =? 0))).

Definition fields_time (z : Zone) (f : fields) : option Z :=
  if legal_fields f then
    let t := MakeDate (MakeDay (f_year f) (f_month f - 1) (f_day f))
                      (MakeTime (f_hour f) (f_min f) (f_sec f) (f_ms f)) in
    TimeClip (if f_utc f then t else UTC z t)
  else None.

(** [Date.parse(s)]: the specified format first, then whatever other
    formats the engine understands ([legacy]). *)
Definition parse (z : Zone) (legacy : string -> option Z) (s : string) : option Z :=
  match iso_fields s with
  | Some f => fields_time z f
  | None => legacy s
  end.

(** [Date.UTC(y, m, d, 0, 0, 0)]; a year below 100 counts from 1900. *)
Definition DateUTC (y m d : Z) : option Z :=
  let yr := if (0 <=? y) && (y <=? 99) then 1900 + y else y in
  TimeClip (MakeDate (MakeDay yr m d) 0).

End JSDate.

(* ================================================================== *)
(** ** The runtime's numbers

    A number is NaN, an infinity, or a finite binary64 value, kept as the
    rational it denotes (in lowest terms).  Zero carries no sign: the
    program never divides by it nor prints it before clamping. *)

Module JSNumber.
Import JSString.

Inductive num : Type :=
| NaN
| Inf (negative : bool)
| Fin (q : Q).

Definition ofZ (z : Z) : num := Fin (inject_Z z).

(** [n / d] rounded to the nearest integer, ties to even ([d > 0]). *)
Definition round_half_even (n d : Z) : Z :=
  let q := n / d in
  match (2 * (n mod d) ?= d) with
  | Lt => q
  | Gt => q + 1
  | Eq => if Z.even q then q else q + 1
  end.

(** Floor of the binary logarithm of [n / d], for positive [n] and [d]. *)
Definition ilog2 (n d : Z) : Z :=
  let e := Z.log2 n - Z.log2 d in
  if (if 0 <=? e then d * 2 ^ e <=? n else d <=? n * 2 ^ (- e)) then e else e - 1.

(** [m * 2^p] as a rational in lowest terms. *)
Definition scale2 (m p : Z) : Q :=
  if 0 <=? p then inject_Z (m * 2 ^ p) else Qred (Qmake m (Z.to_pos (2 ^ (- p)))).

(** Rounding of the positive rational [n / d] to binary64: 53 bits of
    precision, exponents from -1022 (subnormals below), overflow to
    infinity. *)
Definition round_pos (n d : Z) : num :=
  let p := Z.max (ilog2 n d) (-1022) - 52 in
  let m := if 0 <=? p then round_half_even n (d * 2 ^ p)
           else round_half_even (n * 2 ^ (- p)) d in
  if (971 <? p) || ((p =? 971) && (m =? 2 ^ 53)) then Inf false
  else Fin (scale2 m p).

Definition neg (x : num) : num :=
  match x with
  | NaN => NaN
  | Inf b => Inf (negb b)
  | Fin q => Fin (Qred (Qopp q))
  end.

Definition round (q : Q) : num :=
  match Qnum q with
  | 0 => Fin 0
  | Zpos n => round_pos (Zpos n) (Zpos (Qden q))
  | Zneg n => neg (round_pos (Zpos n) (Zpos (Qden q)))
  end.

Definition isFinite (x : num) : bool :=
  match x with Fin _ => true | _ => false end.

(** [x <= y] as the language compares numbers (false with NaN). *)
Definition leb (x y : num) : bool :=
  match x, y with
  | NaN, _ | _, NaN => false
  | Inf true, _ => true
  | _, Inf false => true
  | Inf false, _ => false
  | _, Inf true => false
  | Fin a, Fin b => Qle_bool a b
  end.

Definition min (x y : num) : num :=
  match x, y with
  | NaN, _ | _, NaN => NaN
  | _, _ => if leb x y then x else y
  end.
Definition max (x y : num) : num :=
  match x, y with
  | NaN, _ | _, NaN => NaN
  | _, _ => if leb x y then y else x
  end.

Definition sign_neg (q : Q) : bool := Qnum q <? 0.

Definition mul (x y : num) : num :=
  match x, y with
  | NaN, _ | _, NaN => NaN
  | Fin a, Fin b => round (a * b)
  | Inf s, Fin q | Fin q, Inf s =>
      if Qnum q =? 0 then NaN else Inf (xorb s (sign_neg q))
  | Inf s, Inf s' => Inf (xorb s s')
  end.
Definition add (x y : num) : num :=
  match x, y with
  | NaN, _ | _, NaN => NaN
  | Fin a, Fin b => round (a + b)
  | Inf s, Fin _ | Fin _, Inf s => Inf s
  | Inf s, Inf s' => if Bool.eqb s s' then Inf s else NaN
  end.

(** Truncation toward zero. *)
Definition trunc (q : Q) : Z := Z.quot (Qnum q) (Zpos (Qden q)).

(** *** [Number(s)] on a string (StringToNumber). *)
Fixpoint take_while (f : ascii -> bool) (s : string) : string * string :=
  match s with
  | EmptyString => (EmptyString, EmptyString)
  | String c r =>
      if f c then let '(a, b) := take_while f r in (String c a, b)
      else (EmptyString, s)
  end.

Definition hex_val (c : ascii) : option Z :=
  if is_digit c then Some (code c - 48)
  else if (97 <=? code c) && (code c <=? 102) then Some (code c - 87)
  else if (65 <=? code c) && (code c <=? 70) then Some (code c - 55)
  else None.

(** Value of a non-empty run of digits in base [b]; [None] on a
    character that is not a digit of that base, or on the empty run. *)
Fixpoint radix_value_from (b acc : Z) (s : string) : option Z :=
  match s with
  | EmptyString => Some acc
  | String c r =>
      match hex_val c with
      | Some v => if v <? b then radix_value_from b (b * acc + v) r else None
      | None => None
      end
  end.
Definition radix_value (b : Z) (s : string) : option Z :=
  match s with
  | EmptyString => None
  | _ => radix_value_from b 0 s
  end.

Definition pow10 (e : Z) : Q :=
  if 0 <=? e then inject_Z (10 ^ e) else Qmake 1 (Z.to_pos (10 ^ (- e))).

(** The exponent part: nothing, or [e]/[E], an optional sign, digits. *)
Definition exponent_part (s : string) : option Z :=
  match s with
  | EmptyString => Some 0
  | String c r =>
      if Ascii.eqb c "e" || Ascii.eqb c "E" then
        let '(sg, r') :=
          match r with
          | String "+" t => (1, t)
          | String "-" t => (-1, t)
          | _ => (1, r)
          end in
        match r' with
        | EmptyString => None
        | _ => if all_digits r' then Some (sg * digits_value r') else None
        end
      else None
  end.

(** An unsigned decimal literal: [Infinity], or digits with an optional
    fraction and exponent, at least one digit before the exponent. *)
Definition unsigned_decimal (s : string) : num :=
  if String.eqb s "Infinity" then Inf false
  else
    let '(ip, r1) := take_while is_digit s in
    let '(fp, r2) :=
      match r1 with
      | String "." t => take_while is_digit t
      | _ => (EmptyString, r1)
      end in
    if String.eqb ip "" && String.eqb fp "" then NaN
    else match exponent_part r2 with
         | Some e =>
             let mant := digits_value (ip ++ fp) in
             round (Qred (inject_Z mant * pow10 (e - Z.of_nat (String.length fp))))
         | None => NaN
         end.

Definition of_radix (b : Z) (s : string) : num :=
  match radix_value b s with
  | Some v => round (inject_Z v)
  | None => NaN
  end.

Definition StringToNumber (s : string) : num :=
  match trim s with
  | EmptyString => Fin 0
  | String "0" (String "x" r) | String "0" (String "X" r) => of_radix 16 r
  | String "0" (String "o" r) | String "0" (String "O" r) => of_radix 8 r
  | String "0" (String "b" r) | String "0" (String "B" r) => of_radix 2 r
  | String "+" r => unsigned_decimal r
  | String "-" r => neg (unsigned_decimal r)
  | t => unsigned_decimal t
  end.

(** [TimeClip(ToNumber(v))] of [new Date(v)] for a number. *)
Definition toTimeValue (x : num) : option Z :=
  match x with
  | Fin q => JSDate.TimeClip (trunc q)
  | _ => None
  end.

(** [a.slice(0, e)] on an array. *)
Definition slice0 {A} (e : num) (l : list A) : list A :=
  match e with
  | NaN => []
  | Inf true => []
  | Inf false => l
  | Fin q =>
      let k := trunc q in
      if k <? 0 then firstn (Z.to_nat (Z.of_nat (List.length l) + k)) l
      else firstn (Z.to_nat k) l
  end.

End JSNumber.

(* ================================================================== *)
(** ** Requests, responses and the worker's surroundings *)

(** What [JSON.stringify] is applied to. *)
#[warnings="-register-all"]
Inductive json : Type :=
| JNull
| JBool (b : bool)
| JNum (n : JSNumber.num)
| JStr (s : string)
| JArr (l : list json)
| JObj (members : list (string * json)).

(** A response body: literal text, or the serialisation of a value. *)
Inductive body : Type :=
| BText (s : string)
| BJson (v : json).

(** A parsed URL: the whole text, its path, and its decoded query
    parameters in order of appearance. *)
Record URL : Type := mkURL {
  href : string;
  pathname : string;
  searchParams : list (string * string)
}.

Record Request : Type := mkRequest {
  req_method : string;
  req_url : URL
}.

Definition headers : Type := list (string * string).

Record Response : Type := mkResponse {
  status : Z;
  res_headers : headers;
  res_body : body
}.

(** The worker's bindings ([env]); an unset variable is [None]. *)
Record Env : Type := mkEnv {
  ICAL_URL : option string;
  NEWS_RSS_URL : option string;
  CORS_ORIGIN : option string
}.

(** The execution context handed to every handler. *)
Inductive ExecutionContext : Type := ctx_of_request.

(** What an upstream fetch produces: a rejected promise, or a response
    with its status and text. *)
Inductive FetchResult : Type :=
| FetchRejected (e : exn)
| Fetched (st : Z) (text : string).

(** The language runtime: local zone, successive clock readings, and the
    date formats the engine parses beyond the specified one. *)
Record Runtime : Type := mkRuntime {
  zone : JSDate.Zone;
  clock : nat -> Z;
  legacy_date_parse : string -> option Z
}.

(** Everything outside the worker: the runtime, the upstream servers, and
    whether the edge cache accepts a write. *)
Record World : Type := mkWorld {
  runtime : Runtime;
  upstream : string -> FetchResult;
  cache_put_error : Request -> Response -> option exn
}.

(** Observable interactions, oldest first in the log. *)
Inductive IOEvent : Type :=
| EvCacheMatch (r : Request)
| EvFetch (url : string)
| EvCachePut (r : Request) (res : Response).

Record State : Type := mkState {
  ticks : nat;
  cache : list (string * string * Response);
  log : list IOEvent
}.

(** Computations of the worker: they read the world, thread the state,
    and either return a value or throw (a rejected promise). *)
Definition M (A : Type) : Type := World -> State -> outcome A * State.

Definition ret {A} (a : A) : M A := fun _ st => (Ok a, st).
Definition throw {A} (e : exn) : M A := fun _ st => (Throw e, st).
Definition bind {A B} (m : M A) (f : A -> M B) : M B :=
  fun w st =>
    match m w st with
    | (Ok a, st') => f a w st'
    | (Throw e, st') => (Throw e, st')
    end.
Definition liftO {A} (o : outcome A) : M A := fun _ st => (o, st).
Definition ask_runtime : M Runtime := fun w st => (Ok (runtime w), st).
Definition emit (e : IOEvent) : M unit :=
  fun _ st => (Ok tt, mkState (ticks st) (cache st) (log st ++ [e])%list).

Declare Scope worker_scope.
Delimit Scope worker_scope with worker.
Notation "x <- c ;; k" := (bind c (fun x => k))
  (at level 61, c at next level, right associativity) : worker_scope.
Notation "c ;;; k" := (bind c (fun _ => k))
  (at level 61, right associativity) : worker_scope.

(** [new Date()]: the next clock reading. *)
Definition Date_now : M Z :=
  fun w st => (Ok (clock (runtime w) (ticks st)),
               mkState (S (ticks st)) (cache st) (log st)).

(** [Date.parse] and [new Date(string)] in a given runtime. *)
Definition Date_parse (rt : Runtime) (s : string) : option Z :=
  JSDate.parse (zone rt) (legacy_date_parse rt) s.

(** *** Header maps. *)
Fixpoint headers_set (k v : string) (h : headers) : headers :=
  match h with
  | [] => [(k, v)]
  | (k', v') :: r =>
      if String.eqb k' k then (k, v) :: r else (k', v') :: headers_set k v r
  end.
Fixpoint headers_get (k : string) (h : headers) : option string :=
  match h with
  | [] => None
  | (k', v) :: r => if String.eqb k' k then Some v else headers_get k r
  end.

(** [url.searchParams.get(name)]: the first value given for [name]. *)
Fixpoint searchParams_get (name : string) (q : list (string * string)) : option string :=
  match q with
  | [] => None
  | (k, v) :: r => if String.eqb k name then Some v else searchParams_get name r
  end.

(** A string in a condition: unset and empty are false. *)
Definition truthy (o : option string) : bool :=
  match o with
  | Some s => negb (String.eqb s "")
  | None => false
  end.

(* ================================================================== *)
(** ** Constants *)

Definition CACHE_TTL_SECONDS : Z := 600.
Definition DEFAULT_DAYS_AHEAD : Z := 365.
Definition MAX_LIMIT : Z := 500.

(* ================================================================== *)
(** ** ICS parsing *)

Import JSString.

(** [/^\d{8}$/]. *)
Definition dateOnly (s : string) : bool :=
  (String.length s =? 8)%nat && all_digits s.
(** [/^\d{8}T\d{6}$/]. *)
Definition dateTimeLocal (s : string) : bool :=
  (String.length s =? 15)%nat && all_digits (substring 0 8 s)
  && String.eqb (substring 8 1 s) "T" && all_digits (substring 9 6 s).
(** [/^\d{8}T\d{6}Z$/]. *)
Definition dateTimeZ (s : string) : bool :=
  (String.length s =? 16)%nat && all_digits (substring 0 8 s)
  && String.eqb (substring 8 1 s) "T" && all_digits (substring 9 6 s)
  && String.eqb (substring 15 1 s) "Z".

Definition isoFromICSUTC (rt : Runtime) (icsDT : string) : outcome string :=
  let y := slice 0 4 icsDT in let m := slice 4 6 icsDT in let d := slice 6 8 icsDT in
  let hh := slice 9 11 icsDT in let mm := slice 11 13 icsDT in
  let ss := slice 13 15 icsDT in
  JSDate.toISOString
    (Date_parse rt (y ++ "-" ++ m ++ "-" ++ d ++ "T" ++ hh ++ ":" ++ mm ++ ":" ++ ss ++ "Z")).

(** [new Date(dt.getTime() - dt.getTimezoneOffset()*60000)]; an invalid
    [dt] stays invalid. *)
Definition shift_by_timezone_offset (rt : Runtime) (dt : option Z) : option Z :=
  match dt with
  | Some t =>
      JSDate.TimeClip (t - JSDate.getTimezoneOffset (zone rt) t * 60000)
  | None => None
  end.

Definition toUTCStringFromLocalDateTime (rt : Runtime) (icsLocal : string) : outcome string :=
  let y := slice 0 4 icsLocal in let m := slice 4 6 icsLocal in
  let d := slice 6 8 icsLocal in
  let hh := slice 9 11 icsLocal in let mm := slice 11 13 icsLocal in
  let ss := slice 13 15 icsLocal in
  let dt := Date_parse rt (y ++ "-" ++ m ++ "-" ++ d ++ "T" ++ hh ++ ":" ++ mm ++ ":" ++ ss) in
  JSDate.toISOString (shift_by_timezone_offset rt dt).

Definition toUTCStringFromLocalParts (rt : Runtime) (yyyymmdd hhmmss : string) : outcome string :=
  let y := slice 0 4 yyyymmdd in let m := slice 4 6 yyyymmdd in
  let d := slice 6 8 yyyymmdd in
  let hh := slice 0 2 hhmmss in let mm := slice 2 4 hhmmss in
  let ss := slice 4 6 hhmmss in
  let dt := Date_parse rt (y ++ "-" ++ m ++ "-" ++ d ++ "T" ++ hh ++ ":" ++ mm ++ ":" ++ ss) in
  JSDate.toISOString (shift_by_timezone_offset rt dt).

Record Dates : Type := mkDates {
  d_start : string;
  d_end : string;
  d_isAllDay : bool
}.

(** The value of an optional string where the code has already tested it
    to be set. *)
Definition str_of (o : option string) : string :=
  match o with Some s => s | None => "" end.

(** [new Date(s.getTime() + 24 * 3600 * 1000)] for a date [s]. *)
Definition plus_one_day (s : option Z) : option Z :=
  match s with
  | Some t => JSDate.TimeClip (t + 24 * 3600 * 1000)
  | None => None
  end.

Definition normalizeDates (dtstart dtend : option string) : M Dates :=
  (rt <- ask_runtime ;;
   if truthy dtstart && dateOnly (str_of dtstart) then
     start <- liftO (toUTCStringFromLocalParts rt (str_of dtstart) "000000") ;;
     if truthy dtend && dateOnly (str_of dtend) then
       end_ <- liftO (toUTCStringFromLocalParts rt (str_of dtend) "000000") ;;
       ret (mkDates start end_ true)
     else
       let s := Date_parse rt start in
       end_ <- liftO (JSDate.toISOString (plus_one_day s)) ;;
       ret (mkDates start end_ true)
   else if truthy dtstart && dateTimeZ (str_of dtstart) then
     start <- liftO (isoFromICSUTC rt (str_of dtstart)) ;;
     end_ <- liftO
       (if truthy dtend then
          if dateTimeZ (str_of dtend) then isoFromICSUTC rt (str_of dtend)
          else if dateTimeLocal (str_of dtend)
               then toUTCStringFromLocalDateTime rt (str_of dtend)
               else isoFromICSUTC rt (str_of dtstart)
        else Ok start) ;;
     ret (mkDates start end_ false)
   else if truthy dtstart && dateTimeLocal (str_of dtstart) then
     start <- liftO (toUTCStringFromLocalDateTime rt (str_of dtstart)) ;;
     end_ <- liftO
       (if truthy dtend then
          if dateTimeLocal (str_of dtend)
          then toUTCStringFromLocalDateTime rt (str_of dtend)
          else if dateTimeZ (str_of dtend) then isoFromICSUTC rt (str_of dtend)
               else Ok start
        else Ok start) ;;
     ret (mkDates start end_ false)
   else
     t <- Date_now ;;
     now <- liftO (JSDate.toISOString (JSDate.TimeClip t)) ;;
     ret (mkDates now now false))%worker.

Record Event : Type := mkEvent {
  ev_start : string;
  ev_end : string;
  ev_isAllDay : bool;
  ev_summary : string;
  ev_location : string;
  ev_url : string;
  ev_uid : string;
  ev_calendar : string
}.

(** The field bag of the current VEVENT: the latest value set for a key is
    the one read. *)
Definition bag : Type := list (string * string).
Definition bag_set (k v : string) (b : bag) : bag := (k, v) :: b.
Fixpoint bag_get (k : string) (b : bag) : option string :=
  match b with
  | [] => None
  | (k', v) :: r => if String.eqb k' k then Some v else bag_get k r
  end.
(** [cur.KEY || ""]. *)
Definition bag_get_or_empty (k : string) (b : bag) : string := str_of (bag_get k b).

(** [ics.replace(/\r?\n[ \t]/g, "")]. *)
Definition is_fold_space (c : ascii) : bool := Ascii.eqb c " " || (code c =? 9).
Fixpoint unfold_lines (s : string) : string :=
  match s with
  | EmptyString => EmptyString
  | String c r =>
      match r with
      | String c2 r2 =>
          if (code c =? 10) && is_fold_space c2 then unfold_lines r2
          else if (code c =? 13) && starts_with (String (ascii_of_N 10) EmptyString) r then
            match r2 with
            | String c3 r3 => if is_fold_space c3 then unfold_lines r3
                              else String c (unfold_lines r)
            | EmptyString => String c (unfold_lines r)
            end
          else String c (unfold_lines r)
      | EmptyString => String c EmptyString
      end
  end.

(** [unfolded.split(/\r?\n/)]. *)
Fixpoint split_lines (s : string) : list string :=
  match s with
  | EmptyString => [EmptyString]
  | String c r =>
      let keep := match split_lines r with
                  | l :: ls => String c l :: ls
                  | [] => [String c EmptyString]
                  end in
      if code c =? 10 then EmptyString :: split_lines r
      else if code c =? 13 then
        match r with
        | String c2 r2 => if code c2 =? 10 then EmptyString :: split_lines r2 else keep
        | EmptyString => keep
        end
      else keep
  end.

(** One turn of the loop of [parseICS] over the logical lines: the events
    pushed so far and the current field bag ([None] outside a block). *)
Definition parseICS_step (line : string) (acc : list Event * option bag)
  : M (list Event * option bag) :=
  (let '(events, cur) := acc in
   if String.eqb line "BEGIN:VEVENT" then ret (events, Some [])
   else if String.eqb line "END:VEVENT" then
     match cur with
     | Some c =>
         ds <- normalizeDates (bag_get "DTSTART" c) (bag_get "DTEND" c) ;;
         ret ((events ++ [mkEvent (d_start ds) (d_end ds) (d_isAllDay ds)
                            (bag_get_or_empty "SUMMARY" c)
                            (bag_get_or_empty "LOCATION" c)
                            (bag_get_or_empty "URL" c)
                            (bag_get_or_empty "UID" c)
                            "Laget.se"])%list, None)
     | None => ret (events, None)
     end
   else
     match cur with
     | None => ret acc
     | Some c =>
         match indexOf_char ":" line with
         | None => ret acc
         | Some idx =>
             let left := slice 0 idx line in
             let value := slice_from (S idx) line in
             let key := toUpperCase (before_char ";" left) in
             ret (events, Some (bag_set key value c))
         end
     end)%worker.

Fixpoint parseICS_loop (lines : list string) (acc : list Event * option bag)
  : M (list Event) :=
  match lines with
  | [] => ret (fst acc)
  | line :: rest =>
      (acc' <- parseICS_step line acc ;; parseICS_loop rest acc')%worker
  end.

Definition parseICS (ics : string) : M (list Event) :=
  let unfolded := unfold_lines ics in
  let lines := split_lines unfolded in
  parseICS_loop lines ([], None).

(* ================================================================== *)
(** ** RSS parsing *)

(** [\b] after a name that ends in a letter: the text goes on with a
    character that is not a word character, or stops. *)
Definition word_boundary (s : string) : bool :=
  match s with
  | EmptyString => true
  | String c _ => negb (is_word c)
  end.

(** An anchored attempt of [/<item\b[\s\S]*?<\/item>/i] at the start of
    [s]: the block matched and the text after it. *)
Definition match_item_at (s : string) : option (string * string) :=
  if starts_with_ci "<item" s && word_boundary (slice_from 5 s) then
    match find_ci "</item>" (slice_from 5 s) with
    | Some k => Some (substring 0 (5 + k + 7) s, slice_from (5 + k + 7) s)
    | None => None
    end
  else None.

(** The successive matches of the item pattern ([exec] with the [g]
    flag).  Each turn consumes a character, so the length is fuel enough. *)
Fixpoint itemBlocks_from (fuel : nat) (s : string) : list string :=
  match fuel with
  | O => []
  | S f =>
      match s with
      | EmptyString => []
      | String _ r =>
          match match_item_at s with
          | Some (blk, rest) => blk :: itemBlocks_from f rest
          | None => itemBlocks_from f r
          end
      end
  end.
Definition itemBlocks (xml : string) : list string :=
  itemBlocks_from (String.length xml) xml.

(** An anchored attempt of [<TAG\b[^>]*>([\s\S]*?)<\/TAG>] (flag [i]):
    the captured text and what follows the match. *)
Definition match_tag_at (tag s : string) : option (string * string) :=
  let opening := "<" ++ tag in
  let closing := "</" ++ tag ++ ">" in
  let after_name := slice_from (String.length opening) s in
  if starts_with_ci opening s && word_boundary after_name then
    match indexOf_char ">" after_name with
    | Some j =>
        let content := slice_from (S j) after_name in
        match find_ci closing content with
        | Some k => Some (substring 0 k content,
                          slice_from (k + String.length closing) content)
        | None => None
        end
    | None => None
    end
  else None.

(** [/<!\[CDATA\[(.*?)\]\]>/gs] replaced by its group. *)
Fixpoint stripCDATA_from (fuel : nat) (s : string) : string :=
  match fuel with
  | O => s
  | S f =>
      match s with
      | EmptyString => EmptyString
      | String c r =>
          if starts_with "<![CDATA[" s then
            match find "]]>" (slice_from 9 s) with
            | Some k => substring 0 k (slice_from 9 s)
                          ++ stripCDATA_from f (slice_from (k + 3) (slice_from 9 s))
            | None => String c (stripCDATA_from f r)
            end
          else String c (stripCDATA_from f r)
      end
  end.
Definition stripCDATA (s : string) : string := stripCDATA_from (String.length s) s.

(** The leftmost match of the tag pattern in [xml]. *)
Fixpoint find_tag (tag xml : string) : option (string * string) :=
  match match_tag_at tag xml with
  | Some r => Some r
  | None =>
      match xml with
      | EmptyString => None
      | String _ r => find_tag tag r
      end
  end.

Definition pickTag (xml tag : string) : option string :=
  match find_tag tag xml with
  | Some (inner, _) => Some (trim (stripCDATA inner))
  | None => None
  end.

Fixpoint pickAll_from (fuel : nat) (xml tag : string) : list string :=
  match fuel with
  | O => []
  | S f =>
      match xml with
      | EmptyString => []
      | String _ r =>
          match match_tag_at tag xml with
          | Some (inner, rest) => trim (stripCDATA inner) :: pickAll_from f rest tag
          | None => pickAll_from f r tag
          end
      end
  end.
Definition pickAll (xml tag : string) : list string :=
  pickAll_from (String.length xml) xml tag.

(** The attribute pattern (flag [i]): the attribute name, an equals sign,
    the quote character [q], one or more characters other than [q], and
    [q] again.  The leftmost match's group. *)
Fixpoint find_attr (attr : string) (q : ascii) (attrs : string) : option string :=
  let opening := attr ++ "=" ++ String q EmptyString in
  let here :=
    if starts_with_ci opening attrs then
      match indexOf_char q (slice_from (String.length opening) attrs) with
      | Some (S k) => Some (substring 0 (S k) (slice_from (String.length opening) attrs))
      | _ => None
      end
    else None in
  match here with
  | Some v => Some v
  | None =>
      match attrs with
      | EmptyString => None
      | String _ r => find_attr attr q r
      end
  end.

Definition dquote : ascii := ascii_of_N 34.

(** The leftmost match of the opening-tag pattern (the tag name, a word
    boundary, a group of characters other than [>], an optional slash and
    [>]): its group, which runs up to the first [>]. *)
Fixpoint find_open_tag (tag xml : string) : option string :=
  let opening := "<" ++ tag in
  let after_name := slice_from (String.length opening) xml in
  let here :=
    if starts_with_ci opening xml && word_boundary after_name then
      match indexOf_char ">" after_name with
      | Some j => Some (substring 0 j after_name)
      | None => None
      end
    else None in
  match here with
  | Some v => Some v
  | None =>
      match xml with
      | EmptyString => None
      | String _ r => find_open_tag tag r
      end
  end.

Definition pickAttr (xml tag attr : string) : option string :=
  match find_open_tag tag xml with
  | None => None
  | Some attrs =>
      match find_attr attr dquote attrs with
      | Some a => Some a
      | None => find_attr attr "'" attrs
      end
  end.

(** [s.replace(/<\/?[^>]+>/g, "")]: a [<] starts a tag when the first [>]
    after it is at least one character away. *)
Fixpoint remove_tags_from (fuel : nat) (s : string) : string :=
  match fuel with
  | O => s
  | S f =>
      match s with
      | EmptyString => EmptyString
      | String c r =>
          if Ascii.eqb c "<" then
            match indexOf_char ">" r with
            | Some (S j) => remove_tags_from f (slice_from (S (S j)) r)
            | _ => String c (remove_tags_from f r)
            end
          else String c (remove_tags_from f r)
      end
  end.
Definition remove_tags (s : string) : string := remove_tags_from (String.length s) s.

(** [s.replace(/\r?\n|\r/g, " ")]. *)
Fixpoint newlines_to_spaces (s : string) : string :=
  match s with
  | EmptyString => EmptyString
  | String c r =>
      if code c =? 10 then String " " (newlines_to_spaces r)
      else if code c =? 13 then
        match r with
        | String c2 r2 =>
            if code c2 =? 10 then String " " (newlines_to_spaces r2)
            else String " " (newlines_to_spaces r)
        | EmptyString => String " " EmptyString
        end
      else String c (newlines_to_spaces r)
  end.

(** [s.replace(/\s+/g, " ")]: the last character of a run of white space
    becomes the single space. *)
Fixpoint collapse_spaces (s : string) : string :=
  match s with
  | EmptyString => EmptyString
  | String c r =>
      if is_space c then
        match r with
        | String c2 _ => if is_space c2 then collapse_spaces r
                         else String " " (collapse_spaces r)
        | EmptyString => String " " EmptyString
        end
      else String c (collapse_spaces r)
  end.

Definition stripTags (s : string) : string :=
  trim (collapse_spaces (newlines_to_spaces (remove_tags s))).

(** The entity table of [decodeHTML]. *)
Definition entity_map : list (string * string) :=
  [ ("&amp;", "&"); ("&lt;", "<"); ("&gt;", ">");
    ("&quot;", String dquote EmptyString); ("&#39;", "'"); ("&apos;", "'") ].

Fixpoint match_entity (tbl : list (string * string)) (s : string) : option (string * nat) :=
  match tbl with
  | [] => None
  | (e, v) :: rest =>
      if starts_with e s then Some (v, String.length e) else match_entity rest s
  end.

Fixpoint decodeHTML_from (fuel : nat) (s : string) : string :=
  match fuel with
  | O => s
  | S f =>
      match s with
      | EmptyString => EmptyString
      | String c r =>
          match match_entity entity_map s with
          | Some (v, n) => v ++ decodeHTML_from f (slice_from n s)
          | None => String c (decodeHTML_from f r)
          end
      end
  end.
Definition decodeHTML (s : string) : string := decodeHTML_from (String.length s) s.

Record NewsItem : Type := mkNewsItem {
  title : string;
  link : string;
  guid : string;
  pubDate : string;
  description : string;
  enclosure : option string;
  categories : list string
}.

(** The record pushed for one item block. *)
Definition item_of_block (block : string) : NewsItem :=
  mkNewsItem
    (decodeHTML (stripTags (str_of (pickTag block "title"))))
    (trim (str_of (pickTag block "link")))
    (trim (str_of (pickTag block "guid")))
    (trim (str_of (pickTag block "pubDate")))
    (decodeHTML (stripTags (str_of (pickTag block "description"))))
    (pickAttr block "enclosure" "url")
    (map (fun x => decodeHTML (stripTags x)) (pickAll block "category")).

(** [Array.prototype.sort] with a comparison function whose result is a
    number ([None] for NaN), as the worker's engine (V8) carries it out on
    an array without holes: the run that starts the array is found, and
    reversed when it descends strictly; then each further element is put
    in its place by binary insertion.  Arrays of 64 elements or more the
    engine sorts in such runs and merges them; the sort being stable, the
    result is the same whenever the comparison is consistent. *)
Section Sort.
Context {A : Type} (comparefn : A -> A -> option Z).

(** The number the sort takes from a comparison: NaN counts as zero. *)
Definition order (x y : A) : Z :=
  match comparefn x y with
  | Some v => v
  | None => 0
  end.

(** The length of the run that starts the array, after its first two
    elements: each element is compared with the one before it. *)
Fixpoint run_length (descends : bool) (previous : A) (l : list A) : nat :=
  match l with
  | [] => 0
  | x :: r =>
      if (if descends then order x previous <? 0 else 0 <=? order x previous)
      then S (run_length descends x r)
      else 0
  end.

(** The first run, ascending by the comparison (a strictly descending
    one is reversed), and the rest of the array. *)
Definition count_and_make_run (l : list A) : list A * list A :=
  match l with
  | a :: b :: r =>
      let descends := order b a <? 0 in
      let n := S (S (run_length descends b r)) in
      (if descends then rev (firstn n l) else firstn n l, skipn n l)
  | _ => (l, [])
  end.

(** Where [pivot] belongs in the sorted part, by binary search between
    [left] and [right]. *)
Fixpoint insertion_point (fuel : nat) (pivot : A) (sorted : list A) (left right : nat)
  : nat :=
  match fuel with
  | O => left
  | S fuel' =>
      if (left <? right)%nat then
        let mid := (left + Nat.div2 (right - left))%nat in
        match nth_error sorted mid with
        | Some e =>
            if order pivot e <? 0
            then insertion_point fuel' pivot sorted left mid
            else insertion_point fuel' pivot sorted (S mid) right
        | None => left
        end
      else left
  end.

Definition binary_insert (sorted : list A) (pivot : A) : list A :=
  let k := insertion_point (List.length sorted) pivot sorted 0 (List.length sorted) in
  (firstn k sorted ++ pivot :: skipn k sorted)%list.

Definition js_sort (l : list A) : list A :=
  let '(run, rest) := count_and_make_run l in
  fold_left binary_insert rest run.
End Sort.

(** Subtraction of two time values, NaN when either is. *)
Definition num_sub (a b : option Z) : option Z :=
  match a, b with
  | Some x, Some y => Some (x - y)
  | _, _ => None
  end.

(** [Date.parse(it.pubDate || 0)]: an empty [pubDate] gives the number 0,
    which [Date.parse] reads as the text of that number. *)
Definition pubDate_time (rt : Runtime) (it : NewsItem) : option Z :=
  Date_parse rt (if String.eqb (pubDate it) "" then "0" else pubDate it).

Definition parseRSS (rt : Runtime) (xml : string) : list NewsItem :=
  let items := map item_of_block (itemBlocks xml) in
  js_sort (fun a b => num_sub (pubDate_time rt b) (pubDate_time rt a)) items.

(* ================================================================== *)
(** ** Common helpers *)

Import JSNumber.

Definition corsHeaders (env : Env) : headers :=
  let allow := if truthy (CORS_ORIGIN env) then str_of (CORS_ORIGIN env) else "*" in
  [ ("access-control-allow-origin", allow);
    ("access-control-allow-methods", "GET, HEAD, OPTIONS");
    ("access-control-allow-headers", "Content-Type, Cache-Control") ].

Definition withCORS (res : Response) (cors : headers) : Response :=
  mkResponse (status res)
    (fold_left (fun h kv => headers_set (fst kv) (snd kv) h) cors (res_headers res))
    (res_body res).

(** [new Response(text, { status, headers })] with the body given as a
    string: when the headers name no content type, the constructor adds
    that of plain text.  (Every other response of the worker names its
    content type itself; header names are in lower case throughout, as
    the worker writes them.) *)
Definition text_response (st : Z) (h : headers) (text : string) : Response :=
  mkResponse st
    (match headers_get "content-type" h with
     | Some _ => h
     | None => (h ++ [("content-type", "text/plain;charset=UTF-8")])%list
     end)
    (BText text).

Definition jsonResponse (obj : json) (cors : headers) (st : Z) : Response :=
  mkResponse st
    (headers_set "content-type" "application/json; charset=utf-8" cors)
    (BJson obj).

Definition badRequest (msg : string) (cors : headers) : Response :=
  jsonResponse (JObj [("error", JStr msg)]) cors 400.

Definition int (v : option string) : option num :=
  match v with
  | None => None
  | Some s => let n := StringToNumber s in
              if isFinite n then Some n else None
  end.

Definition clamp (n mn mx : num) : num := JSNumber.max mn (JSNumber.min mx n).

Definition startOfDayUTC (d : Z) : option Z :=
  JSDate.DateUTC (JSDate.YearFromTime d) (JSDate.MonthFromTime d) (JSDate.DateFromTime d).

(** The cache is keyed by the request's method and URL. *)
Fixpoint cache_lookup (m u : string) (c : list (string * string * Response))
  : option Response :=
  match c with
  | [] => None
  | (m', u', r) :: rest =>
      if String.eqb m' m && String.eqb u' u then Some r else cache_lookup m u rest
  end.

Definition fromEdgeCache (request : Request) : M (option Response) :=
  (emit (EvCacheMatch request) ;;;
   fun w st =>
     (Ok (cache_lookup (req_method request) (href (req_url request)) (cache st)), st))%worker.

(** [await caches.default.put(request, response)]: the awaited promise
    rejects when the cache refuses the write. *)
Definition saveToEdgeCache (request : Request) (response : Response) : M unit :=
  (emit (EvCachePut request response) ;;;
   fun w st =>
     match cache_put_error w request response with
     | Some e => (Throw e, st)
     | None =>
         (Ok tt, mkState (ticks st)
                   ((req_method request, href (req_url request), response) :: cache st)
                   (log st))
     end)%worker.

(** The global [fetch] of an upstream URL: status and text of the reply. *)
Definition fetch_upstream (url : string) : M (Z * string) :=
  (emit (EvFetch url) ;;;
   fun w st =>
     match upstream w url with
     | FetchRejected e => (Throw e, st)
     | Fetched code text => (Ok (code, text), st)
     end)%worker.

Definition response_ok (code : Z) : bool := (200 <=? code) && (code <=? 299).

(** The text of the [cache-control] header, with [CACHE_TTL_SECONDS]
    written out. *)
Definition cache_control_value : string :=
  "public, max-age=600, stale-while-revalidate=86400".

(* ================================================================== *)
(** ** /api/events *)

Definition event_json (ev : Event) : json :=
  JObj [ ("start", JStr (ev_start ev)); ("end", JStr (ev_end ev));
         ("isAllDay", JBool (ev_isAllDay ev)); ("summary", JStr (ev_summary ev));
         ("location", JStr (ev_location ev)); ("url", JStr (ev_url ev));
         ("uid", JStr (ev_uid ev)); ("calendar", JStr (ev_calendar ev)) ].

(** [a <= b] on two dates (false when either is invalid). *)
Definition time_le (a b : option Z) : bool :=
  match a, b with
  | Some x, Some y => x <=? y
  | _, _ => false
  end.

(** The constants [days], [until], [upcoming] and [limit] of [eventsJSON]. *)
Definition events_days (url : URL) : num :=
  clamp (match int (searchParams_get "days" (searchParams url)) with
         | Some n => n
         | None => ofZ DEFAULT_DAYS_AHEAD
         end) (ofZ 1) (ofZ 3650).

Definition events_until (now : Z) (days : num) : option Z :=
  toTimeValue (add (ofZ now) (mul (mul (mul days (ofZ 24)) (ofZ 3600)) (ofZ 1000))).

Definition events_upcoming (rt : Runtime) (now : Z) (until : option Z)
    (events : list Event) : list Event :=
  js_sort (fun a b => num_sub (Date_parse rt (ev_start a)) (Date_parse rt (ev_start b)))
    (filter (fun ev =>
               let start := Date_parse rt (ev_start ev) in
               time_le (startOfDayUTC now) start && time_le start until)
            events).

Definition result_limit {A} (url : URL) (matches : list A) : num :=
  clamp (match int (searchParams_get "limit" (searchParams url)) with
         | Some n => n
         | None => ofZ (Z.of_nat (List.length matches))
         end) (ofZ 1) (ofZ MAX_LIMIT).

Definition payload_count {A} (limit : num) (matches : list A) : num :=
  JSNumber.min limit (ofZ (Z.of_nat (List.length matches))).

Definition eventsJSON (env : Env) (url : URL) (request : Request)
    (ctx : ExecutionContext) (cors : headers) : M Response :=
  (if negb (truthy (ICAL_URL env)) then ret (badRequest "Missing ICAL_URL env" cors)
   else
     cached <- fromEdgeCache request ;;
     match cached with
     | Some c => ret (withCORS c cors)
     | None =>
         icsRes <- fetch_upstream (str_of (ICAL_URL env)) ;;
         if negb (response_ok (fst icsRes))
         then ret (text_response 502 cors "Failed to fetch ICS")
         else
           events <- parseICS (snd icsRes) ;;
           rt <- ask_runtime ;;
           now <- Date_now ;;
           let days := events_days url in
           let until := events_until now days in
           let upcoming := events_upcoming rt now until events in
           let limit := result_limit url upcoming in
           t <- Date_now ;;
           updatedAt <- liftO (JSDate.toISOString (JSDate.TimeClip t)) ;;
           let payload :=
             JObj [ ("updatedAt", JStr updatedAt);
                    ("count", JNum (payload_count limit upcoming));
                    ("events", JArr (map event_json (slice0 limit upcoming))) ] in
           let res := jsonResponse payload cors 200 in
           let res := mkResponse (status res)
                        (headers_set "cache-control" cache_control_value (res_headers res))
                        (res_body res) in
           saveToEdgeCache request res ;;;
           ret res
     end)%worker.

Definition rawICS (env : Env) (request : Request) (ctx : ExecutionContext)
    (cors : headers) : M Response :=
  (if negb (truthy (ICAL_URL env)) then ret (badRequest "Missing ICAL_URL env" cors)
   else
     cached <- fromEdgeCache request ;;
     match cached with
     | Some c => ret (withCORS c cors)
     | None =>
         icsRes <- fetch_upstream (str_of (ICAL_URL env)) ;;
         if negb (response_ok (fst icsRes))
         then ret (text_response 502 cors "Failed to fetch ICS")
         else
           let res := mkResponse 200
                        (headers_set "cache-control" cache_control_value
                           (headers_set "content-type" "text/calendar; charset=utf-8" cors))
                        (BText (snd icsRes)) in
           saveToEdgeCache request res ;;;
           ret res
     end)%worker.

(* ================================================================== *)
(** ** /api/news *)

Definition item_json (it : NewsItem) : json :=
  JObj [ ("title", JStr (title it)); ("link", JStr (link it));
         ("guid", JStr (guid it)); ("pubDate", JStr (pubDate it));
         ("description", JStr (description it));
         ("enclosure", match enclosure it with Some u => JStr u | None => JNull end);
         ("categories", JArr (map JStr (categories it))) ].

Definition newsJSON (env : Env) (url : URL) (request : Request)
    (ctx : ExecutionContext) (cors : headers) : M Response :=
  (if negb (truthy (NEWS_RSS_URL env)) then ret (badRequest "Missing NEWS_RSS_URL env" cors)
   else
     cached <- fromEdgeCache request ;;
     match cached with
     | Some c => ret (withCORS c cors)
     | None =>
         rssRes <- fetch_upstream (str_of (NEWS_RSS_URL env)) ;;
         if negb (response_ok (fst rssRes))
         then ret (text_response 502 cors "Failed to fetch RSS")
         else
           rt <- ask_runtime ;;
           let items := parseRSS rt (snd rssRes) in
           let limit := result_limit url items in
           t <- Date_now ;;
           updatedAt <- liftO (JSDate.toISOString (JSDate.TimeClip t)) ;;
           let payload :=
             JObj [ ("updatedAt", JStr updatedAt);
                    ("count", JNum (payload_count limit items));
                    ("items", JArr (map item_json (slice0 limit items))) ] in
           let res := jsonResponse payload cors 200 in
           let res := mkResponse (status res)
                        (headers_set "cache-control" cache_control_value (res_headers res))
                        (res_body res) in
           saveToEdgeCache request res ;;;
           ret res
     end)%worker.

Definition rawRSS (env : Env) (request : Request) (ctx : ExecutionContext)
    (cors : headers) : M Response :=
  (if negb (truthy (NEWS_RSS_URL env)) then ret (badRequest "Missing NEWS_RSS_URL env" cors)
   else
     cached <- fromEdgeCache request ;;
     match cached with
     | Some c => ret (withCORS c cors)
     | None =>
         rssRes <- fetch_upstream (str_of (NEWS_RSS_URL env)) ;;
         if negb (response_ok (fst rssRes))
         then ret (text_response 502 cors "Failed to fetch RSS")
         else
           let res := mkResponse 200
                        (headers_set "cache-control" cache_control_value
                           (headers_set "content-type" "application/rss+xml; charset=utf-8" cors))
                        (BText (snd rssRes)) in
           saveToEdgeCache request res ;;;
           ret res
     end)%worker.

(* ================================================================== *)
(** ** The worker's entry point *)

Definition fetch (request : Request) (env : Env) (ctx : ExecutionContext) : M Response :=
  let url := req_url request in
  let path := strip_trailing_slashes (pathname url) in
  let cors := corsHeaders env in
  if String.eqb path "/" then
    ret (mkResponse 200 (headers_set "content-type" "text/plain" cors) (BText "OK"))
  else if endsWith path "/api/events/raw" then rawICS env request ctx cors
  else if endsWith path "/api/news/raw" then rawRSS env request ctx cors
  else if endsWith path "/api/events" then eventsJSON env url request ctx cors
  else if endsWith path "/api/news" then newsJSON env url request ctx cors
  else ret (text_response 404 cors "Not found").

(* ================================================================== *)
(** ** Vocabulary of the specification *)

(** The four operations behind the routes, with the variable each needs
    and the message of its configuration error. *)
Inductive Operation : Type := OpEventsJSON | OpEventsRaw | OpNewsJSON | OpNewsRaw.

Definition run_operation (op : Operation) (env : Env) (request : Request)
    (ctx : ExecutionContext) (cors : headers) : M Response :=
  match op with
  | OpEventsJSON => eventsJSON env (req_url request) request ctx cors
  | OpEventsRaw => rawICS env request ctx cors
  | OpNewsJSON => newsJSON env (req_url request) request ctx cors
  | OpNewsRaw => rawRSS env request ctx cors
  end.

Definition uses_calendar (op : Operation) : bool :=
  match op with
  | OpEventsJSON | OpEventsRaw => true
  | OpNewsJSON | OpNewsRaw => false
  end.

Definition required_url (op : Operation) (env : Env) : option string :=
  if uses_calendar op then ICAL_URL env else NEWS_RSS_URL env.

Definition missing_message (op : Operation) : string :=
  if uses_calendar op then "Missing ICAL_URL env" else "Missing NEWS_RSS_URL env".

(** Number of days of month [m] (1 to 12) of year [y]. *)
Definition days_in_month (y m : Z) : Z :=
  match m with
  | 2 => if JSDate.isLeapYear y then 29 else 28
  | 4 | 6 | 9 | 11 => 30
  | _ => 31
  end.

(** The numeric fields of a token: year, month, day from its first eight
    characters, and hour, minute, second from characters 9 to 14. *)
Definition token_year (s : string) : Z := digits_value (slice 0 4 s).
Definition token_month (s : string) : Z := digits_value (slice 4 6 s).
Definition token_day (s : string) : Z := digits_value (slice 6 8 s).
Definition token_hour (s : string) : Z := digits_value (slice 9 11 s).
Definition token_minute (s : string) : Z := digits_value (slice 11 13 s).
Definition token_second (s : string) : Z := digits_value (slice 13 15 s).

(** The token names a day of the calendar. *)
Definition real_calendar_date (s : string) : Prop :=
  1 <= token_month s <= 12 /\
  1 <= token_day s <= days_in_month (token_year s) (token_month s).

(** The token names a time of day. *)
Definition real_time_of_day (s : string) : Prop :=
  token_hour s <= 23 /\ token_minute s <= 59 /\ token_second s <= 59.

(** Midnight at the start of the token's day with the fields read as UTC,
    as a time value and as text. *)
Definition utc_midnight (s : string) : Z :=
  JSDate.MakeDate (JSDate.MakeDay (token_year s) (token_month s - 1) (token_day s)) 0.
Definition midnight_text (s : string) : string :=
  slice 0 4 s ++ "-" ++ slice 4 6 s ++ "-" ++ slice 6 8 s ++ "T00:00:00.000Z".

(** The token's date and time with the fields read as a clock reading. *)
Definition token_reading (s : string) : Z :=
  JSDate.MakeDate (JSDate.MakeDay (token_year s) (token_month s - 1) (token_day s))
    (JSDate.MakeTime (token_hour s) (token_minute s) (token_second s) 0).

(** The zone applies one offset, of at most a day, to the local reading
    [tl] and to the instant that reading denotes: no transition of the
    zone's clocks falls between the two. *)
Definition zone_steady_at (z : JSDate.Zone) (tl : Z) : Prop :=
  JSDate.tza_utc z (JSDate.UTC z tl) = JSDate.tza_local z tl /\
  Z.abs (JSDate.tza_local z tl) <= 1440.

(** The next clock reading is a time value. *)
Definition clock_in_range (w : World) (st : State) : Prop :=
  Z.abs (clock (runtime w) (ticks st)) <= JSDate.maxTime.

(** A zone whose clocks go from offset [before] to the larger offset
    [after] (minutes) at the UTC instant [at]: the local readings in
    between are skipped and take the offset [before]. *)
Definition springForwardZone (before after at_utc : Z) : JSDate.Zone :=
  JSDate.mkZone
    (fun t => if t <? at_utc then before else after)
    (fun tl => if tl <? at_utc + after * 60000 then before else after).

(** Clocks as in Havana in March 2025: from UTC-5 to UTC-4 at local
    midnight of 9 March (05:00 UTC). *)
Definition havana_2025 : JSDate.Zone := springForwardZone (-300) (-240) 1741496400000.
(** Clocks as in Stockholm in March 2025: from UTC+1 to UTC+2 at 02:00
    local time of 30 March (01:00 UTC). *)
Definition stockholm_2025 : JSDate.Zone := springForwardZone 60 120 1743296400000.

(** A runtime in the given zone, its clock stopped at the time value
    [now], that parses no date format beyond the specified one. *)
Definition runtime_at (z : JSDate.Zone) (now : Z) : Runtime :=
  mkRuntime z (fun _ => now) (fun _ => None).
(** The same with the clock stopped at 1 January 2025 00:00 UTC. *)
Definition runtime_in (z : JSDate.Zone) : Runtime := runtime_at z 1735689600000.

(** A world around a runtime: [feed] is served for every upstream URL
    and the cache accepts every write. *)
Definition world_serving (rt : Runtime) (feed : string) : World :=
  mkWorld rt (fun _ => Fetched 200 feed) (fun _ _ => None).

(** The same, with a cache that refuses every write. *)
Definition world_refusing_writes (rt : Runtime) (feed : string) : World :=
  mkWorld rt (fun _ => Fetched 200 feed)
    (fun _ _ => Some (CacheError "put failed")).

Definition initial_state : State := mkState 0 [] [].

(** A list in descending order of a key. *)
Definition descending {A : Type} (key : A -> Z) (l : list A) : Prop :=
  StronglySorted (fun a b => key b <= key a) l.

(** Whether [s] holds neither a line feed nor a carriage return. *)
Fixpoint no_line_break (s : string) : bool :=
  match s with
  | EmptyString => true
  | String c r => negb (code c =? 10) && negb (code c =? 13) && no_line_break r
  end.

(** Whether the tag pattern [/<\/?[^>]+>/] matches somewhere in [s]. *)
Fixpoint has_tag (s : string) : bool :=
  match s with
  | EmptyString => false
  | String c r =>
      (Ascii.eqb c "<" && match indexOf_char ">" r with
                          | Some (S _) => true
                          | _ => false
                          end)
      || has_tag r
  end.

(** The first [>] of [r], if any, is its first character. *)
Definition gt_near (r : string) : Prop :=
  indexOf_char ">" r = None \/ exists r', r = String ">" r'.

(** The time of an item's date, for items whose date the engine reads. *)
Definition parsed_pubDate (rt : Runtime) (it : NewsItem) : Z :=
  match pubDate_time rt it with Some t => t | None => 0 end.


(** A calendar of one event from property lines. *)
Definition vevent (props : list string) : string :=
  "BEGIN:VEVENT" ++ LF ++ String.concat LF props ++ LF ++ "END:VEVENT" ++ LF.

(** An RSS item with the given title and publication date. *)
Definition rss_item (t d : string) : string :=
  "<item><title>" ++ t ++ "</title><pubDate>" ++ d ++ "</pubDate></item>".

(** A GET request for a path of the service; [search] is the query as
    written in the URL and [query] its decoded parameters. *)
Definition get_request (path search : string) (query : list (string * string)) : Request :=
  mkRequest "GET" (mkURL ("https://api.harnosandshf.se" ++ path ++ search) path query).

(** Strings of two and four given characters, and the date-time text the
    three conversion functions assemble before handing it to [Date]. *)
Definition two (a b : ascii) : string := String a (String b "").
Definition four (a b c d : ascii) : string :=
  String a (String b (String c (String d ""))).
Definition stamp (y mo d h mi s tail : string) : string :=
  y ++ "-" ++ mo ++ "-" ++ d ++ "T" ++ h ++ ":" ++ mi ++ ":" ++ s ++ tail.

(** The date-time text assembled from a token of floating shape, followed
    by [tail]; with the tail [.000Z] it is the token's own date and time
    written as a UTC instant. *)
Definition token_stamp (s tail : string) : string :=
  stamp (slice 0 4 s) (slice 4 6 s) (slice 6 8 s) (slice 9 11 s) (slice 11 13 s)
    (slice 13 15 s) tail.

(** A calendar of three events on 2, 3 and 4 January 2025. *)
Definition three_upcoming_events : string :=
  vevent ["DTSTART:20250102"; "SUMMARY:One"] ++ vevent ["DTSTART:20250103"; "SUMMARY:Two"]
    ++ vevent ["DTSTART:20250104"; "SUMMARY:Three"].

(** A feed of two items, the first with a date no engine reads. *)
Definition feed_with_unreadable_date : string :=
  "<rss><channel>" ++ rss_item "Old notice" "not a date"
    ++ rss_item "New year" "2025-01-01T10:00:00Z" ++ "</channel></rss>".

Definition configured_env : Env :=
  mkEnv (Some "https://cal.laget.se/HarnosandsHF.ics")
        (Some "https://www.laget.se/HarnosandsHF/Home/NewsRss") None.

(** *** Vocabulary of the further properties *)

(** The three CORS headers, with the values [corsHeaders] gives them. *)
Definition cors_present (env : Env) (h : headers) : Prop :=
  headers_get "access-control-allow-origin" h
  = Some (if truthy (CORS_ORIGIN env) then str_of (CORS_ORIGIN env) else "*") /\
  headers_get "access-control-allow-methods" h = Some "GET, HEAD, OPTIONS" /\
  headers_get "access-control-allow-headers" h = Some "Content-Type, Cache-Control".

(** Two states with the same cache and the same log of interactions. *)
Definition same_store (st st' : State) : Prop :=
  cache st' = cache st /\ log st' = log st.

(** The text of the 502 response of an operation, and the content type of
    its 200 response. *)
Definition failure_message (op : Operation) : string :=
  if uses_calendar op then "Failed to fetch ICS" else "Failed to fetch RSS".

Definition content_type (op : Operation) : string :=
  match op with
  | OpEventsJSON | OpNewsJSON => "application/json; charset=utf-8"
  | OpEventsRaw => "text/calendar; charset=utf-8"
  | OpNewsRaw => "application/rss+xml; charset=utf-8"
  end.

(** The headers of a freshly built 200 response. *)
Definition fresh_headers (op : Operation) (cors : headers) : headers :=
  headers_set "cache-control" cache_control_value
    (headers_set "content-type" (content_type op) cors).

(** What the cache holds for a request. *)
Definition cached_for (request : Request) (st : State) : option Response :=
  cache_lookup (req_method request) (href (req_url request)) (cache st).

(** The state after the interactions [evs], the cache left as it was. *)
Definition after_events (st : State) (evs : list IOEvent) : State :=
  mkState (ticks st) (cache st) (log st ++ evs)%list.

(** The ways an operation can end: the configuration error, a cache hit,
    a rejected upstream fetch, an upstream reply that is not a success, an
    exception after a successful reply (the cache left as it was), and a
    200 response stored in the cache and returned. *)
Inductive Ending (op : Operation) (env : Env) (request : Request) (cors : headers)
    (w : World) (st : State) : outcome Response -> State -> Prop :=
| EndMissing :
    truthy (required_url op env) = false ->
    Ending op env request cors w st (Ok (badRequest (missing_message op) cors)) st
| EndHit c :
    truthy (required_url op env) = true ->
    cached_for request st = Some c ->
    Ending op env request cors w st (Ok (withCORS c cors))
      (after_events st [EvCacheMatch request])
| EndRejected e :
    truthy (required_url op env) = true ->
    cached_for request st = None ->
    upstream w (str_of (required_url op env)) = FetchRejected e ->
    Ending op env request cors w st (Throw e)
      (after_events st [EvCacheMatch request; EvFetch (str_of (required_url op env))])
| EndBadGateway code text :
    truthy (required_url op env) = true ->
    cached_for request st = None ->
    upstream w (str_of (required_url op env)) = Fetched code text ->
    response_ok code = false ->
    Ending op env request cors w st
      (Ok (text_response 502 cors (failure_message op)))
      (after_events st [EvCacheMatch request; EvFetch (str_of (required_url op env))])
| EndThrown code text e st' :
    truthy (required_url op env) = true ->
    cached_for request st = None ->
    upstream w (str_of (required_url op env)) = Fetched code text ->
    response_ok code = true ->
    cache st' = cache st ->
    Ending op env request cors w st (Throw e) st'
| EndStored code text b t :
    truthy (required_url op env) = true ->
    cached_for request st = None ->
    upstream w (str_of (required_url op env)) = Fetched code text ->
    response_ok code = true ->
    cache_put_error w request (mkResponse 200 (fresh_headers op cors) b) = None ->
    Ending op env request cors w st
      (Ok (mkResponse 200 (fresh_headers op cors) b))
      (mkState t
         ((req_method request, href (req_url request),
           mkResponse 200 (fresh_headers op cors) b) :: cache st)
         (log st ++ [EvCacheMatch request; EvFetch (str_of (required_url op env));
                     EvCachePut request (mkResponse 200 (fresh_headers op cors) b)])%list).

(** A world whose upstream servers answer every URL with the status
    [code] and the text [text]; the cache accepts every write. *)
Definition world_answering (rt : Runtime) (code : Z) (text : string) : World :=
  mkWorld rt (fun _ => Fetched code text) (fun _ _ => None).

(** A run of [n] slashes, and the last character of a text. *)
Fixpoint slashes (n : nat) : string :=
  match n with
  | O => ""
  | S k => String "/" (slashes k)
  end.

Fixpoint last_char (s : string) : option ascii :=
  match s with
  | EmptyString => None
  | String c EmptyString => Some c
  | String _ r => last_char r
  end.

(** A request with the given method, URL text, path and query. *)
Definition request_for (method href path : string) (query : list (string * string))
  : Request :=
  mkRequest method (mkURL href path query).

(** The time of an event's start, for events whose start the engine reads. *)
Definition start_time (rt : Runtime) (ev : Event) : Z :=
  match Date_parse rt (ev_start ev) with Some t => t | None => 0 end.

(** A list in ascending order of a key. *)
Definition ascending {A : Type} (key : A -> Z) (l : list A) : Prop :=
  StronglySorted (fun a b => key a <= key b) l.

(** Whether a DTSTART has one of the three encodings, and whether a value
    has one of the two encodings with a time of day. *)
Definition recognised (o : option string) : bool :=
  truthy o && (dateOnly (str_of o) || dateTimeZ (str_of o) || dateTimeLocal (str_of o)).

Definition timed (o : option string) : bool :=
  truthy o && (dateTimeZ (str_of o) || dateTimeLocal (str_of o)).

(** A field of the token is outside what any engine accepts in the
    date-time format. *)
Definition impossible_fields (s : string) : Prop :=
  token_month s < 1 \/ 12 < token_month s \/ token_day s < 1 \/ 31 < token_day s \/
  24 < token_hour s \/ 59 < token_minute s \/ 59 < token_second s.

(** The token names a real date and a real time of day, and, unless it is
    a UTC token, the zone is steady at its reading. *)
Definition well_formed_in (z : JSDate.Zone) (s : string) : Prop :=
  real_calendar_date s /\ real_time_of_day s /\
  (dateTimeZ s = false -> zone_steady_at z (token_reading s)).

(** A logical line as a feed writes it: no line break inside, and no
    space or tab in front (which would fold it into the line before). *)
Definition plain_line (l : string) : bool :=
  no_line_break l &&
  match l with
  | String c _ => negb (is_fold_space c)
  | EmptyString => true
  end.

(** The text of a list of lines, each followed by the line ending [eol],
    which is a line feed alone or after a carriage return. *)
Fixpoint text_of_lines (eol : string) (ls : list string) : string :=
  match ls with
  | [] => ""
  | l :: r => l ++ eol ++ text_of_lines eol r
  end.

Definition line_ending (eol : string) : Prop := eol = LF \/ eol = CR ++ LF.

Definition starts_folded (s : string) : bool :=
  match s with
  | String c _ => is_fold_space c
  | EmptyString => false
  end.

(** What a property line adds to the field bag of its block: the text
    before the first colon, cut at its first semicolon and upper-cased,
    names the field; the text after that colon is the value. *)
Definition read_property (line : string) (b : bag) : bag :=
  match indexOf_char ":" line with
  | None => b
  | Some idx =>
      bag_set (toUpperCase (before_char ";" (slice 0 idx line))) (slice_from (S idx) line) b
  end.

(** The field bag at the end of a block with the property lines [props]. *)
Definition block_bag (props : list string) : bag :=
  fold_left (fun b l => read_property l b) props [].

Definition event_of (c : bag) (ds : Dates) : Event :=
  mkEvent (d_start ds) (d_end ds) (d_isAllDay ds)
    (bag_get_or_empty "SUMMARY" c) (bag_get_or_empty "LOCATION" c)
    (bag_get_or_empty "URL" c) (bag_get_or_empty "UID" c) "Laget.se".

(** The event of one block, and the events of a list of blocks in order. *)
Definition block_event (props : list string) : M Event :=
  (ds <- normalizeDates (bag_get "DTSTART" (block_bag props))
                        (bag_get "DTEND" (block_bag props)) ;;
   ret (event_of (block_bag props) ds))%worker.

Fixpoint events_of_blocks (blocks : list (list string)) : M (list Event) :=
  match blocks with
  | [] => ret []
  | b :: r =>
      (e <- block_event b ;; es <- events_of_blocks r ;; ret (e :: es))%worker
  end.

Definition is_begin (l : string) : bool := String.eqb l "BEGIN:VEVENT".
Definition is_end (l : string) : bool := String.eqb l "END:VEVENT".

(** A calendar as lines: the lines before the first block, then the
    blocks, each with its property lines and the lines that follow its
    end.  It is well nested when the markers occur nowhere else. *)
Definition block_lines (b : list string * list string) : list string :=
  ("BEGIN:VEVENT" :: fst b ++ "END:VEVENT" :: snd b)%list.

Definition calendar_lines (before : list string)
    (blocks : list (list string * list string)) : list string :=
  (before ++ flat_map block_lines blocks)%list.

Definition well_nested (before : list string)
    (blocks : list (list string * list string)) : bool :=
  forallb (fun l => negb (is_begin l)) before &&
  forallb (fun b => forallb (fun l => negb (is_begin l) && negb (is_end l)) (fst b)
                    && forallb (fun l => negb (is_begin l)) (snd b)) blocks.

(** White space occurs only as single spaces, each followed by a
    character that is not white space or, when [at_end] allows it, by the
    end of the text. *)
Definition next_is_black (at_end : bool) (r : string) : bool :=
  match r with
  | String d _ => negb (is_space d)
  | EmptyString => at_end
  end.

Fixpoint spaced (at_end : bool) (s : string) : bool :=
  match s with
  | EmptyString => true
  | String c r =>
      (if is_space c then Ascii.eqb c " " && next_is_black at_end r else true)
      && spaced at_end r
  end.

Definition starts_with_space (s : string) : bool :=
  match s with
  | String c _ => is_space c
  | EmptyString => false
  end.

(** Text as [stripTags] leaves it: single spaces between the other
    characters and none at either end. *)
Definition tidy (s : string) : bool := negb (starts_with_space s) && spaced false s.


(** Whether [a] occurs in [s], letter case apart. *)
Fixpoint has_ci (a : ascii) (s : string) : bool :=
  match s with
  | EmptyString => false
  | String c r => Ascii.eqb (lower_char c) (lower_char a) || has_ci a r
  end.


(** A name made of word characters (ASCII letters, digits and [_]), as
    the tag and attribute names the program looks for are; and a text of
    ASCII characters. *)
Fixpoint all_word (s : string) : bool :=
  match s with
  | EmptyString => true
  | String c r => is_word c && all_word r
  end.

Definition word_name (s : string) : bool := negb (String.eqb s "") && all_word s.

Fixpoint ascii_text (s : string) : bool :=
  match s with
  | EmptyString => true
  | String c r => (code c <? 128) && ascii_text r
  end.




(* ================================================================== *)
(** * Properties *)

Import JSDate.

(** ** Running the worker's computations *)

Lemma bind_run {A B} (m : M A) (f : A -> M B) w st :
  bind m f w st = match m w st with
                  | (Ok a, st') => f a w st'
                  | (Throw e, st') => (Throw e, st')
                  end.
Proof. reflexivity. Qed.

Lemma fromEdgeCache_run request w st :
  fromEdgeCache request w st
  = (Ok (cache_lookup (req_method request) (href (req_url request)) (cache st)),
     mkState (ticks st) (cache st) (log st ++ [EvCacheMatch request])%list).
Proof. reflexivity. Qed.

Lemma fetch_upstream_run url w st :
  fetch_upstream url w st
  = match upstream w url with
    | FetchRejected e =>
        (Throw e, mkState (ticks st) (cache st) (log st ++ [EvFetch url])%list)
    | Fetched code text =>
        (Ok (code, text), mkState (ticks st) (cache st) (log st ++ [EvFetch url])%list)
    end.
Proof. reflexivity. Qed.

Lemma Date_now_run w st :
  Date_now w st = (Ok (clock (runtime w) (ticks st)),
                   mkState (S (ticks st)) (cache st) (log st)).
Proof. reflexivity. Qed.

Lemma ask_runtime_run w st : ask_runtime w st = (Ok (runtime w), st).
Proof. reflexivity. Qed.

Lemma liftO_run {A} (o : outcome A) w st : liftO o w st = (o, st).
Proof. reflexivity. Qed.

(** ** Calendar arithmetic *)

Lemma div_step (c k y : Z) :
  0 < c -> (y + 1 - (c * k + 1)) / c
           = (y - (c * k + 1)) / c + (if y mod c =? 0 then 1 else 0).
Proof.
  intros Hc.
  replace (y + 1 - (c * k + 1)) with (y + (- k) * c) by ring.
  replace (y - (c * k + 1)) with ((y - 1) + (- k) * c) by ring.
  rewrite !Z.div_add by lia.
  destruct (y mod c =? 0) eqn:E; rewrite ?Z.eqb_eq, ?Z.eqb_neq in E.
  - pose proof (Z.div_mod y c ltac:(lia)). 
    assert (y - 1 = c * (y / c - 1) + (c - 1)) by lia.
    assert ((y - 1) / c = y / c - 1).
    { symmetry. apply (Z.div_unique _ _ _ (c - 1)); lia. }
    lia.
  - pose proof (Z.div_mod y c ltac:(lia)). pose proof (Z.mod_pos_bound y c Hc).
    assert ((y - 1) / c = y / c).
    { symmetry. apply (Z.div_unique _ _ _ (y mod c - 1)); lia. }
    lia.
Qed.

Lemma DayFromYear_succ y : DayFromYear (y + 1) = DayFromYear y + DaysInYear y.
Proof.
  unfold DayFromYear, DaysInYear, isLeapYear.
  pose proof (div_step 4 492 y ltac:(lia)) as H4.
  pose proof (div_step 100 19 y ltac:(lia)) as H100.
  pose proof (div_step 400 4 y ltac:(lia)) as H400.
  change (4 * 492 + 1) with 1969 in H4. change (100 * 19 + 1) with 1901 in H100.
  change (400 * 4 + 1) with 1601 in H400.
  rewrite H4, H100, H400.
  assert (D1 : y mod 100 = 0 -> y mod 4 = 0).
  { intros E. rewrite (Z.div_mod y 100) by lia. rewrite E.
    replace (100 * (y / 100) + 0) with ((25 * (y / 100)) * 4) by ring.
    apply Z.mod_mul; lia. }
  assert (D2 : y mod 400 = 0 -> y mod 100 = 0).
  { intros E. rewrite (Z.div_mod y 400) by lia. rewrite E.
    replace (400 * (y / 400) + 0) with ((4 * (y / 400)) * 100) by ring.
    apply Z.mod_mul; lia. }
  destruct (y mod 4 =? 0) eqn:E4; destruct (y mod 100 =? 0) eqn:E100;
    destruct (y mod 400 =? 0) eqn:E400; cbn [andb orb negb];
    rewrite ?Z.eqb_eq, ?Z.eqb_neq in *; try lia.
Qed.

Lemma DaysInYear_bounds y : 365 <= DaysInYear y <= 366.
Proof. unfold DaysInYear. destruct (isLeapYear y); lia. Qed.

Lemma DayFromYear_mono_step y n : 0 <= n -> DayFromYear y + 365 * n <= DayFromYear (y + n).
Proof.
  intros Hn.
  apply (natlike_ind (fun n => DayFromYear y + 365 * n <= DayFromYear (y + n))); [ | | exact Hn].
  - cbv beta. replace (y + 0) with y by lia. lia.
  - cbv beta. intros x Hx IH. replace (y + Z.succ x) with ((y + x) + 1) by lia.
    rewrite DayFromYear_succ. pose proof (DaysInYear_bounds (y + x)). lia.
Qed.

Lemma DayFromYear_lt y y' : y < y' -> DayFromYear y + 365 <= DayFromYear y'.
Proof.
  intros H. pose proof (DayFromYear_mono_step y (y' - y) ltac:(lia)).
  replace (y + (y' - y)) with y' in * by lia. lia.
Qed.

Lemma YearFromDay_unique y d :
  DayFromYear y <= d < DayFromYear (y + 1) -> YearFromDay d = y.
Proof.
  intros H. unfold YearFromDay.
  set (y0 := 1970 + 400 * d / 146097).
  assert (Hy0 : y - 1 <= y0 <= y + 1).
  { subst y0. unfold DayFromYear in H. (Z.div_mod_to_equations; lia). }
  pose proof (DayFromYear_succ y) as S0. pose proof (DaysInYear_bounds y).
  destruct (Z.eq_dec y0 (y - 1)) as [E|E].
  - rewrite E. replace (y - 1 + 1) with y by lia.
    pose proof (DayFromYear_succ (y - 1)). pose proof (DaysInYear_bounds (y - 1)).
    replace (y - 1 + 1) with y in * by lia.
    destruct (d <? DayFromYear (y - 1)) eqn:A; [apply Z.ltb_lt in A; lia|].
    destruct (DayFromYear y <=? d) eqn:B; [lia | apply Z.leb_gt in B; lia].
  - destruct (Z.eq_dec y0 y) as [E'|E'].
    + rewrite E'.
      destruct (d <? DayFromYear y) eqn:A; [apply Z.ltb_lt in A; lia|].
      destruct (DayFromYear (y + 1) <=? d) eqn:B; [apply Z.leb_le in B; lia | reflexivity].
    + assert (y0 = y + 1) by lia. rewrite H1.
      destruct (d <? DayFromYear (y + 1)) eqn:A; [lia | apply Z.ltb_ge in A; lia].
Qed.

(** ** Dates from fields and back *)

Lemma Day_MakeDate day tod : 0 <= tod < msPerDay -> Day (MakeDate day tod) = day.
Proof.
  intros H. unfold Day, MakeDate. symmetry.
  apply (Z.div_unique _ _ _ tod); unfold msPerDay in *; lia.
Qed.

Lemma TimeWithinDay_MakeDate day tod :
  0 <= tod < msPerDay -> TimeWithinDay (MakeDate day tod) = tod.
Proof.
  intros H. unfold TimeWithinDay, MakeDate. symmetry.
  apply (Z.mod_unique _ _ day); unfold msPerDay in *; lia.
Qed.

Ltac split_month m :=
  let H := fresh in
  assert (H : m = 1 \/ m = 2 \/ m = 3 \/ m = 4 \/ m = 5 \/ m = 6 \/ m = 7 \/ m = 8
              \/ m = 9 \/ m = 10 \/ m = 11 \/ m = 12) by lia;
  destruct H as [->|[->|[->|[->|[->|[->|[->|[->|[->|[->|[->| ->]]]]]]]]]]].

Ltac eval_monthStart :=
  repeat match goal with
  | |- context [monthStart ?l ?m] =>
      let v := eval vm_compute in (monthStart l m) in
      change (monthStart l m) with v
  end.

Lemma MakeDay_in_year y m d :
  1 <= m <= 12 -> 1 <= d <= days_in_month y m ->
  MakeDay y (m - 1) d = DayFromYear y + monthStart (isLeapYear y) (m - 1) + d - 1
  /\ 0 <= monthStart (isLeapYear y) (m - 1) + d - 1 < DaysInYear y.
Proof.
  intros Hm Hd. unfold MakeDay.
  assert (E1 : (m - 1) / 12 = 0) by (apply Z.div_small; lia).
  assert (E2 : (m - 1) mod 12 = m - 1) by (apply Z.mod_small; lia).
  rewrite E1, E2, Z.add_0_r. split; [reflexivity|].
  unfold DaysInYear, days_in_month in *.
  destruct (isLeapYear y); split_month m;
    cbv beta iota delta [days_in_month] in Hd; eval_monthStart; lia.
Qed.

Lemma date_fields_roundtrip y m d tod :
  1 <= m <= 12 -> 1 <= d <= days_in_month y m -> 0 <= tod < msPerDay ->
  let t := MakeDate (MakeDay y (m - 1) d) tod in
  YearFromTime t = y /\ MonthFromTime t = m - 1 /\ DateFromTime t = d.
Proof.
  intros Hm Hd Ht t.
  destruct (MakeDay_in_year y m d Hm Hd) as [E R].
  assert (Dt : Day t = MakeDay y (m - 1) d) by (apply Day_MakeDate; exact Ht).
  assert (Y : YearFromTime t = y).
  { unfold YearFromTime. rewrite Dt, E. apply YearFromDay_unique.
    rewrite DayFromYear_succ. lia. }
  assert (W : DayWithinYear t = monthStart (isLeapYear y) (m - 1) + d - 1).
  { unfold DayWithinYear. rewrite Y, Dt, E. lia. }
  assert (M : MonthFromTime t = m - 1).
  { unfold MonthFromTime, InLeapYear. rewrite W, Y.
    unfold days_in_month in Hd.
    destruct (isLeapYear y); split_month m;
      cbv beta iota delta [days_in_month] in Hd; eval_monthStart;
      try match goal with |- _ = ?k - 1 =>
            let v := eval vm_compute in (k - 1) in change (k - 1) with v end;
      repeat match goal with
        | |- context [?a <? ?b] => destruct (Z.ltb_spec a b); try lia
        end; reflexivity. }
  split; [exact Y|]. split; [exact M|].
  unfold DateFromTime, InLeapYear. rewrite W, M, Y. lia.
Qed.

(** ** Digits and the pieces of the date-time format *)

Lemma is_digit_cases c :
  is_digit c = true ->
  c = "0"%char \/ c = "1"%char \/ c = "2"%char \/ c = "3"%char \/ c = "4"%char \/
  c = "5"%char \/ c = "6"%char \/ c = "7"%char \/ c = "8"%char \/ c = "9"%char.
Proof.
  destruct c as [[] [] [] [] [] [] [] []]; vm_compute; intros H;
    try discriminate H; tauto.
Qed.

Ltac digit_cases H :=
  let E := fresh in
  destruct (is_digit_cases _ H) as [E|[E|[E|[E|[E|[E|[E|[E|[E|E]]]]]]]]]; subst.

Lemma digit_char_val c : is_digit c = true -> digit_char (digit_val c) = c.
Proof. intros H. digit_cases H; reflexivity. Qed.

Lemma digit_val_range c : is_digit c = true -> 0 <= digit_val c <= 9.
Proof. intros H. digit_cases H; vm_compute; split; discriminate. Qed.

Lemma pad_snoc n x d :
  0 <= d <= 9 -> pad (S n) (10 * x + d) = pad n x ++ String (digit_char d) EmptyString.
Proof.
  intros H. cbn [pad].
  assert (E1 : (10 * x + d) / 10 = x) by (symmetry; apply (Z.div_unique _ _ _ d); lia).
  assert (E2 : (10 * x + d) mod 10 = d) by (symmetry; apply (Z.mod_unique _ _ x); lia).
  rewrite E1, E2. reflexivity.
Qed.

Lemma digits_value_2 a b : digits_value (String a (String b "")) = 10 * digit_val a + digit_val b.
Proof. unfold digits_value. cbn [digits_value_from]. lia. Qed.

Lemma digits_value_4 a b c d :
  digits_value (String a (String b (String c (String d ""))))
  = 10 * (10 * (10 * digit_val a + digit_val b) + digit_val c) + digit_val d.
Proof. unfold digits_value. cbn [digits_value_from]. lia. Qed.

Lemma pad_digits_2 a b :
  is_digit a = true -> is_digit b = true ->
  pad 2 (digits_value (String a (String b ""))) = String a (String b "").
Proof.
  intros Ha Hb. rewrite digits_value_2.
  rewrite pad_snoc by (apply digit_val_range; assumption).
  replace (digit_val a) with (10 * 0 + digit_val a) by lia.
  rewrite pad_snoc by (apply digit_val_range; assumption).
  cbn [pad append]. rewrite !digit_char_val by assumption. reflexivity.
Qed.

Lemma pad_digits_4 a b c d :
  is_digit a = true -> is_digit b = true -> is_digit c = true -> is_digit d = true ->
  pad 4 (digits_value (String a (String b (String c (String d "")))))
  = String a (String b (String c (String d ""))).
Proof.
  intros Ha Hb Hc Hd. rewrite digits_value_4.
  rewrite pad_snoc by (apply digit_val_range; assumption).
  rewrite pad_snoc by (apply digit_val_range; assumption).
  rewrite pad_snoc by (apply digit_val_range; assumption).
  replace (digit_val a) with (10 * 0 + digit_val a) by lia.
  rewrite pad_snoc by (apply digit_val_range; assumption).
  cbn [pad append]. rewrite !digit_char_val by assumption. reflexivity.
Qed.

Lemma digits_value_2_range a b :
  is_digit a = true -> is_digit b = true ->
  0 <= digits_value (String a (String b "")) <= 99.
Proof.
  intros Ha Hb. rewrite digits_value_2.
  pose proof (digit_val_range a Ha). pose proof (digit_val_range b Hb). lia.
Qed.

Lemma digits_value_4_range a b c d :
  is_digit a = true -> is_digit b = true -> is_digit c = true -> is_digit d = true ->
  0 <= digits_value (String a (String b (String c (String d "")))) <= 9999.
Proof.
  intros Ha Hb Hc Hd. rewrite digits_value_4.
  pose proof (digit_val_range a Ha). pose proof (digit_val_range b Hb).
  pose proof (digit_val_range c Hc). pose proof (digit_val_range d Hd). lia.
Qed.

Lemma substring_0_0 r : substring 0 0 r = "".
Proof. destruct r; reflexivity. Qed.

Lemma take_digits_2 a b r :
  is_digit a = true -> is_digit b = true ->
  take_digits 2 (String a (String b r)) = Some (digits_value (String a (String b "")), r).
Proof.
  intros Ha Hb. unfold take_digits. cbn [substring]. rewrite substring_0_0.
  cbn [String.length Nat.eqb all_digits slice_from].
  rewrite Ha, Hb. reflexivity.
Qed.

Lemma take_digits_3_zero r :
  take_digits 3 (String "0" (String "0" (String "0" r))) = Some (0, r).
Proof. unfold take_digits. cbn [substring]. rewrite substring_0_0. reflexivity. Qed.

Lemma take_year_4 a b c d r :
  is_digit a = true -> is_digit b = true -> is_digit c = true -> is_digit d = true ->
  take_year (String a (String b (String c (String d r))))
  = Some (digits_value (String a (String b (String c (String d "")))), r).
Proof.
  intros Ha Hb Hc Hd.
  assert (E : take_year (String a (String b (String c (String d r))))
              = take_digits 4 (String a (String b (String c (String d r))))).
  { digit_cases Ha; reflexivity. }
  rewrite E. unfold take_digits. cbn [substring]. rewrite substring_0_0.
  cbn [String.length Nat.eqb all_digits slice_from].
  rewrite Ha, Hb, Hc, Hd. reflexivity.
Qed.

Lemma expect_same c r : expect c (String c r) = Some r.
Proof. unfold expect. rewrite Ascii.eqb_refl. reflexivity. Qed.

(** ** The shapes of the tokens *)

Lemma andb_true_l a b : a && b = true -> a = true. 
Proof. destruct a; simpl; congruence. Qed.

Lemma dateOnly_inv s :
  dateOnly s = true ->
  exists c1 c2 c3 c4 c5 c6 c7 c8,
    s = four c1 c2 c3 c4 ++ two c5 c6 ++ two c7 c8 /\
    is_digit c1 = true /\ is_digit c2 = true /\ is_digit c3 = true /\ is_digit c4 = true /\
    is_digit c5 = true /\ is_digit c6 = true /\ is_digit c7 = true /\ is_digit c8 = true.
Proof.
  unfold dateOnly. intros H.
  do 8 (destruct s as [|? s]; [discriminate H|]).
  destruct s; [|discriminate H].
  cbn [String.length Nat.eqb andb all_digits] in H.
  repeat match type of H with
         | _ && _ = true => apply andb_prop in H; destruct H as [? H]
         end.
  do 8 eexists. split; [reflexivity|]. tauto.
Qed.

Lemma dateTimeLocal_inv s :
  dateTimeLocal s = true ->
  exists c1 c2 c3 c4 c5 c6 c7 c8 h1 h2 m1 m2 s1 s2,
    s = four c1 c2 c3 c4 ++ two c5 c6 ++ two c7 c8 ++ "T" ++ two h1 h2 ++ two m1 m2 ++ two s1 s2 /\
    (is_digit c1 = true /\ is_digit c2 = true /\ is_digit c3 = true /\ is_digit c4 = true /\
     is_digit c5 = true /\ is_digit c6 = true /\ is_digit c7 = true /\ is_digit c8 = true) /\
    (is_digit h1 = true /\ is_digit h2 = true /\ is_digit m1 = true /\ is_digit m2 = true /\
     is_digit s1 = true /\ is_digit s2 = true).
Proof.
  unfold dateTimeLocal. intros H.
  do 15 (destruct s as [|? s]; [discriminate H|]).
  destruct s; [|discriminate H].
  cbn [String.length Nat.eqb andb all_digits substring] in H.
  repeat match type of H with
         | _ && _ = true => apply andb_prop in H; destruct H as [H ?]
         end.
  repeat match goal with
         | H : _ && _ = true |- _ => apply andb_prop in H; destruct H
         end.
  match goal with
  | H : String.eqb (String ?c "") "T" = true |- _ =>
      apply String.eqb_eq in H; injection H as ->
  end.
  do 14 eexists. split; [reflexivity|]. tauto.
Qed.

Lemma iso_fields_stamp c1 c2 c3 c4 c5 c6 c7 c8 h1 h2 m1 m2 s1 s2 tail :
  is_digit c1 = true -> is_digit c2 = true -> is_digit c3 = true -> is_digit c4 = true ->
  is_digit c5 = true -> is_digit c6 = true -> is_digit c7 = true -> is_digit c8 = true ->
  is_digit h1 = true -> is_digit h2 = true -> is_digit m1 = true -> is_digit m2 = true ->
  is_digit s1 = true -> is_digit s2 = true ->
  iso_fields (stamp (four c1 c2 c3 c4) (two c5 c6) (two c7 c8) (two h1 h2) (two m1 m2)
                (two s1 s2) tail)
  = obnd (take_tail tail) (fun '(ms, utc) =>
      Some (mkFields (digits_value (four c1 c2 c3 c4)) (digits_value (two c5 c6))
              (digits_value (two c7 c8)) (digits_value (two h1 h2))
              (digits_value (two m1 m2)) (digits_value (two s1 s2)) ms utc)).
Proof.
  intros. unfold stamp, four, two, iso_fields. cbn [append].
  rewrite take_year_4 by assumption. cbn [obnd]. rewrite expect_same. cbn [obnd].
  rewrite take_digits_2 by assumption. cbn [obnd]. rewrite expect_same. cbn [obnd].
  rewrite take_digits_2 by assumption. cbn [obnd]. rewrite expect_same. cbn [obnd].
  rewrite take_digits_2 by assumption. cbn [obnd]. rewrite expect_same. cbn [obnd].
  rewrite take_digits_2 by assumption. cbn [obnd]. rewrite expect_same. cbn [obnd].
  rewrite take_digits_2 by assumption. cbn [obnd]. reflexivity.
Qed.

(** ** Local time and its cancellation *)

Lemma getTimezoneOffset_eq z t : getTimezoneOffset z t = - tza_utc z t.
Proof.
  unfold getTimezoneOffset, LocalTime, msPerMinute.
  replace (t - (t + tza_utc z t * 60000)) with ((- tza_utc z t) * 60000) by lia.
  apply Z.div_mul. lia.
Qed.

Lemma TimeClip_in_range t : Z.abs t <= maxTime -> TimeClip t = Some t.
Proof. intros H. unfold TimeClip. apply Z.leb_le in H. rewrite H. reflexivity. Qed.

Lemma days_in_month_le y m : days_in_month y m <= 31.
Proof.
  unfold days_in_month.
  destruct m as [|p|p]; try lia.
  destruct (isLeapYear y);
  repeat (destruct p as [p|p|]; try lia).
Qed.

Lemma monthStart_bounds l m : 0 <= m <= 11 -> 0 <= monthStart l m <= 335.
Proof.
  intros H.
  assert (Hc : m = 0 \/ m = 1 \/ m = 2 \/ m = 3 \/ m = 4 \/ m = 5 \/ m = 6 \/ m = 7 \/ m = 8
              \/ m = 9 \/ m = 10 \/ m = 11) by lia.
  destruct l;
    destruct Hc as [->|[->|[->|[->|[->|[->|[->|[->|[->|[->|[->| ->]]]]]]]]]]];
    vm_compute; split; discriminate.
Qed.

(** Readings of four-digit years are far inside the range of time values. *)
Lemma reading_bounds y m d tod :
  0 <= y <= 9999 -> 1 <= m <= 12 -> 1 <= d <= 31 -> 0 <= tod <= msPerDay ->
  Z.abs (MakeDate (MakeDay y (m - 1) d) tod) <= 300000000000000.
Proof.
  intros Hy Hm Hd Ht. unfold MakeDate, MakeDay.
  assert (E1 : (m - 1) / 12 = 0) by (apply Z.div_small; lia).
  assert (E2 : (m - 1) mod 12 = m - 1) by (apply Z.mod_small; lia).
  rewrite E1, E2, Z.add_0_r.
  pose proof (monthStart_bounds (isLeapYear y) (m - 1) ltac:(lia)).
  pose proof (DayFromYear_mono_step 0 y ltac:(lia)) as L.
  pose proof (DayFromYear_mono_step y (9999 - y) ltac:(lia)) as U.
  replace (0 + y) with y in L by lia. replace (y + (9999 - y)) with 9999 in U by lia.
  change (DayFromYear 0) with (-719528) in L.
  change (DayFromYear 9999) with 2932532 in U.
  unfold msPerDay in *. lia.
Qed.

Lemma shift_cancels rt tl :
  zone_steady_at (zone rt) tl -> Z.abs tl <= 300000000000000 ->
  shift_by_timezone_offset rt (TimeClip (UTC (zone rt) tl)) = Some tl.
Proof.
  intros [Hs Hb] Ht.
  assert (R : Z.abs (UTC (zone rt) tl) <= maxTime).
  { unfold UTC, msPerMinute, maxTime. lia. }
  rewrite (TimeClip_in_range _ R). unfold shift_by_timezone_offset.
  rewrite getTimezoneOffset_eq, Hs. unfold UTC, msPerMinute.
  replace (tl - tza_local (zone rt) tl * 60000 - - tza_local (zone rt) tl * 60000)
    with tl by lia.
  apply TimeClip_in_range. unfold maxTime. lia.
Qed.

Lemma time_fields_zero day :
  let t := MakeDate day 0 in
  HourFromTime t = 0 /\ MinFromTime t = 0 /\ SecFromTime t = 0 /\ msFromTime t = 0.
Proof.
  unfold MakeDate, HourFromTime, MinFromTime, SecFromTime, msFromTime,
    msPerDay, msPerHour, msPerMinute, msPerSecond. cbv zeta. rewrite Z.add_0_r.
  repeat split.
  - replace (day * 86400000) with ((day * 24) * 3600000) by lia.
    rewrite Z.div_mul by lia. apply Z.mod_mul. lia.
  - replace (day * 86400000) with ((day * 1440) * 60000) by lia.
    rewrite Z.div_mul by lia. replace (day * 1440) with ((day * 24) * 60) by lia.
    apply Z.mod_mul. lia.
  - replace (day * 86400000) with ((day * 86400) * 1000) by lia.
    rewrite Z.div_mul by lia. replace (day * 86400) with ((day * 1440) * 60) by lia.
    apply Z.mod_mul. lia.
  - replace (day * 86400000) with ((day * 86400) * 1000) by lia.
    apply Z.mod_mul. lia.
Qed.

Lemma token_fields_dateOnly c1 c2 c3 c4 c5 c6 c7 c8 :
  let s := four c1 c2 c3 c4 ++ two c5 c6 ++ two c7 c8 in
  token_year s = digits_value (four c1 c2 c3 c4) /\
  token_month s = digits_value (two c5 c6) /\
  token_day s = digits_value (two c7 c8).
Proof. cbv zeta. repeat split. Qed.

(** The text of midnight UTC on a real calendar day is the day's own
    digits. *)
Lemma iso_string_midnight s :
  dateOnly s = true -> real_calendar_date s ->
  iso_string (utc_midnight s) = midnight_text s.
Proof.
  intros Hs [Hm Hd].
  destruct (dateOnly_inv s Hs)
    as (c1&c2&c3&c4&c5&c6&c7&c8&->&D1&D2&D3&D4&D5&D6&D7&D8).
  destruct (token_fields_dateOnly c1 c2 c3 c4 c5 c6 c7 c8) as (Ey&Em&Ed).
  cbv zeta in Ey, Em, Ed.
  unfold utc_midnight, midnight_text. rewrite Ey, Em, Ed in *.
  set (y := digits_value (four c1 c2 c3 c4)) in *.
  set (m := digits_value (two c5 c6)) in *.
  set (d := digits_value (two c7 c8)) in *.
  destruct (date_fields_roundtrip y m d 0 Hm Hd ltac:(unfold msPerDay; lia)) as (Y&M&D).
  cbv zeta in Y, M, D.
  destruct (time_fields_zero (MakeDay y (m - 1) d)) as (Hh&Hmi&Hse&Hms).
  cbv zeta in Hh, Hmi, Hse, Hms.
  unfold iso_string. rewrite Y, M, D, Hh, Hmi, Hse, Hms.
  replace (m - 1 + 1) with m by lia.
  assert (Ry : 0 <= y <= 9999) by (apply digits_value_4_range; assumption).
  unfold year_string.
  replace ((0 <=? y) && (y <=? 9999)) with true
    by (symmetry; apply andb_true_intro; split; apply Z.leb_le; lia).
  subst y m d. unfold four, two.
  rewrite pad_digits_4, !pad_digits_2 by assumption.
  reflexivity.
Qed.

(** ** All-day events *)

Lemma legal_fields_true y m d h mi s utc :
  1 <= m <= 12 -> 1 <= d <= 31 -> h <= 23 -> mi <= 59 -> s <= 59 ->
  legal_fields (mkFields y m d h mi s 0 utc) = true.
Proof.
  intros. unfold legal_fields. cbn [f_month f_day f_hour f_min f_sec f_ms].
  repeat match goal with
         | |- _ && _ = true => apply andb_true_intro; split
         | |- _ || _ = true => apply orb_true_intro; left
         | |- (_ <=? _) = true => apply Z.leb_le; lia
         end.
Qed.

Lemma MakeTime_zero : MakeTime 0 0 0 0 = 0.
Proof. reflexivity. Qed.

Lemma digits_value_00 : digits_value (two "0" "0") = 0.
Proof. reflexivity. Qed.

Lemma take_tail_empty : take_tail "" = Some (0, false).
Proof. reflexivity. Qed.

Lemma take_tail_ms_utc : take_tail ".000Z" = Some (0, true).
Proof. vm_compute. reflexivity. Qed.

Lemma take_tail_utc : take_tail "Z" = Some (0, true).
Proof. vm_compute. reflexivity. Qed.

Lemma truthy_dateOnly s : dateOnly s = true -> truthy (Some s) = true.
Proof. intros H. destruct s; [discriminate H | reflexivity]. Qed.

Lemma parse_local_midnight rt s :
  dateOnly s = true -> real_calendar_date s ->
  Date_parse rt (slice 0 4 s ++ "-" ++ slice 4 6 s ++ "-" ++ slice 6 8 s ++ "T"
                   ++ slice 0 2 "000000" ++ ":" ++ slice 2 4 "000000" ++ ":"
                   ++ slice 4 6 "000000")
  = TimeClip (UTC (zone rt) (utc_midnight s)).
Proof.
  intros Hs [Hm Hd].
  destruct (dateOnly_inv s Hs)
    as (c1&c2&c3&c4&c5&c6&c7&c8&->&D1&D2&D3&D4&D5&D6&D7&D8).
  unfold utc_midnight, real_calendar_date in *.
  destruct (token_fields_dateOnly c1 c2 c3 c4 c5 c6 c7 c8) as (Ey&Em&Ed).
  cbv zeta in Ey, Em, Ed. rewrite Ey, Em, Ed in *.
  match goal with
  | |- Date_parse rt ?x = _ =>
      replace x with
        (stamp (four c1 c2 c3 c4) (two c5 c6) (two c7 c8) (two "0" "0") (two "0" "0")
           (two "0" "0") "") by reflexivity
  end.
  unfold Date_parse, parse. rewrite iso_fields_stamp by (assumption || reflexivity).
  rewrite take_tail_empty.
  cbn [obnd]. unfold fields_time. rewrite !digits_value_00.
  pose proof (days_in_month_le (digits_value (four c1 c2 c3 c4)) (digits_value (two c5 c6))).
  rewrite legal_fields_true by lia.
  cbn [f_year f_month f_day f_hour f_min f_sec f_ms f_utc].
  rewrite MakeTime_zero. reflexivity.
Qed.

Lemma utc_midnight_bounds s :
  dateOnly s = true -> real_calendar_date s -> Z.abs (utc_midnight s) <= 300000000000000.
Proof.
  intros Hs [Hm Hd].
  destruct (dateOnly_inv s Hs)
    as (c1&c2&c3&c4&c5&c6&c7&c8&->&D1&D2&D3&D4&D5&D6&D7&D8).
  unfold utc_midnight, real_calendar_date in *.
  destruct (token_fields_dateOnly c1 c2 c3 c4 c5 c6 c7 c8) as (Ey&Em&Ed).
  cbv zeta in Ey, Em, Ed. rewrite Ey, Em, Ed in *.
  pose proof (days_in_month_le (digits_value (four c1 c2 c3 c4)) (digits_value (two c5 c6))).
  apply reading_bounds; try lia.
  - apply digits_value_4_range; assumption.
  - unfold msPerDay; lia.
Qed.

Lemma toUTCStringFromLocalParts_midnight rt s :
  dateOnly s = true -> real_calendar_date s ->
  zone_steady_at (zone rt) (utc_midnight s) ->
  toUTCStringFromLocalParts rt s "000000" = Ok (midnight_text s).
Proof.
  intros Hs Hr Hz. unfold toUTCStringFromLocalParts. cbv zeta.
  rewrite parse_local_midnight by assumption.
  rewrite shift_cancels by (try assumption; apply utc_midnight_bounds; assumption).
  cbn [toISOString]. rewrite iso_string_midnight by assumption. reflexivity.
Qed.

Lemma parse_midnight_text0 rt s :
  dateOnly s = true -> real_calendar_date s ->
  Date_parse rt (midnight_text s) = TimeClip (utc_midnight s).
Proof.
  intros Hs Hr. destruct Hr as [Hm Hd].
  destruct (dateOnly_inv s Hs)
    as (c1&c2&c3&c4&c5&c6&c7&c8&->&D1&D2&D3&D4&D5&D6&D7&D8).
  unfold utc_midnight, real_calendar_date in *.
  destruct (token_fields_dateOnly c1 c2 c3 c4 c5 c6 c7 c8) as (Ey&Em&Ed).
  cbv zeta in Ey, Em, Ed. rewrite Ey, Em, Ed in *.
  match goal with
  | |- Date_parse rt ?x = _ =>
      replace x with
        (stamp (four c1 c2 c3 c4) (two c5 c6) (two c7 c8) (two "0" "0") (two "0" "0")
           (two "0" "0") ".000Z") by reflexivity
  end.
  unfold Date_parse, parse. rewrite iso_fields_stamp by (assumption || reflexivity).
  rewrite take_tail_ms_utc.
  cbn [obnd]. unfold fields_time. rewrite !digits_value_00.
  pose proof (days_in_month_le (digits_value (four c1 c2 c3 c4)) (digits_value (two c5 c6))).
  rewrite legal_fields_true by lia.
  cbn [f_year f_month f_day f_hour f_min f_sec f_ms f_utc].
  rewrite MakeTime_zero. reflexivity.
Qed.

Lemma parse_midnight_text rt s :
  dateOnly s = true -> real_calendar_date s ->
  Date_parse rt (midnight_text s) = Some (utc_midnight s).
Proof.
  intros Hs Hr. rewrite parse_midnight_text0 by assumption.
  pose proof (utc_midnight_bounds s Hs Hr) as B.
  apply TimeClip_in_range. unfold maxTime. lia.
Qed.


(** The end of a block hands the block's DTSTART and DTEND to the
    normaliser and pushes the event built from its answer. *)
Lemma parseICS_step_end events c w st :
  parseICS_step "END:VEVENT" (events, Some c) w st
  = match normalizeDates (bag_get "DTSTART" c) (bag_get "DTEND" c) w st with
    | (Ok ds, st') =>
        (Ok ((events ++ [mkEvent (d_start ds) (d_end ds) (d_isAllDay ds)
                           (bag_get_or_empty "SUMMARY" c) (bag_get_or_empty "LOCATION" c)
                           (bag_get_or_empty "URL" c) (bag_get_or_empty "UID" c)
                           "Laget.se"])%list, None), st')
    | (Throw e, st') => (Throw e, st')
    end.
Proof.
  unfold parseICS_step.
  replace ("END:VEVENT" =? "BEGIN:VEVENT")%string with false by reflexivity.
  replace ("END:VEVENT" =? "END:VEVENT")%string with true by reflexivity.
  rewrite bind_run.
  destruct (normalizeDates _ _ w st) as [[ds|e] st']; reflexivity.
Qed.

(** C1 (as amended).  For a DTSTART of the bare-date form that names a
    real calendar day, in a runtime whose zone is steady at that day's
    local midnight: the text of that day's midnight UTC is the token's own
    digits; when DTEND is absent or not a bare date the normaliser returns
    that text as start, start plus 24 hours as end, and isAllDay = true;
    whatever DTEND is, a returned record has isAllDay = true and that
    start; and the event pushed at the end of a block with this DTSTART
    has these values. *)
Theorem bare_date_start_is_utc_midnight w st dtstart dtend :
  dateOnly dtstart = true ->
  real_calendar_date dtstart ->
  zone_steady_at (zone (runtime w)) (utc_midnight dtstart) ->
  iso_string (utc_midnight dtstart) = midnight_text dtstart /\
  (truthy dtend && dateOnly (str_of dtend) = false ->
   normalizeDates (Some dtstart) dtend w st
   = (Ok (mkDates (midnight_text dtstart)
            (iso_string (utc_midnight dtstart + 24 * 3600 * 1000)) true), st)) /\
  (forall r st', normalizeDates (Some dtstart) dtend w st = (Ok r, st') ->
                 d_isAllDay r = true /\ d_start r = midnight_text dtstart) /\
  (forall events c acc st',
      bag_get "DTSTART" c = Some dtstart -> bag_get "DTEND" c = dtend ->
      parseICS_step "END:VEVENT" (events, Some c) w st = (Ok acc, st') ->
      exists ev,
        acc = ((events ++ [ev])%list, None) /\
        ev_isAllDay ev = true /\ ev_start ev = midnight_text dtstart /\
        (truthy dtend && dateOnly (str_of dtend) = false ->
         ev_end ev = iso_string (utc_midnight dtstart + 24 * 3600 * 1000))).
Proof.
  intros Hs Hr Hz. split; [apply iso_string_midnight; assumption|].
  pose proof (toUTCStringFromLocalParts_midnight (runtime w) dtstart Hs Hr Hz) as E.
  pose proof (truthy_dateOnly dtstart Hs) as T.
  assert (B : truthy dtend && dateOnly (str_of dtend) = false ->
              normalizeDates (Some dtstart) dtend w st
              = (Ok (mkDates (midnight_text dtstart)
                       (iso_string (utc_midnight dtstart + 24 * 3600 * 1000)) true), st)).
  { intros Hend. unfold normalizeDates, bind, ask_runtime, liftO, ret.
    cbn [str_of]. rewrite T, Hs. cbn [andb]. rewrite E, Hend.
    rewrite parse_midnight_text by assumption. cbn [plus_one_day].
    pose proof (utc_midnight_bounds dtstart Hs Hr).
    rewrite TimeClip_in_range by (unfold maxTime; lia). reflexivity. }
  assert (C : forall r st', normalizeDates (Some dtstart) dtend w st = (Ok r, st') ->
                            d_isAllDay r = true /\ d_start r = midnight_text dtstart).
  { intros r st'. destruct (truthy dtend && dateOnly (str_of dtend)) eqn:Hend.
    - unfold normalizeDates, bind, ask_runtime, liftO, ret.
      cbn [str_of]. rewrite T, Hs. cbn [andb]. rewrite E, Hend.
      destruct (toUTCStringFromLocalParts (runtime w) (str_of dtend) "000000");
        intros Q; inversion Q; subst; split; reflexivity.
    - rewrite (B eq_refl). intros Q; inversion Q; subst; split; reflexivity. }
  split; [exact B|]. split; [exact C|].
  intros events c acc st' Hstart Hend. rewrite parseICS_step_end, Hstart, Hend.
  destruct (normalizeDates (Some dtstart) dtend w st) as [[ds|e] st1] eqn:N;
    [|discriminate].
  intros Q. injection Q as <- <-. eexists. split; [reflexivity|].
  cbn [ev_isAllDay ev_start ev_end].
  destruct (C ds st1 eq_refl) as [A1 A2]. split; [exact A1|]. split; [exact A2|].
  intros Hb. pose proof (B Hb) as B'. injection B' as -> _. reflexivity.
Qed.

Lemma new_year_2025_is_a_real_date : real_calendar_date "20250101".
Proof. unfold real_calendar_date. vm_compute. repeat split; discriminate. Qed.

Lemma fixedZone_steady off tl : Z.abs off <= 1440 -> zone_steady_at (fixedZone off) tl.
Proof. intros H. split; [reflexivity | exact H]. Qed.

(** C1, at the specification's example: DTSTART=20250101 and no DTEND, in
    a zone one hour ahead of UTC, for the normaliser and for a calendar
    of that one event. *)
Lemma bare_date_new_year_2025 :
  normalizeDates (Some "20250101") None
    (world_serving (runtime_in (fixedZone 60)) "") initial_state
  = (Ok (mkDates "2025-01-01T00:00:00.000Z" "2025-01-02T00:00:00.000Z" true),
     initial_state) /\
  parseICS (vevent ["DTSTART;VALUE=DATE:20250101"; "SUMMARY:New year"])
    (world_serving (runtime_in (fixedZone 60)) "") initial_state
  = (Ok [mkEvent "2025-01-01T00:00:00.000Z" "2025-01-02T00:00:00.000Z" true
           "New year" "" "" "" "Laget.se"], initial_state).
Proof.
  split; [|vm_compute; reflexivity].
  refine (proj1 (proj2 (bare_date_start_is_utc_midnight
            (world_serving (runtime_in (fixedZone 60)) "") initial_state
            "20250101" None eq_refl new_year_2025_is_a_real_date _)) eq_refl).
  apply fixedZone_steady. vm_compute. discriminate.
Defined.

(** C1 as stated fails where the zone's clocks skip the local midnight:
    for 9 March 2025 with clocks as in Havana the start is 01:00 UTC. *)
Lemma bare_date_start_off_midnight_where_clocks_skip_it :
  dateOnly "20250309" = true /\
  normalizeDates (Some "20250309") None
    (world_serving (runtime_in havana_2025) "") initial_state
  = (Ok (mkDates "2025-03-09T01:00:00.000Z" "2025-03-10T01:00:00.000Z" true),
     initial_state) /\
  "2025-03-09T01:00:00.000Z" <> midnight_text "20250309".
Proof.
  split; [reflexivity|]. split; [vm_compute; reflexivity|].
  vm_compute. discriminate.
Qed.

(** ** Times of day *)

Lemma time_fields_roundtrip day h mi s :
  0 <= h <= 23 -> 0 <= mi <= 59 -> 0 <= s <= 59 ->
  let t := MakeDate day (MakeTime h mi s 0) in
  HourFromTime t = h /\ MinFromTime t = mi /\ SecFromTime t = s /\ msFromTime t = 0.
Proof.
  intros Hh Hmi Hs.
  unfold MakeDate, MakeTime, HourFromTime, MinFromTime, SecFromTime, msFromTime,
    msPerDay, msPerHour, msPerMinute, msPerSecond. cbv zeta.
  repeat split.
  - assert (E : (day * 86400000 + (h * 3600000 + mi * 60000 + s * 1000 + 0)) / 3600000
                = day * 24 + h)
      by (symmetry; apply (Z.div_unique _ _ _ (mi * 60000 + s * 1000)); lia).
    rewrite E. symmetry. apply (Z.mod_unique _ _ day); lia.
  - assert (E : (day * 86400000 + (h * 3600000 + mi * 60000 + s * 1000 + 0)) / 60000
                = day * 1440 + h * 60 + mi)
      by (symmetry; apply (Z.div_unique _ _ _ (s * 1000)); lia).
    rewrite E. symmetry. apply (Z.mod_unique _ _ (day * 24 + h)); lia.
  - assert (E : (day * 86400000 + (h * 3600000 + mi * 60000 + s * 1000 + 0)) / 1000
                = day * 86400 + h * 3600 + mi * 60 + s)
      by (symmetry; apply (Z.div_unique _ _ _ 0); lia).
    rewrite E. symmetry. apply (Z.mod_unique _ _ (day * 1440 + h * 60 + mi)); lia.
  - symmetry. apply (Z.mod_unique _ _ (day * 86400 + h * 3600 + mi * 60 + s)); lia.
Qed.

Lemma MakeTime_bounds h mi s :
  0 <= h <= 23 -> 0 <= mi <= 59 -> 0 <= s <= 59 -> 0 <= MakeTime h mi s 0 < msPerDay.
Proof.
  intros. unfold MakeTime, msPerDay, msPerHour, msPerMinute, msPerSecond. lia.
Qed.

(** The text of a token's date and time with the fields read as UTC. *)
Lemma token_fields_dateTime c1 c2 c3 c4 c5 c6 c7 c8 h1 h2 m1 m2 s1 s2 :
  let s := four c1 c2 c3 c4 ++ two c5 c6 ++ two c7 c8 ++ "T" ++ two h1 h2 ++ two m1 m2
             ++ two s1 s2 in
  (token_year s = digits_value (four c1 c2 c3 c4) /\
   token_month s = digits_value (two c5 c6) /\
   token_day s = digits_value (two c7 c8)) /\
  (token_hour s = digits_value (two h1 h2) /\
   token_minute s = digits_value (two m1 m2) /\
   token_second s = digits_value (two s1 s2)).
Proof.
  cbv zeta. unfold token_year, token_month, token_day, token_hour, token_minute,
    token_second, slice, four, two. cbn [append Nat.sub substring].
  repeat split.
Qed.

Lemma iso_string_token_reading y m d h mi s :
  0 <= y <= 9999 -> 1 <= m <= 12 -> 1 <= d <= days_in_month y m ->
  0 <= h <= 23 -> 0 <= mi <= 59 -> 0 <= s <= 59 ->
  iso_string (MakeDate (MakeDay y (m - 1) d) (MakeTime h mi s 0))
  = stamp (pad 4 y) (pad 2 m) (pad 2 d) (pad 2 h) (pad 2 mi) (pad 2 s) ".000Z".
Proof.
  intros Hy Hm Hd Hh Hmi Hs.
  destruct (date_fields_roundtrip y m d (MakeTime h mi s 0) Hm Hd
              (MakeTime_bounds h mi s Hh Hmi Hs)) as (Y&M&D).
  destruct (time_fields_roundtrip (MakeDay y (m - 1) d) h mi s Hh Hmi Hs) as (A&B&C&E).
  cbv zeta in *. unfold iso_string. rewrite Y, M, D, A, B, C, E.
  replace (m - 1 + 1) with m by lia.
  unfold year_string.
  replace ((0 <=? y) && (y <=? 9999)) with true
    by (symmetry; apply andb_true_intro; split; apply Z.leb_le; lia).
  unfold stamp. reflexivity.
Qed.

(** ** Floating and UTC date-times *)

Lemma dateTimeZ_inv s :
  dateTimeZ s = true ->
  exists l, s = l ++ "Z" /\ dateTimeLocal l = true.
Proof.
  unfold dateTimeZ. intros H.
  do 16 (destruct s as [|? s]; [discriminate H|]).
  destruct s; [|discriminate H].
  repeat match type of H with
         | _ && _ = true => apply andb_prop in H; destruct H as [H ?]
         end.
  match goal with
  | H : String.eqb (substring 15 1 _) "Z" = true |- _ =>
      cbn [substring] in H; apply String.eqb_eq in H; injection H as ->
  end.
  eexists (String _ (String _ (String _ (String _ (String _ (String _ (String _ (String _
            (String _ (String _ (String _ (String _ (String _ (String _ (String _ ""))))))))))))))).
  split; [reflexivity|].
  unfold dateTimeLocal.
  cbn [String.length Nat.eqb andb substring] in *.
  repeat match goal with
         | H : ?x = true |- context [?x] => rewrite H
         end.
  reflexivity.
Qed.

Lemma token_legal s :
  dateTimeLocal s = true -> real_calendar_date s -> real_time_of_day s ->
  forall utc,
    legal_fields (mkFields (token_year s) (token_month s) (token_day s) (token_hour s)
                    (token_minute s) (token_second s) 0 utc) = true.
Proof.
  intros Hs [Hm Hd] (Hh&Hmi&Hse) utc.
  pose proof (days_in_month_le (token_year s) (token_month s)).
  apply legal_fields_true; lia.
Qed.

Lemma iso_fields_token s tail :
  dateTimeLocal s = true ->
  iso_fields (token_stamp s tail)
  = obnd (take_tail tail) (fun '(ms, utc) =>
      Some (mkFields (token_year s) (token_month s) (token_day s) (token_hour s)
              (token_minute s) (token_second s) ms utc)).
Proof.
  intros Hs.
  destruct (dateTimeLocal_inv s Hs)
    as (c1&c2&c3&c4&c5&c6&c7&c8&h1&h2&m1&m2&s1&s2&->&
        (D1&D2&D3&D4&D5&D6&D7&D8)&(T1&T2&T3&T4&T5&T6)).
  destruct (token_fields_dateTime c1 c2 c3 c4 c5 c6 c7 c8 h1 h2 m1 m2 s1 s2)
    as ((Ey&Em&Ed)&(Eh&Emi&Es)).
  cbv zeta in Ey, Em, Ed, Eh, Emi, Es. rewrite Ey, Em, Ed, Eh, Emi, Es.
  rewrite <- iso_fields_stamp by assumption. reflexivity.
Qed.

Lemma token_bounds s :
  dateTimeLocal s = true ->
  0 <= token_year s <= 9999 /\ 0 <= token_hour s /\ 0 <= token_minute s /\ 0 <= token_second s.
Proof.
  intros Hs.
  destruct (dateTimeLocal_inv s Hs)
    as (c1&c2&c3&c4&c5&c6&c7&c8&h1&h2&m1&m2&s1&s2&->&
        (D1&D2&D3&D4&D5&D6&D7&D8)&(T1&T2&T3&T4&T5&T6)).
  destruct (token_fields_dateTime c1 c2 c3 c4 c5 c6 c7 c8 h1 h2 m1 m2 s1 s2)
    as ((Ey&Em&Ed)&(Eh&Emi&Es)).
  cbv zeta in Ey, Em, Ed, Eh, Emi, Es. rewrite Ey, Eh, Emi, Es.
  pose proof (digits_value_4_range c1 c2 c3 c4 D1 D2 D3 D4).
  pose proof (digits_value_2_range h1 h2 T1 T2).
  pose proof (digits_value_2_range m1 m2 T3 T4).
  pose proof (digits_value_2_range s1 s2 T5 T6).
  unfold four, two in *. lia.
Qed.

Lemma token_text s :
  dateTimeLocal s = true ->
  stamp (pad 4 (token_year s)) (pad 2 (token_month s)) (pad 2 (token_day s))
    (pad 2 (token_hour s)) (pad 2 (token_minute s)) (pad 2 (token_second s)) ".000Z"
  = token_stamp s ".000Z".
Proof.
  intros Hs.
  destruct (dateTimeLocal_inv s Hs)
    as (c1&c2&c3&c4&c5&c6&c7&c8&h1&h2&m1&m2&s1&s2&->&
        (D1&D2&D3&D4&D5&D6&D7&D8)&(T1&T2&T3&T4&T5&T6)).
  destruct (token_fields_dateTime c1 c2 c3 c4 c5 c6 c7 c8 h1 h2 m1 m2 s1 s2)
    as ((Ey&Em&Ed)&(Eh&Emi&Es)).
  cbv zeta in Ey, Em, Ed, Eh, Emi, Es. rewrite Ey, Em, Ed, Eh, Emi, Es.
  unfold four, two. rewrite pad_digits_4, !pad_digits_2 by assumption. reflexivity.
Qed.

Lemma token_reading_bounds s :
  dateTimeLocal s = true -> real_calendar_date s -> real_time_of_day s ->
  Z.abs (token_reading s) <= 300000000000000.
Proof.
  intros Hs [Hm Hd] (Hh&Hmi&Hse).
  destruct (token_bounds s Hs) as (Hy&H0&H1&H2).
  pose proof (days_in_month_le (token_year s) (token_month s)).
  pose proof (MakeTime_bounds (token_hour s) (token_minute s) (token_second s)
                ltac:(lia) ltac:(lia) ltac:(lia)).
  apply reading_bounds; lia.
Qed.

Lemma iso_string_token s :
  dateTimeLocal s = true -> real_calendar_date s -> real_time_of_day s ->
  iso_string (token_reading s) = token_stamp s ".000Z".
Proof.
  intros Hs [Hm Hd] (Hh&Hmi&Hse).
  destruct (token_bounds s Hs) as (Hy&H0&H1&H2).
  unfold token_reading. rewrite iso_string_token_reading by lia.
  apply token_text. exact Hs.
Qed.

Lemma toUTCStringFromLocalDateTime_reading rt s :
  dateTimeLocal s = true -> real_calendar_date s -> real_time_of_day s ->
  toUTCStringFromLocalDateTime rt s
  = toISOString (shift_by_timezone_offset rt (TimeClip (UTC (zone rt) (token_reading s)))).
Proof.
  intros Hs Hd Ht. unfold toUTCStringFromLocalDateTime. cbv zeta.
  replace (slice 0 4 s ++ "-" ++ slice 4 6 s ++ "-" ++ slice 6 8 s ++ "T" ++ slice 9 11 s
            ++ ":" ++ slice 11 13 s ++ ":" ++ slice 13 15 s) with (token_stamp s "").
  2:{ unfold token_stamp, stamp.
      destruct (dateTimeLocal_inv s Hs)
        as (c1&c2&c3&c4&c5&c6&c7&c8&h1&h2&m1&m2&s1&s2&->&_). reflexivity. }
  unfold Date_parse, parse.
  rewrite iso_fields_token by assumption. rewrite take_tail_empty. cbn [obnd].
  unfold fields_time. rewrite token_legal by assumption.
  cbn [f_year f_month f_day f_hour f_min f_sec f_ms f_utc]. reflexivity.
Qed.

(** X7.  Where the zone is steady at a floating token's reading, the
    offset added on parsing is taken off again and the start is the
    token's own fields read as UTC: runs under any two such zones agree,
    whatever their offsets. *)
Lemma toUTCStringFromLocalDateTime_steady rt s :
  dateTimeLocal s = true -> real_calendar_date s -> real_time_of_day s ->
  zone_steady_at (zone rt) (token_reading s) ->
  toUTCStringFromLocalDateTime rt s = Ok (token_stamp s ".000Z").
Proof.
  intros Hs Hd Ht Hz.
  rewrite toUTCStringFromLocalDateTime_reading by assumption.
  rewrite shift_cancels by (try assumption; apply token_reading_bounds; assumption).
  cbn [toISOString]. rewrite iso_string_token by assumption. reflexivity.
Qed.

(** X6.  A UTC token that names a real date and time gives as start its
    own fields, written as an ISO instant. *)
Lemma isoFromICSUTC_fields rt s :
  dateTimeLocal s = true -> real_calendar_date s -> real_time_of_day s ->
  isoFromICSUTC rt (s ++ "Z") = Ok (token_stamp s ".000Z").
Proof.
  intros Hs Hd Ht. unfold isoFromICSUTC. cbv zeta.
  replace (slice 0 4 (s ++ "Z") ++ "-" ++ slice 4 6 (s ++ "Z") ++ "-" ++ slice 6 8 (s ++ "Z")
            ++ "T" ++ slice 9 11 (s ++ "Z") ++ ":" ++ slice 11 13 (s ++ "Z") ++ ":"
            ++ slice 13 15 (s ++ "Z") ++ "Z") with (token_stamp s "Z").
  2:{ unfold token_stamp, stamp.
      destruct (dateTimeLocal_inv s Hs)
        as (c1&c2&c3&c4&c5&c6&c7&c8&h1&h2&m1&m2&s1&s2&->&_). reflexivity. }
  unfold Date_parse, parse.
  rewrite iso_fields_token by assumption. rewrite take_tail_utc. cbn [obnd].
  unfold fields_time. rewrite token_legal by assumption.
  cbn [f_year f_month f_day f_hour f_min f_sec f_ms f_utc].
  fold (token_reading s).
  pose proof (token_reading_bounds s Hs Hd Ht).
  rewrite TimeClip_in_range by (unfold maxTime; lia).
  cbn [toISOString]. rewrite iso_string_token by assumption. reflexivity.
Qed.

(** ** Claims on the normaliser *)

(** C7.  When DTSTART is absent or matches none of the three encodings,
    the normaliser returns, without throwing, start and end both equal to
    the text of the clock reading taken at that moment, and
    isAllDay = false. *)
Theorem unrecognised_start_falls_back_to_now w st dtstart dtend :
  (forall s, dtstart = Some s ->
             dateOnly s = false /\ dateTimeZ s = false /\ dateTimeLocal s = false) ->
  clock_in_range w st ->
  normalizeDates dtstart dtend w st
  = (Ok (mkDates (iso_string (clock (runtime w) (ticks st)))
           (iso_string (clock (runtime w) (ticks st))) false),
     mkState (S (ticks st)) (cache st) (log st)).
Proof.
  intros Hshape Hclock.
  unfold normalizeDates, bind, ask_runtime, liftO, ret, Date_now.
  assert (E1 : truthy dtstart && dateOnly (str_of dtstart) = false).
  { destruct dtstart as [s|]; [|reflexivity].
    destruct (Hshape s eq_refl) as (A&_&_). cbn [str_of]. rewrite A. apply andb_false_r. }
  assert (E2 : truthy dtstart && dateTimeZ (str_of dtstart) = false).
  { destruct dtstart as [s|]; [|reflexivity].
    destruct (Hshape s eq_refl) as (_&A&_). cbn [str_of]. rewrite A. apply andb_false_r. }
  assert (E3 : truthy dtstart && dateTimeLocal (str_of dtstart) = false).
  { destruct dtstart as [s|]; [|reflexivity].
    destruct (Hshape s eq_refl) as (_&_&A). cbn [str_of]. rewrite A. apply andb_false_r. }
  rewrite E1, E2, E3.
  rewrite TimeClip_in_range by exact Hclock. reflexivity.
Qed.

(** C7, for a dashed date, which is none of the three encodings. *)
Lemma unrecognised_start_example :
  normalizeDates (Some "2025-01-01") (Some "20250102")
    (world_serving (runtime_in (fixedZone 0)) "") initial_state
  = (Ok (mkDates "2025-01-01T00:00:00.000Z" "2025-01-01T00:00:00.000Z" false),
     mkState 1 [] []).
Proof.
  refine (unrecognised_start_falls_back_to_now
            (world_serving (runtime_in (fixedZone 0)) "") initial_state
            (Some "2025-01-01") (Some "20250102") _ _).
  - intros s E. injection E as <-. repeat split; reflexivity.
  - unfold clock_in_range. vm_compute. discriminate.
Defined.

Lemma floating_reading_steady rt s :
  dateTimeLocal s = true -> real_calendar_date s -> real_time_of_day s ->
  zone_steady_at (zone rt) (token_reading s) ->
  toUTCStringFromLocalDateTime rt s = Ok (iso_string (token_reading s)).
Proof.
  intros Hs Hd Ht Hz.
  rewrite toUTCStringFromLocalDateTime_reading by assumption.
  rewrite shift_cancels by (try assumption; apply token_reading_bounds; assumption).
  reflexivity.
Qed.

Lemma floating_shape s :
  dateTimeLocal s = true ->
  truthy (Some s) = true /\ dateOnly s = false /\ dateTimeZ s = false.
Proof.
  intros H.
  destruct (dateTimeLocal_inv s H)
    as (c1&c2&c3&c4&c5&c6&c7&c8&h1&h2&m1&m2&s1&s2&->&_).
  repeat split; reflexivity.
Qed.

(** The normaliser on a floating start: the start is what
    [toUTCStringFromLocalDateTime] returns. *)
Lemma normalizeDates_floating s dtend w st :
  dateTimeLocal s = true ->
  normalizeDates (Some s) dtend w st
  = match toUTCStringFromLocalDateTime (runtime w) s with
    | Ok start =>
        match (if truthy dtend then
                 if dateTimeLocal (str_of dtend)
                 then toUTCStringFromLocalDateTime (runtime w) (str_of dtend)
                 else if dateTimeZ (str_of dtend) then isoFromICSUTC (runtime w) (str_of dtend)
                      else Ok start
               else Ok start) with
        | Ok end_ => (Ok (mkDates start end_ false), st)
        | Throw e => (Throw e, st)
        end
    | Throw e => (Throw e, st)
    end.
Proof.
  intros H. destruct (floating_shape s H) as (T & A & B).
  unfold normalizeDates, bind, ask_runtime, liftO, ret. cbn [str_of].
  rewrite T, A, B, H. cbn [andb].
  destruct (toUTCStringFromLocalDateTime (runtime w) s) as [start|e]; [|reflexivity].
  match goal with |- context [match ?x with Ok _ => _ | Throw _ => _ end] =>
    destruct x end; reflexivity.
Qed.

(** C8 (as amended).  For a floating token that names a real date and
    time, in a runtime whose zone is steady at the token's reading, the
    start is the text of the instant whose UTC fields are the token's own
    fields: the fields are read as a local clock reading, and the offset
    the zone took off to reach the instant is added back.  So the start
    does not depend on the offset (any two runtimes steady at the reading
    agree), and where the offset is not zero it is not the instant the
    local reading denotes, which lies the offset away.  Only a reading at
    a transition of the zone's clocks can come out otherwise: 02:30 on
    30 March 2025 gives 02:30Z under UTC and 03:30Z with the clocks of
    Stockholm. *)
Theorem floating_start_is_the_fields_read_as_utc w st s :
  dateTimeLocal s = true -> real_calendar_date s -> real_time_of_day s ->
  zone_steady_at (zone (runtime w)) (token_reading s) ->
  (toUTCStringFromLocalDateTime (runtime w) s = Ok (iso_string (token_reading s)) /\
   iso_string (token_reading s) = token_stamp s ".000Z") /\
  normalizeDates (Some s) None w st
  = (Ok (mkDates (token_stamp s ".000Z") (token_stamp s ".000Z") false), st) /\
  (forall dtend ds st',
      normalizeDates (Some s) dtend w st = (Ok ds, st') ->
      d_start ds = token_stamp s ".000Z") /\
  (forall w' st',
      zone_steady_at (zone (runtime w')) (token_reading s) ->
      fst (normalizeDates (Some s) None w' st') = fst (normalizeDates (Some s) None w st)) /\
  (UTC (zone (runtime w)) (token_reading s)
   = token_reading s - tza_local (zone (runtime w)) (token_reading s) * 60000 /\
   (tza_local (zone (runtime w)) (token_reading s) <> 0 ->
    UTC (zone (runtime w)) (token_reading s) <> token_reading s)) /\
  (exists tok z1 z2 d1 d2,
      dateTimeLocal tok = true /\
      normalizeDates (Some tok) None (world_serving (runtime_in z1) "") initial_state
      = (Ok d1, initial_state) /\
      normalizeDates (Some tok) None (world_serving (runtime_in z2) "") initial_state
      = (Ok d2, initial_state) /\
      d_start d1 <> d_start d2).
Proof.
  intros Hs Hd Ht Hz.
  pose proof (iso_string_token s Hs Hd Ht) as I.
  assert (N : forall w1 st1, zone_steady_at (zone (runtime w1)) (token_reading s) ->
                normalizeDates (Some s) None w1 st1
                = (Ok (mkDates (token_stamp s ".000Z") (token_stamp s ".000Z") false), st1)).
  { intros w1 st1 Z1. rewrite normalizeDates_floating by exact Hs.
    rewrite floating_reading_steady, I by assumption. reflexivity. }
  split; [split; [apply floating_reading_steady; assumption | exact I]|].
  split; [apply N; exact Hz|]. split; [|split; [|split]].
  - intros dtend ds st'. rewrite normalizeDates_floating by exact Hs.
    rewrite floating_reading_steady, I by assumption.
    match goal with |- context [match ?x with Ok _ => _ | Throw _ => _ end] =>
      destruct x end; [|discriminate].
    intros Q. injection Q as <- _. reflexivity.
  - intros w' st' Z'. rewrite (N w' st' Z'), (N w st Hz). reflexivity.
  - split; [reflexivity|]. unfold UTC, msPerMinute. lia.
  - exists "20250330T023000", (fixedZone 0), stockholm_2025,
      (mkDates "2025-03-30T02:30:00.000Z" "2025-03-30T02:30:00.000Z" false),
      (mkDates "2025-03-30T03:30:00.000Z" "2025-03-30T03:30:00.000Z" false).
    split; [reflexivity|]. split; [vm_compute; reflexivity|].
    split; [vm_compute; reflexivity|]. cbn [d_start]. discriminate.
Qed.

(** C8, for 18:00 on 15 June 2025 two hours ahead of UTC and five hours
    behind it. *)
Lemma floating_time_example :
  normalizeDates (Some "20250615T180000") None
    (world_serving (runtime_in (fixedZone 120)) "") initial_state
  = (Ok (mkDates "2025-06-15T18:00:00.000Z" "2025-06-15T18:00:00.000Z" false), initial_state) /\
  fst (normalizeDates (Some "20250615T180000") None
         (world_serving (runtime_in (fixedZone (-300))) "") initial_state)
  = fst (normalizeDates (Some "20250615T180000") None
           (world_serving (runtime_in (fixedZone 120)) "") initial_state).
Proof.
  assert (D : real_calendar_date "20250615T180000").
  { unfold real_calendar_date. vm_compute. repeat split; discriminate. }
  assert (T : real_time_of_day "20250615T180000").
  { unfold real_time_of_day. vm_compute. repeat split; discriminate. }
  destruct (floating_start_is_the_fields_read_as_utc
              (world_serving (runtime_in (fixedZone 120)) "") initial_state
              "20250615T180000" eq_refl D T
              (fixedZone_steady 120 _ ltac:(vm_compute; discriminate)))
    as (_ & N & _ & A & _).
  split; [exact N|].
  apply (A (world_serving (runtime_in (fixedZone (-300))) "") initial_state).
  apply fixedZone_steady. vm_compute. discriminate.
Defined.

(** C8 as stated fails.  Two hours ahead of UTC, 18:00 on the local
    clock is the instant 16:00Z, and the start returned is 18:00Z; and
    runtimes two hours ahead of UTC, on UTC and five hours behind it
    return the same start. *)
Lemma floating_start_is_not_the_local_instant :
  toISOString (TimeClip (UTC (fixedZone 120) (token_reading "20250615T180000")))
  = Ok "2025-06-15T16:00:00.000Z" /\
  toUTCStringFromLocalDateTime (runtime_in (fixedZone 120)) "20250615T180000"
  = Ok "2025-06-15T18:00:00.000Z" /\
  toUTCStringFromLocalDateTime (runtime_in (fixedZone 0)) "20250615T180000"
  = Ok "2025-06-15T18:00:00.000Z" /\
  toUTCStringFromLocalDateTime (runtime_in (fixedZone (-300))) "20250615T180000"
  = Ok "2025-06-15T18:00:00.000Z" /\
  getTimezoneOffset (fixedZone 120) 0 = -120 /\
  getTimezoneOffset (fixedZone (-300)) 0 = 300.
Proof. repeat split; vm_compute; reflexivity. Defined.

(** C2 fails on the code.  A DTSTART of an accepted shape with month 99
    makes [parseICS] throw, in every world and state. *)
Theorem impossible_month_makes_parseICS_throw w st :
  parseICS (vevent ["DTSTART:20259901T000000Z"; "SUMMARY:Match"]) w st
  = (Throw (RangeError "Invalid time value"), st).
Proof. vm_compute. reflexivity. Qed.

(** The same for second 61 in a floating token, and for month 99 in a
    bare date. *)
Lemma impossible_second_makes_parseICS_throw w st :
  parseICS (vevent ["DTSTART:20250101T000061"]) w st
  = (Throw (RangeError "Invalid time value"), st).
Proof. vm_compute. reflexivity. Qed.

Lemma impossible_bare_date_makes_parseICS_throw w st :
  parseICS (vevent ["DTSTART;VALUE=DATE:20259901"]) w st
  = (Throw (RangeError "Invalid time value"), st).
Proof. vm_compute. reflexivity. Qed.

(** ** The sort *)

Section SortFacts.
Context {A : Type} (comparefn : A -> A -> option Z).

Lemma binary_insert_perm x l : Permutation (binary_insert comparefn l x) (x :: l).
Proof.
  unfold binary_insert.
  set (k := insertion_point _ _ _ _ _ _).
  rewrite <- (firstn_skipn k l) at 3.
  symmetry. apply Permutation_middle.
Qed.

Lemma fold_insert_perm l acc :
  Permutation (fold_left (binary_insert comparefn) l acc) (acc ++ l)%list.
Proof.
  revert acc. induction l as [|x r IH]; intros acc; cbn [fold_left].
  - rewrite app_nil_r. reflexivity.
  - rewrite IH, binary_insert_perm. apply Permutation_middle.
Qed.

Lemma count_and_make_run_perm l :
  Permutation (fst (count_and_make_run comparefn l) ++ snd (count_and_make_run comparefn l)) l.
Proof.
  unfold count_and_make_run.
  destruct l as [|a [|b r]]; cbn [fst snd]; try (rewrite app_nil_r; reflexivity).
  set (n := S (S _)).
  destruct (order comparefn b a <? 0).
  - rewrite <- (firstn_skipn n (a :: b :: r)) at 3.
    apply Permutation_app_tail. symmetry. apply Permutation_rev.
  - rewrite firstn_skipn. reflexivity.
Qed.

Lemma js_sort_perm l : Permutation (js_sort comparefn l) l.
Proof.
  unfold js_sort.
  pose proof (count_and_make_run_perm l) as P.
  destruct (count_and_make_run comparefn l) as [run rest]. cbn [fst snd] in P.
  rewrite fold_insert_perm. exact P.
Qed.

Lemma js_sort_In x l : In x (js_sort comparefn l) <-> In x l.
Proof.
  split; apply Permutation_in; [apply js_sort_perm | symmetry; apply js_sort_perm].
Qed.

(** When the comparison is the difference of a key on the elements at
    hand, taken in the order that puts larger keys first, the result is in
    descending order of the key. *)
Variable key : A -> Z.
Variable good : A -> Prop.
Hypothesis comparefn_key :
  forall a b, good a -> good b -> comparefn a b = Some (key b - key a).

Lemma order_key a b : good a -> good b -> order comparefn a b = key b - key a.
Proof. intros Ha Hb. unfold order. rewrite comparefn_key by assumption. reflexivity. Qed.

Lemma descending_app l1 l2 :
  descending key l1 -> descending key l2 ->
  (forall a b, In a l1 -> In b l2 -> key b <= key a) ->
  descending key (l1 ++ l2).
Proof.
  unfold descending. intros H1 H2 H. induction H1 as [|a l1 S1 IH F1]; [exact H2|].
  cbn [app]. constructor.
  - apply IH. intros x y Hx Hy. apply H; [right; exact Hx | exact Hy].
  - apply Forall_app. split; [exact F1|].
    rewrite Forall_forall. intros y Hy. apply H; [left; reflexivity | exact Hy].
Qed.

Lemma descending_nth l i j a b :
  descending key l -> (i <= j)%nat ->
  nth_error l i = Some a -> nth_error l j = Some b -> key b <= key a.
Proof.
  unfold descending. intros H. revert i j.
  induction H as [|x l S1 IH F]; intros i j Hij Ha Hb.
  - destruct i; discriminate.
  - destruct i as [|i]; destruct j as [|j]; cbn [nth_error] in Ha, Hb.
    + injection Ha as <-. injection Hb as <-. lia.
    + injection Ha as <-. rewrite Forall_forall in F.
      apply F. apply (nth_error_In _ _ Hb).
    + lia.
    + apply (IH i j); [lia | assumption..].
Qed.

(** The binary search finds the place before which no key is smaller than
    the pivot's and from which every key is. *)
Lemma insertion_point_spec pivot l :
  good pivot -> Forall good l -> descending key l ->
  forall fuel left right,
    (left <= right <= List.length l)%nat -> (right - left <= fuel)%nat ->
    (forall i e, (i < left)%nat -> nth_error l i = Some e -> key pivot <= key e) ->
    (forall i e, (right <= i)%nat -> nth_error l i = Some e -> key e < key pivot) ->
    let k := insertion_point comparefn fuel pivot l left right in
    (forall i e, (i < k)%nat -> nth_error l i = Some e -> key pivot <= key e) /\
    (forall i e, (k <= i)%nat -> nth_error l i = Some e -> key e < key pivot).
Proof.
  intros Hp Hl Hd. induction fuel as [|fuel IH]; intros left right B F L R; cbn [insertion_point].
  - split; [exact L|]. intros i e Hi. apply R. lia.
  - destruct (Nat.ltb_spec left right) as [Lt|Ge].
    2:{ split; [exact L|]. intros i e Hi. apply R. lia. }
    assert (M : (Nat.div2 (right - left) < right - left)%nat).
    { apply Nat.lt_div2. lia. }
    remember (Nat.div2 (right - left)) as half eqn:Hh. clear Hh.
    remember (left + half)%nat as mid eqn:Hm.
    destruct (nth_error l mid) as [e|] eqn:E.
    2:{ apply nth_error_None in E. lia. }
    assert (Ge : good e).
    { rewrite Forall_forall in Hl. apply Hl. apply (nth_error_In _ _ E). }
    rewrite (order_key pivot e Hp Ge).
    destruct (Z.ltb_spec (key e - key pivot) 0) as [Lt0|Ge0].
    + apply IH; [lia | lia | exact L |].
      intros i x Hi Hx.
      pose proof (descending_nth l mid i e x Hd Hi E Hx). lia.
    + apply IH; [lia | lia | | exact R].
      intros i x Hi Hx.
      pose proof (descending_nth l i mid x e Hd ltac:(lia) Hx E). lia.
Qed.

Lemma binary_insert_good x l :
  good x -> Forall good l -> Forall good (binary_insert comparefn l x).
Proof.
  intros Hx Hl. rewrite Forall_forall in *. intros z Hz.
  apply (Permutation_in _ (binary_insert_perm x l)) in Hz.
  destruct Hz as [<-|Hz]; [exact Hx | apply Hl; exact Hz].
Qed.

Lemma In_firstn_nth (l : list A) k x :
  In x (firstn k l) -> exists i, (i < k)%nat /\ nth_error l i = Some x.
Proof.
  revert k. induction l as [|y l IH]; intros [|k] H; cbn [firstn] in H; try contradiction.
  destruct H as [<-|H].
  - exists 0%nat. split; [lia | reflexivity].
  - destruct (IH k H) as [i [Hi E]]. exists (S i). split; [lia | exact E].
Qed.

Lemma In_skipn_nth (l : list A) k x :
  In x (skipn k l) -> exists i, (k <= i)%nat /\ nth_error l i = Some x.
Proof.
  revert k. induction l as [|y l IH]; intros [|k] H; cbn [skipn] in H; try contradiction.
  - apply In_nth_error in H. destruct H as [i E]. exists i. split; [lia | exact E].
  - destruct (IH k H) as [i [Hi E]]. exists (S i). split; [lia | exact E].
Qed.

Lemma descending_firstn n l : descending key l -> descending key (firstn n l).
Proof.
  unfold descending. intros H. revert n. induction H as [|x l S1 IH F]; intros [|n]; cbn [firstn];
    try constructor.
  - apply IH.
  - rewrite Forall_forall in *. intros y Hy. apply F.
    destruct (In_firstn_nth _ _ _ Hy) as [i [_ E]]. apply (nth_error_In _ _ E).
Qed.

Lemma descending_skipn n l : descending key l -> descending key (skipn n l).
Proof.
  unfold descending. intros H. revert n. induction H as [|x l S1 IH F]; intros [|n]; cbn [skipn].
  - constructor.
  - constructor.
  - constructor; assumption.
  - apply IH.
Qed.

Lemma binary_insert_descending x l :
  good x -> Forall good l ->
  descending key l -> descending key (binary_insert comparefn l x).
Proof.
  intros Hx Hl Hd. unfold binary_insert.
  destruct (insertion_point_spec x l Hx Hl Hd (List.length l) 0 (List.length l)) as [Lo Hi].
  - lia.
  - lia.
  - intros i e Hi. lia.
  - intros i e Hi E. assert (nth_error l i = None) as N by (apply nth_error_None; lia).
    congruence.
  - set (k := insertion_point _ _ _ _ _ _) in *.
    apply descending_app.
    + apply descending_firstn. exact Hd.
    + constructor; [apply descending_skipn; exact Hd|].
      rewrite Forall_forall. intros y Hy.
      destruct (In_skipn_nth _ _ _ Hy) as [i [Hik E]].
      pose proof (Hi i y Hik E). lia.
    + intros a b Ha [<-|Hb].
      * destruct (In_firstn_nth _ _ _ Ha) as [i [Hik E]]. exact (Lo i a Hik E).
      * destruct (In_firstn_nth _ _ _ Ha) as [i [Hik E]].
        destruct (In_skipn_nth _ _ _ Hb) as [j [Hjk E']].
        apply (descending_nth l i j a b Hd); [lia | assumption..].
Qed.

(** The first run is in order. *)
Lemma run_descending prev l :
  good prev -> Forall good l ->
  descending key (prev :: firstn (run_length comparefn false prev l) l).
Proof.
  intros Hp Hl. revert prev Hp. induction Hl as [|x l Hx Hl IH]; intros prev Hp.
  - cbn. constructor; constructor.
  - cbn [run_length]. rewrite (order_key x prev Hx Hp).
    destruct (Z.leb_spec 0 (key prev - key x)) as [Le|Gt].
    + cbn [firstn]. specialize (IH x Hx).
      unfold descending in *. constructor; [exact IH|].
      constructor; [lia|].
      inversion IH as [|? ? _ F]; subst.
      rewrite Forall_forall in *. intros y Hy. specialize (F y Hy). cbn beta in F. lia.
    + cbn. constructor; constructor.
Qed.

Lemma run_ascending_strictly prev l :
  good prev -> Forall good l ->
  StronglySorted (fun a b => key a < key b)
    (prev :: firstn (run_length comparefn true prev l) l).
Proof.
  intros Hp Hl. revert prev Hp. induction Hl as [|x l Hx Hl IH]; intros prev Hp.
  - cbn. constructor; constructor.
  - cbn [run_length]. rewrite (order_key x prev Hx Hp).
    destruct (Z.ltb_spec (key prev - key x) 0) as [Lt|Ge].
    + cbn [firstn]. specialize (IH x Hx).
      constructor; [exact IH|].
      constructor; [lia|].
      inversion IH as [|? ? _ F]; subst.
      rewrite Forall_forall in *. intros y Hy. specialize (F y Hy). cbn beta in F. lia.
    + cbn. constructor; constructor.
Qed.

Lemma rev_descending l :
  StronglySorted (fun a b => key a < key b) l -> descending key (rev l).
Proof.
  intros H. induction H as [|x l S1 IH F]; cbn [rev]; [constructor|].
  apply descending_app; [exact IH | constructor; constructor|].
  intros a b Ha [<-|[]]. apply in_rev in Ha.
  rewrite Forall_forall in F. specialize (F a Ha). cbn beta in F. lia.
Qed.

Lemma count_and_make_run_descending l :
  Forall good l -> descending key (fst (count_and_make_run comparefn l)).
Proof.
  intros Hl. unfold count_and_make_run.
  destruct l as [|a [|b r]]; cbn [fst].
  - constructor.
  - constructor; constructor.
  - inversion Hl as [|? ? Ha Hl']; subst. inversion Hl' as [|? ? Hb Hr]; subst.
    rewrite (order_key b a Hb Ha). cbn [firstn].
    destruct (Z.ltb_spec (key a - key b) 0) as [Lt|Ge].
    + apply rev_descending.
      pose proof (run_ascending_strictly b r Hb Hr) as S1.
      constructor; [exact S1|].
      constructor; [lia|].
      inversion S1 as [|? ? _ F]; subst.
      rewrite Forall_forall in *. intros y Hy. specialize (F y Hy). cbn beta in F. lia.
    + pose proof (run_descending b r Hb Hr) as S1.
      unfold descending in *. constructor; [exact S1|].
      constructor; [lia|].
      inversion S1 as [|? ? _ F]; subst.
      rewrite Forall_forall in *. intros y Hy. specialize (F y Hy). cbn beta in F. lia.
Qed.

Lemma js_sort_descending l : Forall good l -> descending key (js_sort comparefn l).
Proof.
  intros Hl. unfold js_sort.
  pose proof (count_and_make_run_descending l Hl) as D.
  pose proof (count_and_make_run_perm l) as P.
  destruct (count_and_make_run comparefn l) as [run rest]. cbn [fst snd] in *.
  assert (G : Forall good (run ++ rest)).
  { rewrite Forall_forall in *. intros x Hx. apply Hl. apply (Permutation_in _ P Hx). }
  apply Forall_app in G. destruct G as [Grun Grest].
  clear P Hl. revert run D Grun.
  induction Grest as [|x rest Hx Hrest IH]; intros run D Grun; cbn [fold_left]; [exact D|].
  apply IH; [apply binary_insert_descending | apply binary_insert_good]; assumption.
Qed.

End SortFacts.

(** ** Tags never survive [stripTags] *)

Lemma has_tag_lt r : has_tag (String "<" r) = false <-> gt_near r /\ has_tag r = false.
Proof.
  cbn [has_tag]. rewrite Ascii.eqb_refl. cbn [andb]. unfold gt_near. split.
  - intros H. apply orb_false_elim in H. destruct H as [H1 H2]. split; [|exact H2].
    destruct r as [|c r']; [left; reflexivity|].
    cbn [indexOf_char] in *. destruct (Ascii.eqb_spec c ">") as [->|N].
    + right. eexists. reflexivity.
    + left. destruct (indexOf_char ">" r'); [discriminate H1 | reflexivity].
  - intros [[H|[r' ->]] H2]; rewrite H2, ?H; reflexivity.
Qed.

Lemma has_tag_other c r :
  Ascii.eqb c "<" = false -> has_tag (String c r) = has_tag r.
Proof. intros H. cbn [has_tag]. rewrite H. reflexivity. Qed.

Lemma has_tag_tail c r : has_tag (String c r) = false -> has_tag r = false.
Proof. cbn [has_tag]. intros H. apply orb_false_elim in H. tauto. Qed.

Lemma indexOf_cons_other c d r :
  Ascii.eqb d c = false ->
  indexOf_char c (String d r) = option_map S (indexOf_char c r).
Proof.
  intros H. cbn [indexOf_char]. rewrite H. destruct (indexOf_char c r); reflexivity.
Qed.

Lemma indexOf_none_tail c d r :
  indexOf_char c (String d r) = None -> Ascii.eqb d c = false /\ indexOf_char c r = None.
Proof.
  cbn [indexOf_char]. destruct (Ascii.eqb d c); [discriminate|].
  destruct (indexOf_char c r); [discriminate|]. tauto.
Qed.

Lemma slice_from_length n s : (String.length (slice_from n s) <= String.length s)%nat.
Proof.
  revert s. induction n as [|n IH]; intros s; [cbn; lia|].
  destruct s as [|c r]; cbn [slice_from String.length]; [lia|].
  specialize (IH r). lia.
Qed.

Lemma remove_tags_no_gt fuel s :
  indexOf_char ">" s = None -> indexOf_char ">" (remove_tags_from fuel s) = None.
Proof.
  revert s. induction fuel as [|f IH]; intros s H; [exact H|].
  destruct s as [|c r]; [reflexivity|]. cbn [remove_tags_from].
  destruct (indexOf_none_tail _ _ _ H) as [Hc Hr].
  rewrite Hr. destruct (Ascii.eqb c "<");
    rewrite indexOf_cons_other by exact Hc; rewrite IH by exact Hr; reflexivity.
Qed.

Lemma remove_tags_gt_near fuel r :
  (String.length r <= fuel)%nat -> gt_near r -> gt_near (remove_tags_from fuel r).
Proof.
  intros L [H|[r' ->]].
  - left. apply remove_tags_no_gt. exact H.
  - right. destruct fuel as [|f]; [cbn in L; lia|]. eexists. reflexivity.
Qed.

Lemma remove_tags_from_no_tag fuel s :
  (String.length s <= fuel)%nat -> has_tag (remove_tags_from fuel s) = false.
Proof.
  revert s. induction fuel as [|f IH]; intros s L.
  - destruct s; [reflexivity | cbn in L; lia].
  - destruct s as [|c r]; [reflexivity|]. cbn [String.length] in L.
    cbn [remove_tags_from]. destruct (Ascii.eqb_spec c "<") as [->|N].
    + destruct (indexOf_char ">" r) as [[|j]|] eqn:E.
      * apply has_tag_lt. split; [|apply IH; lia].
        apply remove_tags_gt_near; [lia|]. right.
        destruct r as [|d r']; [discriminate E|]. cbn [indexOf_char] in E.
        destruct (Ascii.eqb_spec d ">") as [->|N]; [eexists; reflexivity|].
        destruct (indexOf_char ">" r'); discriminate E.
      * apply IH. pose proof (slice_from_length (S (S j)) r). lia.
      * apply has_tag_lt. split; [|apply IH; lia].
        left. apply remove_tags_no_gt. exact E.
    + rewrite has_tag_other by (apply Ascii.eqb_neq; exact N). apply IH. lia.
Qed.

Lemma remove_tags_no_tag s : has_tag (remove_tags s) = false.
Proof. apply remove_tags_from_no_tag. lia. Qed.

(** The white-space steps keep a string free of tags: they add no [>] and
    put nothing between a [<] and a [>] that follows it. *)
Lemma gt_near_map (f : string -> string) r :
  (indexOf_char ">" r = None -> indexOf_char ">" (f r) = None) ->
  (forall r', r = String ">" r' -> exists r'', f r = String ">" r'') ->
  gt_near r -> gt_near (f r).
Proof.
  intros A B [H|[r' E]]; [left; apply A; exact H | right; apply (B r'); exact E].
Qed.

Lemma has_tag_blank r : has_tag (String " " r) = has_tag r.
Proof. reflexivity. Qed.

Lemma no_gt_blank r : indexOf_char ">" r = None -> indexOf_char ">" (String " " r) = None.
Proof. intros H. rewrite indexOf_cons_other by reflexivity. rewrite H. reflexivity. Qed.

Lemma no_gt_cons c r :
  Ascii.eqb c ">" = false -> indexOf_char ">" r = None ->
  indexOf_char ">" (String c r) = None.
Proof. intros Hc H. rewrite indexOf_cons_other by exact Hc. rewrite H. reflexivity. Qed.

Lemma newlines_to_spaces_no_gt n s :
  (String.length s <= n)%nat ->
  indexOf_char ">" s = None -> indexOf_char ">" (newlines_to_spaces s) = None.
Proof.
  revert s. induction n as [|n IH]; intros s L H.
  - destruct s; [reflexivity | cbn in L; lia].
  - destruct s as [|c r]; [reflexivity|]. cbn [String.length] in L.
    destruct (indexOf_none_tail _ _ _ H) as [Hc Hr]. cbn [newlines_to_spaces].
    destruct (code c =? 10); [apply no_gt_blank, IH; [lia | exact Hr]|].
    destruct (code c =? 13).
    + destruct r as [|c2 r2]; [reflexivity|]. cbn [String.length] in L.
      destruct (code c2 =? 10).
      * apply no_gt_blank, IH; [lia|]. apply (indexOf_none_tail _ _ _ Hr).
      * apply no_gt_blank, IH; [cbn [String.length]; lia | exact Hr].
    + apply no_gt_cons; [exact Hc | apply IH; [lia | exact Hr]].
Qed.

Lemma newlines_to_spaces_gt_near r : gt_near r -> gt_near (newlines_to_spaces r).
Proof.
  apply gt_near_map.
  - apply (newlines_to_spaces_no_gt (String.length r)). lia.
  - intros r' ->. eexists. reflexivity.
Qed.

Lemma newlines_to_spaces_no_tag n s :
  (String.length s <= n)%nat ->
  has_tag s = false -> has_tag (newlines_to_spaces s) = false.
Proof.
  revert s. induction n as [|n IH]; intros s L H.
  - destruct s; [reflexivity | cbn in L; lia].
  - destruct s as [|c r]; [reflexivity|]. cbn [String.length] in L.
    pose proof (has_tag_tail _ _ H) as Hr. cbn [newlines_to_spaces].
    destruct (code c =? 10) eqn:E10; [rewrite has_tag_blank; apply IH; [lia | exact Hr]|].
    destruct (code c =? 13) eqn:E13.
    + destruct r as [|c2 r2]; [reflexivity|]. cbn [String.length] in L.
      destruct (code c2 =? 10).
      * rewrite has_tag_blank. apply IH; [lia | apply (has_tag_tail _ _ Hr)].
      * rewrite has_tag_blank. apply IH; [cbn [String.length]; lia | exact Hr].
    + destruct (Ascii.eqb_spec c "<") as [->|N].
      * apply has_tag_lt in H. apply has_tag_lt. destruct H as [G _].
        split; [apply newlines_to_spaces_gt_near; exact G | apply IH; [lia | exact Hr]].
      * rewrite has_tag_other by (apply Ascii.eqb_neq; exact N). apply IH; [lia | exact Hr].
Qed.

Lemma space_is_not_gt c : is_space c = true -> Ascii.eqb c ">" = false.
Proof. intros H. destruct (Ascii.eqb_spec c ">") as [->|]; [discriminate H | reflexivity]. Qed.

Lemma space_is_not_lt c : is_space c = true -> Ascii.eqb c "<" = false.
Proof. intros H. destruct (Ascii.eqb_spec c "<") as [->|]; [discriminate H | reflexivity]. Qed.

Lemma collapse_spaces_no_gt s :
  indexOf_char ">" s = None -> indexOf_char ">" (collapse_spaces s) = None.
Proof.
  induction s as [|c r IH]; intros H; [reflexivity|].
  destruct (indexOf_none_tail _ _ _ H) as [Hc Hr]. specialize (IH Hr).
  cbn [collapse_spaces]. destruct (is_space c).
  - destruct r as [|c2 r2]; [reflexivity|].
    destruct (is_space c2); [exact IH | apply no_gt_blank; exact IH].
  - apply no_gt_cons; assumption.
Qed.

Lemma collapse_spaces_gt_near r : gt_near r -> gt_near (collapse_spaces r).
Proof.
  apply gt_near_map; [apply collapse_spaces_no_gt|].
  intros r' ->. eexists. reflexivity.
Qed.

Lemma collapse_spaces_no_tag s :
  has_tag s = false -> has_tag (collapse_spaces s) = false.
Proof.
  induction s as [|c r IH]; intros H; [reflexivity|].
  pose proof (has_tag_tail _ _ H) as Hr. specialize (IH Hr).
  cbn [collapse_spaces]. destruct (is_space c) eqn:Sp.
  - destruct r as [|c2 r2]; [reflexivity|].
    destruct (is_space c2); [exact IH | rewrite has_tag_blank; exact IH].
  - destruct (Ascii.eqb_spec c "<") as [->|N].
    + apply has_tag_lt in H. apply has_tag_lt. destruct H as [G _].
      split; [apply collapse_spaces_gt_near; exact G | exact IH].
    + rewrite has_tag_other by (apply Ascii.eqb_neq; exact N). exact IH.
Qed.

Lemma drop_spaces_no_tag s : has_tag s = false -> has_tag (drop_spaces s) = false.
Proof.
  induction s as [|c r IH]; intros H; [reflexivity|].
  cbn [drop_spaces]. destruct (is_space c); [apply IH, (has_tag_tail _ _ H) | exact H].
Qed.

Lemma drop_trailing_spaces_keeps c r :
  is_space c = false -> drop_trailing_spaces (String c r) = String c (drop_trailing_spaces r).
Proof.
  intros H. cbn [drop_trailing_spaces]. rewrite H.
  destruct (drop_trailing_spaces r); reflexivity.
Qed.

Lemma drop_trailing_spaces_blank c r :
  is_space c = true ->
  drop_trailing_spaces (String c r) = ""
  \/ drop_trailing_spaces (String c r) = String c (drop_trailing_spaces r).
Proof.
  intros H. cbn [drop_trailing_spaces]. rewrite H.
  destruct (drop_trailing_spaces r); [left | right]; reflexivity.
Qed.

Lemma drop_trailing_spaces_no_gt s :
  indexOf_char ">" s = None -> indexOf_char ">" (drop_trailing_spaces s) = None.
Proof.
  induction s as [|c r IH]; intros H; [reflexivity|].
  destruct (indexOf_none_tail _ _ _ H) as [Hc Hr]. specialize (IH Hr).
  destruct (is_space c) eqn:Sp.
  - destruct (drop_trailing_spaces_blank c r Sp) as [E|E]; rewrite E;
      [reflexivity | apply no_gt_cons; assumption].
  - rewrite drop_trailing_spaces_keeps by exact Sp. apply no_gt_cons; assumption.
Qed.

Lemma drop_trailing_spaces_gt_near r : gt_near r -> gt_near (drop_trailing_spaces r).
Proof.
  apply gt_near_map; [apply drop_trailing_spaces_no_gt|].
  intros r' ->. rewrite drop_trailing_spaces_keeps by reflexivity. eexists. reflexivity.
Qed.

Lemma drop_trailing_spaces_no_tag s :
  has_tag s = false -> has_tag (drop_trailing_spaces s) = false.
Proof.
  induction s as [|c r IH]; intros H; [reflexivity|].
  pose proof (has_tag_tail _ _ H) as Hr. specialize (IH Hr).
  destruct (is_space c) eqn:Sp.
  - destruct (drop_trailing_spaces_blank c r Sp) as [E|E]; rewrite E; [reflexivity|].
    rewrite has_tag_other by (apply space_is_not_lt; exact Sp). exact IH.
  - rewrite drop_trailing_spaces_keeps by exact Sp.
    destruct (Ascii.eqb_spec c "<") as [->|N].
    + apply has_tag_lt in H. apply has_tag_lt. destruct H as [G _].
      split; [apply drop_trailing_spaces_gt_near; exact G | exact IH].
    + rewrite has_tag_other by (apply Ascii.eqb_neq; exact N). exact IH.
Qed.

Lemma trim_no_tag s : has_tag s = false -> has_tag (trim s) = false.
Proof. intros H. apply drop_trailing_spaces_no_tag, drop_spaces_no_tag, H. Qed.

(** No tag is left in what [stripTags] returns. *)
Lemma stripTags_no_tag s : has_tag (stripTags s) = false.
Proof.
  unfold stripTags. apply trim_no_tag, collapse_spaces_no_tag.
  apply (newlines_to_spaces_no_tag (String.length (remove_tags s))); [lia|].
  apply remove_tags_no_tag.
Qed.

(** ** Entities *)

Lemma decodeHTML_examples :
  decodeHTML "Tom &amp; Jerry &lt;3 &gt; &quot;x&quot; &#39;y&apos;"
  = "Tom & Jerry <3 > " ++ String dquote "x" ++ String dquote " 'y'" /\
  decodeHTML "a&nbsp;b &copy; &#38; &AMP; &amp" = "a&nbsp;b &copy; &#38; &AMP; &amp" /\
  decodeHTML "&amp;lt;" = "&lt;".
Proof. repeat split; vm_compute; reflexivity. Qed.

(** ** Claims on the RSS parser *)


(** C3 fails on the code.  In an engine that does not read the text
    [not a date] as a date, a feed whose first item carries that text and
    whose second item carries a readable date is returned in that order:
    the item with the unreadable date comes first. *)
Theorem unparseable_pubDate_can_sort_first rt :
  legacy_date_parse rt "not a date" = None ->
  let old := mkNewsItem "Old notice" "" "" "not a date" "" None [] in
  let new := mkNewsItem "New year" "" "" "2025-01-01T10:00:00Z" "" None [] in
  parseRSS rt feed_with_unreadable_date = [old; new] /\
  pubDate_time rt old = None /\ pubDate_time rt new = Some 1735725600000.
Proof.
  intros H old new.
  assert (Eo : pubDate_time rt old = None).
  { unfold pubDate_time, Date_parse, JSDate.parse. cbn [pubDate old String.eqb Ascii.eqb Bool.eqb].
    replace (iso_fields "not a date") with (@None fields) by (vm_compute; reflexivity).
    exact H. }
  assert (En : pubDate_time rt new = Some 1735725600000).
  { unfold pubDate_time, Date_parse, JSDate.parse. cbn [pubDate new String.eqb Ascii.eqb Bool.eqb].
    vm_compute. reflexivity. }
  split; [|split; assumption].
  unfold parseRSS.
  replace (map item_of_block _) with [old; new] by (vm_compute; reflexivity).
  unfold js_sort, count_and_make_run, order. cbv beta.
  rewrite Eo, En. reflexivity.
Qed.

(** C3, in an engine that reads the specified format only. *)
Lemma unparseable_pubDate_sorts_first_example :
  parseRSS (runtime_in (fixedZone 0)) feed_with_unreadable_date
  = [mkNewsItem "Old notice" "" "" "not a date" "" None [];
     mkNewsItem "New year" "" "" "2025-01-01T10:00:00Z" "" None []].
Proof.
  exact (proj1 (unparseable_pubDate_can_sort_first (runtime_in (fixedZone 0)) eq_refl)).
Defined.

(** X3.  When the engine reads the date of every extracted item, the
    items are returned in descending order of that date, and they are the
    extracted items. *)
Lemma parseRSS_descending rt xml :
  Forall (fun it => pubDate_time rt it <> None) (map item_of_block (itemBlocks xml)) ->
  descending (parsed_pubDate rt) (parseRSS rt xml) /\
  Permutation (parseRSS rt xml) (map item_of_block (itemBlocks xml)).
Proof.
  intros H. split; [|apply js_sort_perm].
  unfold parseRSS.
  apply (js_sort_descending _ (parsed_pubDate rt) (fun it => pubDate_time rt it <> None));
    [|exact H].
  intros a b Ha Hb. unfold parsed_pubDate.
  destruct (pubDate_time rt a); [|contradiction].
  destruct (pubDate_time rt b); [|contradiction]. reflexivity.
Qed.

(** ** Claims on the request handlers *)

Lemma required_url_events env :
  required_url OpEventsJSON env = ICAL_URL env /\ required_url OpEventsRaw env = ICAL_URL env.
Proof. split; reflexivity. Qed.

Lemma required_url_news env :
  required_url OpNewsJSON env = NEWS_RSS_URL env /\ required_url OpNewsRaw env = NEWS_RSS_URL env.
Proof. split; reflexivity. Qed.

(** C6.  When the URL an operation needs is unset or empty, the operation
    returns the 400 response whose body is the error object naming the
    variable, and leaves the state as it was: nothing is looked up,
    fetched or written.  An operation on the other feed runs as it would
    with any other setting of this variable. *)
Theorem missing_configuration_is_a_400_without_fetch op env request ctx cors w st :
  truthy (required_url op env) = false ->
  run_operation op env request ctx cors w st
  = (Ok (mkResponse 400
           (headers_set "content-type" "application/json; charset=utf-8" cors)
           (BJson (JObj [("error", JStr (missing_message op))]))), st) /\
  (forall other env',
      uses_calendar other = negb (uses_calendar op) ->
      required_url other env' = required_url other env ->
      run_operation other env' request ctx cors w st
      = run_operation other env request ctx cors w st).
Proof.
  intros H. split.
  - destruct op; cbn [run_operation required_url uses_calendar] in *;
      unfold eventsJSON, rawICS, newsJSON, rawRSS; rewrite H; reflexivity.
  - intros other env' _ E.
    destruct other; cbn [run_operation required_url uses_calendar] in *;
      unfold eventsJSON, rawICS, newsJSON, rawRSS; rewrite E; reflexivity.
Qed.

(** C6, for the events operation without its calendar URL. *)
Lemma missing_calendar_url_example :
  run_operation OpEventsJSON (mkEnv None (Some "https://news.example/rss") None)
    (get_request "/api/events" "" []) ctx_of_request
    (corsHeaders (mkEnv None (Some "https://news.example/rss") None))
    (world_serving (runtime_in (fixedZone 0)) "") initial_state
  = (Ok (mkResponse 400
           [("access-control-allow-origin", "*");
            ("access-control-allow-methods", "GET, HEAD, OPTIONS");
            ("access-control-allow-headers", "Content-Type, Cache-Control");
            ("content-type", "application/json; charset=utf-8")]
           (BJson (JObj [("error", JStr "Missing ICAL_URL env")]))), initial_state).
Proof.
  exact (proj1 (missing_configuration_is_a_400_without_fetch OpEventsJSON
                  (mkEnv None (Some "https://news.example/rss") None)
                  (get_request "/api/events" "" []) ctx_of_request
                  (corsHeaders (mkEnv None (Some "https://news.example/rss") None))
                  (world_serving (runtime_in (fixedZone 0)) "") initial_state eq_refl)).
Defined.

(** C10 fails on the code.  A request for the path [/] is answered 404
    [Not found], not with the liveness response: the trailing slash is
    stripped before the path is compared with [/]. *)
Theorem root_path_is_not_found env ctx w st :
  fetch (get_request "/" "" []) env ctx w st
  = (Ok (mkResponse 404
           (corsHeaders env ++ [("content-type", "text/plain;charset=UTF-8")])%list
           (BText "Not found")), st).
Proof. reflexivity. Qed.

Lemma strip_trailing_slashes_not_root p : strip_trailing_slashes p <> "/".
Proof.
  induction p as [|c r IH]; [discriminate|].
  cbn [strip_trailing_slashes].
  destruct (strip_trailing_slashes r) as [|d r'] eqn:E.
  - destruct (Ascii.eqb_spec c "/") as [->|N]; [discriminate|].
    intros Q. injection Q as Q. contradiction.
  - intros Q. injection Q as _ Q. discriminate Q.
Qed.

(** X5.  The liveness test of [fetch] never succeeds: every request is
    routed by the four suffix tests alone, and falls to 404 otherwise. *)
Lemma liveness_branch_is_dead request env ctx :
  fetch request env ctx
  = let url := req_url request in
    let path := strip_trailing_slashes (pathname url) in
    let cors := corsHeaders env in
    if endsWith path "/api/events/raw" then rawICS env request ctx cors
    else if endsWith path "/api/news/raw" then rawRSS env request ctx cors
    else if endsWith path "/api/events" then eventsJSON env url request ctx cors
    else if endsWith path "/api/news" then newsJSON env url request ctx cors
    else ret (text_response 404 cors "Not found").
Proof.
  unfold fetch. cbv zeta.
  destruct (String.eqb_spec (strip_trailing_slashes (pathname (req_url request))) "/") as [E|_];
    [|reflexivity].
  exfalso. exact (strip_trailing_slashes_not_root _ E).
Qed.

(** ** The cache write *)

Lemma saveToEdgeCache_accepts request res w st :
  cache_put_error w request res = None ->
  saveToEdgeCache request res w st
  = (Ok tt, mkState (ticks st)
              ((req_method request, href (req_url request), res) :: cache st)
              (log st ++ [EvCachePut request res])%list).
Proof.
  intros H. unfold saveToEdgeCache, bind, emit. cbn [ticks cache log]. rewrite H. reflexivity.
Qed.

Lemma saveToEdgeCache_refuses request res w st e :
  cache_put_error w request res = Some e ->
  saveToEdgeCache request res w st
  = (Throw e, mkState (ticks st) (cache st) (log st ++ [EvCachePut request res])%list).
Proof.
  intros H. unfold saveToEdgeCache, bind, emit. cbn [ticks cache log]. rewrite H. reflexivity.
Qed.

(** What a handler does once its response [res] is built: the write is
    awaited, and only then is [res] returned. *)
Lemma save_then_return request res w st :
  bind (saveToEdgeCache request res) (fun _ => ret res) w st
  = match cache_put_error w request res with
    | None => (Ok res, mkState (ticks st)
                         ((req_method request, href (req_url request), res) :: cache st)
                         (log st ++ [EvCachePut request res])%list)
    | Some e => (Throw e, mkState (ticks st) (cache st)
                            (log st ++ [EvCachePut request res])%list)
    end.
Proof.
  unfold bind at 1.
  destruct (cache_put_error w request res) as [e|] eqn:E.
  - rewrite (saveToEdgeCache_refuses _ _ _ _ e E). reflexivity.
  - rewrite (saveToEdgeCache_accepts _ _ _ _ E). reflexivity.
Qed.

(** With a cache that refuses the write, the events operation throws
    after the upstream fetch and returns no response, where with a cache
    that accepts it the same request is answered with status 200. *)
Lemma refused_cache_write_breaks_the_response :
  (exists st',
      eventsJSON configured_env (req_url (get_request "/api/events" "" []))
        (get_request "/api/events" "" []) ctx_of_request (corsHeaders configured_env)
        (world_refusing_writes (runtime_in (fixedZone 0)) three_upcoming_events)
        initial_state = (Throw (CacheError "put failed"), st')) /\
  (exists res st',
      eventsJSON configured_env (req_url (get_request "/api/events" "" []))
        (get_request "/api/events" "" []) ctx_of_request (corsHeaders configured_env)
        (world_serving (runtime_in (fixedZone 0)) three_upcoming_events)
        initial_state = (Ok res, st') /\ status res = 200).
Proof.
  split.
  - eexists. vm_compute. reflexivity.
  - eexists _, _. split; [vm_compute; reflexivity | reflexivity].
Qed.

(** ** Limits and counts *)

(** C4 fails on the code.  With [limit=2.5] and three upcoming events the
    events operation reports a count of 2.5 and returns two events: the
    count is not the number of events returned. *)
Theorem fractional_limit_is_counted_not_returned :
  exists res st' e1 e2,
    eventsJSON configured_env
      (req_url (get_request "/api/events" "?limit=2.5" [("limit", "2.5")]))
      (get_request "/api/events" "?limit=2.5" [("limit", "2.5")])
      ctx_of_request (corsHeaders configured_env)
      (world_serving (runtime_in (fixedZone 0)) three_upcoming_events) initial_state
    = (Ok res, st') /\
    res_body res
    = BJson (JObj [("updatedAt", JStr "2025-01-01T00:00:00.000Z");
                   ("count", JNum (Fin (5 # 2)));
                   ("events", JArr [e1; e2])]).
Proof.
  eexists _, _, _, _. split; [vm_compute; reflexivity | reflexivity].
Qed.

(** The same in the news operation. *)
Lemma fractional_limit_in_news :
  exists res st' i1 i2,
    newsJSON configured_env
      (req_url (get_request "/api/news" "?limit=2.5" [("limit", "2.5")]))
      (get_request "/api/news" "?limit=2.5" [("limit", "2.5")])
      ctx_of_request (corsHeaders configured_env)
      (world_serving (runtime_in (fixedZone 0))
         (rss_item "a" "2025-01-03T00:00:00Z" ++ rss_item "b" "2025-01-02T00:00:00Z"
            ++ rss_item "c" "2025-01-01T00:00:00Z")) initial_state
    = (Ok res, st') /\
    res_body res
    = BJson (JObj [("updatedAt", JStr "2025-01-01T00:00:00.000Z");
                   ("count", JNum (Fin (5 # 2)));
                   ("items", JArr [i1; i2])]).
Proof.
  eexists _, _, _, _. split; [vm_compute; reflexivity | reflexivity].
Qed.

Lemma int_finite v n : int v = Some n -> exists q, n = Fin q.
Proof.
  unfold int. destruct v as [s|]; [|discriminate].
  destruct (StringToNumber s) as [| |q]; cbn [isFinite]; try discriminate.
  intros E. injection E as <-. exists q. reflexivity.
Qed.

Lemma int_missing : int None = None.
Proof. reflexivity. Qed.

Lemma Qle_bool_false a b : Qle_bool a b = false -> (b <= a)%Q.
Proof.
  intros H. apply Qlt_le_weak, Qnot_le_lt. intros L.
  apply Qle_bool_iff in L. congruence.
Qed.

(** A finite number clamped between two integers is a finite number
    between them. *)
Lemma clamp_range q a b :
  a <= b ->
  exists q', clamp (Fin q) (ofZ a) (ofZ b) = Fin q' /\
             (inject_Z a <= q')%Q /\ (q' <= inject_Z b)%Q.
Proof.
  intros Hab. unfold clamp, JSNumber.min, JSNumber.max, ofZ. cbn [leb].
  assert (Iab : (inject_Z a <= inject_Z b)%Q) by (rewrite <- Zle_Qle; exact Hab).
  destruct (Qle_bool (inject_Z b) q) eqn:E1; cbn [leb].
  - destruct (Qle_bool (inject_Z a) (inject_Z b)) eqn:E2.
    + exists (inject_Z b). repeat split; [exact Iab | apply Qle_refl].
    + exists (inject_Z a). apply Qle_bool_false in E2.
      repeat split; [apply Qle_refl | exact Iab].
  - apply Qle_bool_false in E1.
    destruct (Qle_bool (inject_Z a) q) eqn:E2.
    + exists q. apply Qle_bool_iff in E2. repeat split; assumption.
    + exists (inject_Z a). repeat split; [apply Qle_refl | exact Iab].
Qed.

(** The true part of C4: [days] and [limit] always end up in their
    ranges, and a missing parameter takes its default. *)
Lemma events_days_in_range url :
  exists q, events_days url = Fin q /\ (1 <= q)%Q /\ (q <= 3650)%Q.
Proof.
  unfold events_days.
  destruct (int (searchParams_get "days" (searchParams url))) as [n|] eqn:E.
  - destruct (int_finite _ _ E) as [q ->]. apply (clamp_range q 1 3650). lia.
  - apply (clamp_range (inject_Z DEFAULT_DAYS_AHEAD) 1 3650). lia.
Qed.

Lemma events_days_default url :
  searchParams_get "days" (searchParams url) = None -> events_days url = ofZ 365.
Proof. intros H. unfold events_days. rewrite H. reflexivity. Qed.

Lemma result_limit_in_range {A} url (matches : list A) :
  exists q, result_limit url matches = Fin q /\ (1 <= q)%Q /\ (q <= 500)%Q.
Proof.
  unfold result_limit.
  destruct (int (searchParams_get "limit" (searchParams url))) as [n|] eqn:E.
  - destruct (int_finite _ _ E) as [q ->]. apply (clamp_range q 1 500). lia.
  - apply (clamp_range (inject_Z (Z.of_nat (List.length matches))) 1 500). lia.
Qed.

Lemma result_limit_default {A} url (matches : list A) :
  searchParams_get "limit" (searchParams url) = None ->
  result_limit url matches
  = clamp (ofZ (Z.of_nat (List.length matches))) (ofZ 1) (ofZ MAX_LIMIT).
Proof. intros H. unfold result_limit. rewrite H. reflexivity. Qed.

(** X2.  For a whole limit [k] the reported count is the number of
    elements returned. *)
Lemma whole_limit_count {A} (k : Z) (matches : list A) :
  1 <= k ->
  payload_count (ofZ k) matches = ofZ (Z.of_nat (List.length (slice0 (ofZ k) matches))).
Proof.
  intros Hk. unfold payload_count, slice0, ofZ, JSNumber.min, trunc. cbn [leb].
  cbn [inject_Z Qnum Qden]. rewrite Z.quot_1_r.
  destruct (k <? 0) eqn:E; [apply Z.ltb_lt in E; lia|].
  rewrite length_firstn.
  destruct (Qle_bool (inject_Z k) (inject_Z (Z.of_nat (List.length matches)))) eqn:L.
  - apply Qle_bool_iff in L. rewrite <- Zle_Qle in L.
    f_equal. f_equal. lia.
  - apply Qle_bool_false in L. rewrite <- Zle_Qle in L.
    f_equal. f_equal. lia.
Qed.

(** ** Further properties *)

Lemma Qle_bool_flip a b : (b < a)%Q -> Qle_bool a b = false.
Proof.
  intros L. destruct (Qle_bool a b) eqn:E; [|reflexivity].
  apply Qle_bool_iff in E. exfalso. apply (Qlt_irrefl b). apply (Qlt_le_trans _ _ _ L E).
Qed.

(** A finite number clamped between two integers, case by case. *)
Lemma clamp_cases q a b :
  a <= b ->
  ((q < inject_Z a)%Q -> clamp (Fin q) (ofZ a) (ofZ b) = ofZ a) /\
  ((inject_Z a <= q)%Q -> (q < inject_Z b)%Q -> clamp (Fin q) (ofZ a) (ofZ b) = Fin q) /\
  ((inject_Z b <= q)%Q -> clamp (Fin q) (ofZ a) (ofZ b) = ofZ b).
Proof.
  intros Hab. unfold clamp, JSNumber.min, JSNumber.max, ofZ. cbn [leb].
  assert (Iab : (inject_Z a <= inject_Z b)%Q) by (rewrite <- Zle_Qle; exact Hab).
  split; [|split].
  - intros L.
    rewrite (Qle_bool_flip (inject_Z b) q) by (apply (Qlt_le_trans _ _ _ L Iab)).
    cbn [leb]. rewrite (Qle_bool_flip _ _ L). reflexivity.
  - intros L1 L2. rewrite (Qle_bool_flip _ _ L2). cbn [leb].
    apply Qle_bool_iff in L1. rewrite L1. reflexivity.
  - intros L. apply Qle_bool_iff in L. rewrite L. cbn [leb].
    apply Qle_bool_iff in Iab. rewrite Iab. reflexivity.
Qed.

Lemma int_not_finite v : isFinite (StringToNumber v) = false -> int (Some v) = None.
Proof. intros H. unfold int. rewrite H. reflexivity. Qed.

Lemma int_number v q : StringToNumber v = Fin q -> int (Some v) = Some (Fin q).
Proof. intros H. unfold int. rewrite H. reflexivity. Qed.

(** X1.  Whatever the query, [days] is a finite number between 1 and 3650
    and [limit] a finite number between 1 and 500.  A parameter that is
    missing, or whose value [Number] reads as NaN or as an infinity (a
    word such as [abc], or [Infinity]), takes its default: 365 for
    [days], the number of matches clamped to the range for [limit].  A
    value read as a finite number is kept when it lies in the range and
    replaced by the nearer bound when it does not; an empty value is read
    as 0, hence replaced by 1. *)
Theorem days_and_limit_are_clamped (A : Type) (url : URL) (matches : list A) :
  (exists q, events_days url = Fin q /\ (1 <= q)%Q /\ (q <= 3650)%Q) /\
  (exists q, result_limit url matches = Fin q /\ (1 <= q)%Q /\ (q <= 500)%Q) /\
  (searchParams_get "days" (searchParams url) = None -> events_days url = ofZ 365) /\
  (searchParams_get "limit" (searchParams url) = None ->
   result_limit url matches
   = clamp (ofZ (Z.of_nat (List.length matches))) (ofZ 1) (ofZ 500)) /\
  (forall v, searchParams_get "days" (searchParams url) = Some v ->
     isFinite (StringToNumber v) = false -> events_days url = ofZ 365) /\
  (forall v, searchParams_get "limit" (searchParams url) = Some v ->
     isFinite (StringToNumber v) = false ->
     result_limit url matches
     = clamp (ofZ (Z.of_nat (List.length matches))) (ofZ 1) (ofZ 500)) /\
  (forall v q, searchParams_get "days" (searchParams url) = Some v ->
     StringToNumber v = Fin q ->
     ((q < 1)%Q -> events_days url = ofZ 1) /\
     ((1 <= q)%Q -> (q < 3650)%Q -> events_days url = Fin q) /\
     ((3650 <= q)%Q -> events_days url = ofZ 3650)) /\
  (forall v q, searchParams_get "limit" (searchParams url) = Some v ->
     StringToNumber v = Fin q ->
     ((q < 1)%Q -> result_limit url matches = ofZ 1) /\
     ((1 <= q)%Q -> (q < 500)%Q -> result_limit url matches = Fin q) /\
     ((500 <= q)%Q -> result_limit url matches = ofZ 500)) /\
  (StringToNumber "abc" = NaN /\ StringToNumber "12abc" = NaN /\
   StringToNumber "Infinity" = Inf false /\ StringToNumber "-Infinity" = Inf true /\
   StringToNumber "1e400" = Inf false /\
   StringToNumber "" = ofZ 0 /\ StringToNumber " 30 " = ofZ 30 /\
   StringToNumber "0x10" = ofZ 16 /\ StringToNumber "1e2" = ofZ 100).
Proof.
  split; [apply events_days_in_range|]. split; [apply result_limit_in_range|].
  split; [apply events_days_default|]. split; [apply result_limit_default|].
  split; [|split; [|split; [|split]]].
  - intros v E N. unfold events_days. rewrite E, (int_not_finite v N). reflexivity.
  - intros v E N. unfold result_limit. rewrite E, (int_not_finite v N). reflexivity.
  - intros v q E N. unfold events_days. rewrite E, (int_number v q N).
    apply (clamp_cases q 1 3650). lia.
  - intros v q E N. unfold result_limit. rewrite E, (int_number v q N).
    apply (clamp_cases q 1 500). lia.
  - repeat split; vm_compute; reflexivity.
Qed.

(** X2, for a limit of two among three matches. *)
Lemma count_of_two_among_three :
  payload_count (ofZ 2) ["a"; "b"; "c"] = ofZ 2 /\
  slice0 (ofZ 2) ["a"; "b"; "c"] = ["a"; "b"].
Proof.
  split; [|reflexivity].
  exact (whole_limit_count 2 ["a"; "b"; "c"] ltac:(lia)).
Defined.

(** X3, for three items given out of order. *)
Lemma news_sorted_example :
  descending (parsed_pubDate (runtime_in (fixedZone 0)))
    (parseRSS (runtime_in (fixedZone 0))
       (rss_item "b" "2025-01-02T00:00:00Z" ++ rss_item "c" "2025-01-01T00:00:00Z"
          ++ rss_item "a" "2025-01-03T00:00:00Z")) /\
  map title
    (parseRSS (runtime_in (fixedZone 0))
       (rss_item "b" "2025-01-02T00:00:00Z" ++ rss_item "c" "2025-01-01T00:00:00Z"
          ++ rss_item "a" "2025-01-03T00:00:00Z")) = ["a"; "b"; "c"].
Proof.
  split; [|vm_compute; reflexivity].
  refine (proj1 (parseRSS_descending (runtime_in (fixedZone 0))
                   (rss_item "b" "2025-01-02T00:00:00Z" ++ rss_item "c" "2025-01-01T00:00:00Z"
                      ++ rss_item "a" "2025-01-03T00:00:00Z") _)).
  replace (map item_of_block _)
    with [mkNewsItem "b" "" "" "2025-01-02T00:00:00Z" "" None [];
          mkNewsItem "c" "" "" "2025-01-01T00:00:00Z" "" None [];
          mkNewsItem "a" "" "" "2025-01-03T00:00:00Z" "" None []]
    by (vm_compute; reflexivity).
  repeat constructor; vm_compute; discriminate.
Defined.

(** X6, at the specification's example. *)
Lemma utc_token_example :
  isoFromICSUTC (runtime_in stockholm_2025) "20250615T180000Z"
  = Ok "2025-06-15T18:00:00.000Z".
Proof.
  refine (isoFromICSUTC_fields (runtime_in stockholm_2025)
            "20250615T180000" eq_refl _ _).
  - unfold real_calendar_date. vm_compute. repeat split; discriminate.
  - unfold real_time_of_day. vm_compute. repeat split; discriminate.
Defined.

(** X7, in a zone two hours ahead of UTC. *)
Lemma floating_start_example :
  toUTCStringFromLocalDateTime (runtime_in (fixedZone 120)) "20250615T180000"
  = Ok "2025-06-15T18:00:00.000Z".
Proof.
  refine (toUTCStringFromLocalDateTime_steady (runtime_in (fixedZone 120))
            "20250615T180000" eq_refl _ _ _).
  - unfold real_calendar_date. vm_compute. repeat split; discriminate.
  - unfold real_time_of_day. vm_compute. repeat split; discriminate.
  - apply fixedZone_steady. vm_compute. discriminate.
Defined.

(** X8.  Unfolding joins a folded line: a line break followed by a space
    or a tab disappears, and the text before it, when it holds no line
    break, is kept as it is. *)
Theorem folded_line_is_rejoined a sp b :
  no_line_break a = true -> is_fold_space sp = true ->
  unfold_lines (a ++ CR ++ LF ++ String sp b) = a ++ unfold_lines b /\
  unfold_lines (a ++ LF ++ String sp b) = a ++ unfold_lines b.
Proof.
  intros Ha Hsp. induction a as [|c r IH].
  - cbn [append CR LF unfold_lines]. rewrite Hsp.
    replace (code (ascii_of_N 13) =? 10) with false by reflexivity.
    replace (code (ascii_of_N 13) =? 13) with true by reflexivity.
    replace (code (ascii_of_N 10) =? 10) with true by reflexivity.
    cbn [andb starts_with Ascii.eqb Bool.eqb]. rewrite !Ascii.eqb_refl.
    cbn [andb]. split; reflexivity.
  - cbn [no_line_break] in Ha. apply andb_prop in Ha. destruct Ha as [Hc Hr].
    apply andb_prop in Hc. destruct Hc as [H10 H13].
    apply negb_true_iff in H10. apply negb_true_iff in H13.
    destruct (IH Hr) as [I1 I2].
    assert (Step : forall rest, rest <> "" ->
                     unfold_lines (String c rest) = String c (unfold_lines rest)).
    { intros rest Hne. destruct rest as [|d rest']; [contradiction|].
      cbn [unfold_lines]. rewrite H10, H13. reflexivity. }
    cbn [append]. split.
    + rewrite Step; [rewrite I1; reflexivity|]. destruct r; discriminate.
    + rewrite Step; [rewrite I2; reflexivity|]. destruct r; discriminate.
Qed.

(** X8, for a folded SUMMARY line. *)
Lemma folded_summary_example :
  unfold_lines ("SUMMARY:Hemma" ++ CR ++ LF ++ " match") = "SUMMARY:Hemmamatch".
Proof.
  exact (proj1 (folded_line_is_rejoined "SUMMARY:Hemma" " " "match" eq_refl eq_refl)).
Defined.

(** X9.  Once an operation has answered a request and stored its answer,
    the same request is answered from the cache: the stored response with
    the CORS headers set, after a cache lookup and nothing else. *)
Theorem second_request_is_served_from_cache op env request ctx cors w st res :
  truthy (required_url op env) = true ->
  cache_lookup (req_method request) (href (req_url request)) (cache st) = Some res ->
  run_operation op env request ctx cors w st
  = (Ok (withCORS res cors),
     mkState (ticks st) (cache st) (log st ++ [EvCacheMatch request])%list).
Proof.
  intros Hurl Hhit.
  destruct op; cbn [run_operation required_url uses_calendar] in *;
    unfold eventsJSON, rawICS, newsJSON, rawRSS;
    rewrite Hurl; cbn [negb]; rewrite bind_run, fromEdgeCache_run, Hhit; reflexivity.
Qed.

(** X9, for the raw events operation with a stored response. *)
Lemma second_request_example :
  run_operation OpEventsRaw configured_env (get_request "/api/events/raw" "" [])
    ctx_of_request (corsHeaders configured_env)
    (world_serving (runtime_in (fixedZone 0)) "")
    (mkState 0 [("GET", "https://api.harnosandshf.se/api/events/raw",
                 mkResponse 200 [("content-type", "text/calendar; charset=utf-8")]
                   (BText "BEGIN:VCALENDAR"))] [])
  = (Ok (mkResponse 200
           [("content-type", "text/calendar; charset=utf-8");
            ("access-control-allow-origin", "*");
            ("access-control-allow-methods", "GET, HEAD, OPTIONS");
            ("access-control-allow-headers", "Content-Type, Cache-Control")]
           (BText "BEGIN:VCALENDAR")),
     mkState 0 [("GET", "https://api.harnosandshf.se/api/events/raw",
                 mkResponse 200 [("content-type", "text/calendar; charset=utf-8")]
                   (BText "BEGIN:VCALENDAR"))]
       [EvCacheMatch (get_request "/api/events/raw" "" [])]).
Proof.
  exact (second_request_is_served_from_cache OpEventsRaw configured_env
           (get_request "/api/events/raw" "" []) ctx_of_request
           (corsHeaders configured_env) (world_serving (runtime_in (fixedZone 0)) "")
           (mkState 0 [("GET", "https://api.harnosandshf.se/api/events/raw",
                        mkResponse 200 [("content-type", "text/calendar; charset=utf-8")]
                          (BText "BEGIN:VCALENDAR"))] [])
           (mkResponse 200 [("content-type", "text/calendar; charset=utf-8")]
              (BText "BEGIN:VCALENDAR")) eq_refl eq_refl).
Defined.

(** An example of the horizon of the events operation: from 1 March 2025
    00:00 UTC with [days=5], an event on 1 March is returned and one on
    10 March is not. *)
Lemma horizon_of_five_days :
  exists res st' ev,
    eventsJSON configured_env
      (req_url (get_request "/api/events" "?days=5" [("days", "5")]))
      (get_request "/api/events" "?days=5" [("days", "5")])
      ctx_of_request (corsHeaders configured_env)
      (world_serving (runtime_at (fixedZone 0) 1740787200000)
         (vevent ["DTSTART:20250301"; "SUMMARY:First"]
            ++ vevent ["DTSTART:20250310"; "SUMMARY:Second"])) initial_state
    = (Ok res, st') /\
    res_body res
    = BJson (JObj [("updatedAt", JStr "2025-03-01T00:00:00.000Z");
                   ("count", JNum (Fin 1));
                   ("events", JArr [ev])]) /\
    ev = event_json (mkEvent "2025-03-01T00:00:00.000Z" "2025-03-02T00:00:00.000Z" true
                       "First" "" "" "" "Laget.se").
Proof.
  eexists _, _, _. split; [vm_compute; reflexivity|]. split; reflexivity.
Qed.

(* ================================================================== *)
(** * Properties of the handlers *)

(** ** Headers *)

Lemma headers_get_set k k' v h :
  headers_get k (headers_set k' v h)
  = if String.eqb k' k then Some v else headers_get k h.
Proof.
  induction h as [|[a b] r IH]; cbn [headers_set headers_get].
  - destruct (String.eqb k' k); reflexivity.
  - destruct (String.eqb_spec a k') as [->|N]; cbn [headers_get].
    + destruct (String.eqb k' k); reflexivity.
    + rewrite IH. destruct (String.eqb_spec a k) as [->|N2].
      * destruct (String.eqb_spec k' k) as [->|_]; [contradiction N; reflexivity|reflexivity].
      * reflexivity.
Qed.

Lemma cors_present_cors env : cors_present env (corsHeaders env).
Proof. repeat split. Qed.

Lemma cors_present_set env k v h :
  cors_present env h ->
  String.eqb k "access-control-allow-origin" = false ->
  String.eqb k "access-control-allow-methods" = false ->
  String.eqb k "access-control-allow-headers" = false ->
  cors_present env (headers_set k v h).
Proof.
  intros (A & B & C) E1 E2 E3. unfold cors_present.
  rewrite !headers_get_set, E1, E2, E3. repeat split; assumption.
Qed.

Lemma cors_present_withCORS env c :
  cors_present env (res_headers (withCORS c (corsHeaders env))).
Proof.
  unfold withCORS, corsHeaders, cors_present. cbn [res_headers fold_left fst snd].
  rewrite !headers_get_set. repeat split.
Qed.

(** ** What parsing leaves alone *)

Lemma same_store_refl st : same_store st st.
Proof. split; reflexivity. Qed.

Lemma same_store_trans a b c : same_store a b -> same_store b c -> same_store a c.
Proof. intros [A1 A2] [B1 B2]. split; congruence. Qed.

Ltac thrown_or_returned :=
  match goal with
  | |- context [match ?x with Ok _ => _ | Throw _ => _ end] => destruct x
  end.

Lemma normalizeDates_store dtstart dtend w st o st' :
  normalizeDates dtstart dtend w st = (o, st') -> same_store st st'.
Proof.
  unfold normalizeDates. rewrite bind_run, ask_runtime_run.
  destruct (truthy dtstart && dateOnly (str_of dtstart)).
  { rewrite bind_run, liftO_run.
    destruct (toUTCStringFromLocalParts _ _ _) as [s|e].
    - destruct (truthy dtend && dateOnly (str_of dtend)).
      + rewrite bind_run, liftO_run.
        destruct (toUTCStringFromLocalParts _ _ _); intros Q; injection Q as _ <-;
          apply same_store_refl.
      + rewrite bind_run, liftO_run.
        destruct (toISOString _); intros Q; injection Q as _ <-; apply same_store_refl.
    - intros Q; injection Q as _ <-; apply same_store_refl. }
  destruct (truthy dtstart && dateTimeZ (str_of dtstart)).
  { rewrite bind_run, liftO_run.
    destruct (isoFromICSUTC _ _) as [s|e].
    - rewrite bind_run, liftO_run.
      thrown_or_returned; intros Q; injection Q as _ <-; apply same_store_refl.
    - intros Q; injection Q as _ <-; apply same_store_refl. }
  destruct (truthy dtstart && dateTimeLocal (str_of dtstart)).
  { rewrite bind_run, liftO_run.
    destruct (toUTCStringFromLocalDateTime _ _) as [s|e].
    - rewrite bind_run, liftO_run.
      thrown_or_returned; intros Q; injection Q as _ <-; apply same_store_refl.
    - intros Q; injection Q as _ <-; apply same_store_refl. }
  rewrite bind_run, Date_now_run, bind_run, liftO_run.
  destruct (toISOString _); intros Q; injection Q as _ <-; split; reflexivity.
Qed.

Lemma parseICS_step_store line acc w st o st' :
  parseICS_step line acc w st = (o, st') -> same_store st st'.
Proof.
  destruct acc as [events cur]. unfold parseICS_step.
  destruct (String.eqb line "BEGIN:VEVENT").
  { intros Q; injection Q as _ <-; apply same_store_refl. }
  destruct (String.eqb line "END:VEVENT").
  { destruct cur as [c|].
    - rewrite bind_run.
      destruct (normalizeDates _ _ w st) as [[ds|e] st1] eqn:N;
        intros Q; injection Q as _ <-; exact (normalizeDates_store _ _ _ _ _ _ N).
    - intros Q; injection Q as _ <-; apply same_store_refl. }
  destruct cur as [c|].
  - destruct (indexOf_char ":" line); intros Q; injection Q as _ <-; apply same_store_refl.
  - intros Q; injection Q as _ <-; apply same_store_refl.
Qed.

Lemma parseICS_loop_store lines acc w st o st' :
  parseICS_loop lines acc w st = (o, st') -> same_store st st'.
Proof.
  revert acc st. induction lines as [|line rest IH]; intros acc st; cbn [parseICS_loop].
  - intros Q; injection Q as _ <-; apply same_store_refl.
  - rewrite bind_run.
    destruct (parseICS_step line acc w st) as [[acc'|e] st1] eqn:S1.
    + intros Q. eapply same_store_trans; [exact (parseICS_step_store _ _ _ _ _ _ S1)|].
      exact (IH _ _ Q).
    + intros Q; injection Q as _ <-. exact (parseICS_step_store _ _ _ _ _ _ S1).
Qed.

Lemma parseICS_store ics w st o st' :
  parseICS ics w st = (o, st') -> same_store st st'.
Proof. apply parseICS_loop_store. Qed.

(** ** The ways a handler can end *)

Lemma app_two {A} (l : list A) a b : ((l ++ [a]) ++ [b] = l ++ [a; b])%list.
Proof. rewrite <- app_assoc. reflexivity. Qed.

Lemma app_three {A} (l : list A) a b c : ((l ++ [a; b]) ++ [c] = l ++ [a; b; c])%list.
Proof. rewrite <- app_assoc. reflexivity. Qed.

Lemma raw_ending op env request cors w st text code o st' :
  truthy (required_url op env) = true ->
  cached_for request st = None ->
  upstream w (str_of (required_url op env)) = Fetched code text ->
  response_ok code = true ->
  bind (saveToEdgeCache request (mkResponse 200 (fresh_headers op cors) (BText text)))
       (fun _ => ret (mkResponse 200 (fresh_headers op cors) (BText text))) w
       (after_events st [EvCacheMatch request; EvFetch (str_of (required_url op env))])
  = (o, st') ->
  Ending op env request cors w st o st'.
Proof.
  intros Hurl Hmiss Hup Hok. rewrite save_then_return.
  destruct (cache_put_error w request _) as [e|] eqn:P; intros Q; injection Q as <- <-.
  - eapply EndThrown; eauto.
  - unfold after_events. cbn [ticks cache log]. rewrite app_three.
    eapply EndStored; eauto.
Qed.

Lemma json_ending op env request cors w st text code o st' st1 payload :
  truthy (required_url op env) = true ->
  cached_for request st = None ->
  upstream w (str_of (required_url op env)) = Fetched code text ->
  response_ok code = true ->
  content_type op = "application/json; charset=utf-8" ->
  cache st1 = cache st ->
  log st1 = (log st ++ [EvCacheMatch request; EvFetch (str_of (required_url op env))])%list ->
  bind (saveToEdgeCache request
          (mkResponse 200 (headers_set "cache-control" cache_control_value
                             (headers_set "content-type" "application/json; charset=utf-8" cors))
             (BJson payload)))
       (fun _ => ret (mkResponse 200 (headers_set "cache-control" cache_control_value
                             (headers_set "content-type" "application/json; charset=utf-8" cors))
             (BJson payload))) w st1
  = (o, st') ->
  Ending op env request cors w st o st'.
Proof.
  intros Hurl Hmiss Hup Hok Hct Hc Hl. rewrite save_then_return.
  rewrite <- Hct. fold (fresh_headers op cors).
  destruct (cache_put_error w request _) as [e|] eqn:P; intros Q; injection Q as <- <-.
  - eapply EndThrown; eauto.
  - rewrite Hc, Hl, app_three. eapply EndStored; eauto.
Qed.

(** Every run of an operation ends in one of the six ways. *)
Lemma run_operation_ending op env request ctx cors w st o st' :
  run_operation op env request ctx cors w st = (o, st') ->
  Ending op env request cors w st o st'.
Proof.
  destruct (truthy (required_url op env)) eqn:Hurl.
  2:{ intros Q.
      assert (E : run_operation op env request ctx cors w st
                  = (Ok (badRequest (missing_message op) cors), st)).
      { destruct op; cbn [run_operation required_url uses_calendar] in *;
          unfold eventsJSON, rawICS, newsJSON, rawRSS; rewrite Hurl; reflexivity. }
      rewrite E in Q. injection Q as <- <-. apply EndMissing. exact Hurl. }
  destruct (cached_for request st) as [c|] eqn:Hc.
  { intros Q.
    assert (E : run_operation op env request ctx cors w st
                = (Ok (withCORS c cors), after_events st [EvCacheMatch request])).
    { unfold cached_for in Hc.
      destruct op; cbn [run_operation required_url uses_calendar] in *;
        unfold eventsJSON, rawICS, newsJSON, rawRSS;
        rewrite Hurl; cbn [negb]; rewrite bind_run, fromEdgeCache_run, Hc; reflexivity. }
    rewrite E in Q. injection Q as <- <-. apply EndHit; assumption. }
  destruct (upstream w (str_of (required_url op env))) as [e|code text] eqn:Hup.
  { intros Q.
    assert (E : run_operation op env request ctx cors w st
                = (Throw e, after_events st
                     [EvCacheMatch request; EvFetch (str_of (required_url op env))])).
    { unfold cached_for in Hc. unfold after_events.
      destruct op; cbn [run_operation required_url uses_calendar] in *;
        unfold eventsJSON, rawICS, newsJSON, rawRSS;
        rewrite Hurl; cbn [negb]; rewrite bind_run, fromEdgeCache_run, Hc;
        rewrite bind_run, fetch_upstream_run, Hup; cbn [ticks cache log];
        rewrite app_two; reflexivity. }
    rewrite E in Q. injection Q as <- <-. apply EndRejected; assumption. }
  destruct (response_ok code) eqn:Hok.
  2:{ intros Q.
      assert (E : run_operation op env request ctx cors w st
                  = (Ok (text_response 502 cors (failure_message op)),
                     after_events st
                       [EvCacheMatch request; EvFetch (str_of (required_url op env))])).
      { unfold cached_for in Hc. unfold after_events.
        destruct op; cbn [run_operation required_url uses_calendar] in *;
          unfold eventsJSON, rawICS, newsJSON, rawRSS;
          rewrite Hurl; cbn [negb]; rewrite bind_run, fromEdgeCache_run, Hc;
          rewrite bind_run, fetch_upstream_run, Hup; cbn [fst snd ticks cache log];
          rewrite Hok, app_two; reflexivity. }
      rewrite E in Q. injection Q as <- <-. eapply EndBadGateway; eassumption. }
  pose proof Hc as Hc'. unfold cached_for in Hc'.
  destruct op; cbn [run_operation] in *.
  - unfold eventsJSON. cbn [required_url uses_calendar] in Hurl, Hup.
    rewrite Hurl; cbn [negb]; rewrite bind_run, fromEdgeCache_run, Hc'.
    rewrite bind_run, fetch_upstream_run, Hup; cbn [fst snd ticks cache log].
    rewrite Hok, app_two. cbn [negb]. rewrite bind_run.
    destruct (parseICS text w _) as [[events|e] st1] eqn:P.
    2:{ intros Q; injection Q as <- <-. apply parseICS_store in P. destruct P as [P1 P2].
        eapply EndThrown; eauto. }
    apply parseICS_store in P. destruct P as [P1 P2]. cbn [cache log] in P1, P2.
    rewrite bind_run, ask_runtime_run. rewrite bind_run, Date_now_run.
    rewrite bind_run, Date_now_run. rewrite bind_run, liftO_run.
    destruct (toISOString _) as [updatedAt|e].
    2:{ intros Q; injection Q as <- <-. eapply EndThrown; eauto. }
    eapply (json_ending OpEventsJSON); eauto.
  - unfold rawICS. cbn [required_url uses_calendar] in Hurl, Hup.
    rewrite Hurl; cbn [negb]; rewrite bind_run, fromEdgeCache_run, Hc'.
    rewrite bind_run, fetch_upstream_run, Hup; cbn [fst snd ticks cache log].
    rewrite Hok, app_two. cbn [negb].
    apply (raw_ending OpEventsRaw env request cors w st text code); assumption.
  - unfold newsJSON. cbn [required_url uses_calendar] in Hurl, Hup.
    rewrite Hurl; cbn [negb]; rewrite bind_run, fromEdgeCache_run, Hc'.
    rewrite bind_run, fetch_upstream_run, Hup; cbn [fst snd ticks cache log].
    rewrite Hok, app_two. cbn [negb].
    rewrite bind_run, ask_runtime_run. rewrite bind_run, Date_now_run.
    rewrite bind_run, liftO_run.
    destruct (toISOString _) as [updatedAt|e].
    2:{ intros Q; injection Q as <- <-. eapply EndThrown; eauto. }
    eapply (json_ending OpNewsJSON); eauto.
  - unfold rawRSS. cbn [required_url uses_calendar] in Hurl, Hup.
    rewrite Hurl; cbn [negb]; rewrite bind_run, fromEdgeCache_run, Hc'.
    rewrite bind_run, fetch_upstream_run, Hup; cbn [fst snd ticks cache log].
    rewrite Hok, app_two. cbn [negb].
    apply (raw_ending OpNewsRaw env request cors w st text code); assumption.
Qed.

(** ** The cache write is awaited *)

(** Parsing a calendar depends on the world through its runtime only. *)
Lemma normalizeDates_runtime dtstart dtend w w' st :
  runtime w = runtime w' -> normalizeDates dtstart dtend w st = normalizeDates dtstart dtend w' st.
Proof.
  intros H. unfold normalizeDates. rewrite !(bind_run ask_runtime), !ask_runtime_run, H.
  destruct (truthy dtstart && dateOnly (str_of dtstart)).
  { rewrite !bind_run, !liftO_run. destruct (toUTCStringFromLocalParts _ _ _); [|reflexivity].
    destruct (truthy dtend && dateOnly (str_of dtend)); reflexivity. }
  destruct (truthy dtstart && dateTimeZ (str_of dtstart)); [reflexivity|].
  destruct (truthy dtstart && dateTimeLocal (str_of dtstart)); [reflexivity|].
  rewrite !bind_run, !Date_now_run, H. reflexivity.
Qed.

Lemma parseICS_step_runtime line acc w w' st :
  runtime w = runtime w' -> parseICS_step line acc w st = parseICS_step line acc w' st.
Proof.
  intros H. destruct acc as [events cur]. unfold parseICS_step.
  destruct (String.eqb line "BEGIN:VEVENT"); [reflexivity|].
  destruct (String.eqb line "END:VEVENT").
  - destruct cur as [c|]; [|reflexivity].
    rewrite !bind_run, (normalizeDates_runtime _ _ w w' st H). reflexivity.
  - destruct cur as [c|]; [|reflexivity]. destruct (indexOf_char ":" line); reflexivity.
Qed.

Lemma parseICS_loop_runtime lines acc w w' st :
  runtime w = runtime w' -> parseICS_loop lines acc w st = parseICS_loop lines acc w' st.
Proof.
  intros H. revert acc st. induction lines as [|line rest IH]; intros acc st; [reflexivity|].
  cbn [parseICS_loop]. rewrite !bind_run, (parseICS_step_runtime line acc w w' st H).
  destruct (parseICS_step line acc w' st) as [[acc'|e] st1]; [apply IH | reflexivity].
Qed.

Lemma parseICS_runtime ics w w' st :
  runtime w = runtime w' -> parseICS ics w st = parseICS ics w' st.
Proof. apply parseICS_loop_runtime. Qed.

(** C9 fails on the code.  Take an operation whose URL is configured, a
    request the cache holds nothing for, and an upstream reply that is a
    success; let the cache answer the write in any way ([put]).  Either
    the operation throws before it has a response (the calendar does not
    parse, or the clock is out of range), whatever the cache would do.
    Or it builds a 200 response [res], and then, after the lookup and the
    fetch, it attempts the write of [res] and waits for its outcome: if
    the cache accepts, [res] is stored and returned; if the cache refuses
    with an error, the operation throws that error and [res] is not
    returned.  The raw operations are always in the second case, with the
    upstream text as body. *)
Theorem refused_cache_write_fails_the_request op env request ctx cors rt up st code text :
  truthy (required_url op env) = true ->
  cached_for request st = None ->
  up (str_of (required_url op env)) = Fetched code text ->
  response_ok code = true ->
  ((exists e st1,
       cache st1 = cache st /\
       forall put,
         run_operation op env request ctx cors (mkWorld rt up put) st = (Throw e, st1)) \/
   (exists b t,
       forall put,
         run_operation op env request ctx cors (mkWorld rt up put) st
         = match put request (mkResponse 200 (fresh_headers op cors) b) with
           | None =>
               (Ok (mkResponse 200 (fresh_headers op cors) b),
                mkState t
                  ((req_method request, href (req_url request),
                    mkResponse 200 (fresh_headers op cors) b) :: cache st)
                  (log st ++ [EvCacheMatch request; EvFetch (str_of (required_url op env));
                              EvCachePut request (mkResponse 200 (fresh_headers op cors) b)])%list)
           | Some e =>
               (Throw e,
                mkState t (cache st)
                  (log st ++ [EvCacheMatch request; EvFetch (str_of (required_url op env));
                              EvCachePut request (mkResponse 200 (fresh_headers op cors) b)])%list)
           end)) /\
  (op = OpEventsRaw \/ op = OpNewsRaw ->
   forall put,
     run_operation op env request ctx cors (mkWorld rt up put) st
     = match put request (mkResponse 200 (fresh_headers op cors) (BText text)) with
       | None =>
           (Ok (mkResponse 200 (fresh_headers op cors) (BText text)),
            mkState (ticks st)
              ((req_method request, href (req_url request),
                mkResponse 200 (fresh_headers op cors) (BText text)) :: cache st)
              (log st ++ [EvCacheMatch request; EvFetch (str_of (required_url op env));
                          EvCachePut request
                            (mkResponse 200 (fresh_headers op cors) (BText text))])%list)
       | Some e =>
           (Throw e,
            mkState (ticks st) (cache st)
              (log st ++ [EvCacheMatch request; EvFetch (str_of (required_url op env));
                          EvCachePut request
                            (mkResponse 200 (fresh_headers op cors) (BText text))])%list)
       end).
Proof.
  intros Hurl Hmiss Hup Hok. unfold cached_for in Hmiss.
  assert (Raw : op = OpEventsRaw \/ op = OpNewsRaw ->
          forall put,
            run_operation op env request ctx cors (mkWorld rt up put) st
            = match put request (mkResponse 200 (fresh_headers op cors) (BText text)) with
              | None =>
                  (Ok (mkResponse 200 (fresh_headers op cors) (BText text)),
                   mkState (ticks st)
                     ((req_method request, href (req_url request),
                       mkResponse 200 (fresh_headers op cors) (BText text)) :: cache st)
                     (log st ++ [EvCacheMatch request; EvFetch (str_of (required_url op env));
                                 EvCachePut request
                                   (mkResponse 200 (fresh_headers op cors) (BText text))])%list)
              | Some e =>
                  (Throw e,
                   mkState (ticks st) (cache st)
                     (log st ++ [EvCacheMatch request; EvFetch (str_of (required_url op env));
                                 EvCachePut request
                                   (mkResponse 200 (fresh_headers op cors) (BText text))])%list)
              end).
  { intros [->| ->] put; cbn [run_operation required_url uses_calendar] in *.
    - unfold rawICS. rewrite Hurl; cbn [negb].
      rewrite bind_run, fromEdgeCache_run, Hmiss.
      rewrite bind_run, fetch_upstream_run. cbn [upstream]. rewrite Hup.
      cbn [fst snd ticks cache log]. rewrite Hok; cbn [negb].
      rewrite save_then_return. cbn [cache_put_error ticks cache log].
      rewrite <- !app_assoc. reflexivity.
    - unfold rawRSS. rewrite Hurl; cbn [negb].
      rewrite bind_run, fromEdgeCache_run, Hmiss.
      rewrite bind_run, fetch_upstream_run. cbn [upstream]. rewrite Hup.
      cbn [fst snd ticks cache log]. rewrite Hok; cbn [negb].
      rewrite save_then_return. cbn [cache_put_error ticks cache log].
      rewrite <- !app_assoc. reflexivity. }
  split; [|exact Raw].
  destruct op.
  - cbn [run_operation required_url uses_calendar] in *.
    set (st2 := mkState (ticks st) (cache st)
                  (log st ++ [EvCacheMatch request; EvFetch (str_of (ICAL_URL env))])%list).
    assert (Start : forall put,
              eventsJSON env (req_url request) request ctx cors (mkWorld rt up put) st
              = match parseICS text (mkWorld rt up (fun _ _ => None)) st2 with
                | (Ok events, st3) =>
                    match toISOString (TimeClip (clock rt (S (ticks st3)))) with
                    | Ok updatedAt =>
                        let now := clock rt (ticks st3) in
                        let upcoming :=
                          events_upcoming rt now
                            (events_until now (events_days (req_url request))) events in
                        let limit := result_limit (req_url request) upcoming in
                        let res :=
                          mkResponse 200 (fresh_headers OpEventsJSON cors)
                            (BJson (JObj [ ("updatedAt", JStr updatedAt);
                                           ("count", JNum (payload_count limit upcoming));
                                           ("events",
                                            JArr (map event_json (slice0 limit upcoming))) ])) in
                        bind (saveToEdgeCache request res) (fun _ => ret res)
                          (mkWorld rt up put)
                          (mkState (S (S (ticks st3))) (cache st3) (log st3))
                    | Throw e => (Throw e, mkState (S (S (ticks st3))) (cache st3) (log st3))
                    end
                | (Throw e, st3) => (Throw e, st3)
                end).
    { intros put. unfold eventsJSON. rewrite Hurl; cbn [negb].
      rewrite bind_run, fromEdgeCache_run, Hmiss.
      rewrite bind_run, fetch_upstream_run. cbn [upstream]. rewrite Hup.
      cbn [fst snd ticks cache log]. rewrite Hok; cbn [negb]. rewrite app_two.
      fold st2. rewrite bind_run.
      rewrite (parseICS_runtime text (mkWorld rt up put) (mkWorld rt up (fun _ _ => None)) st2
                 eq_refl).
      destruct (parseICS text _ st2) as [[events|e] st3]; [|reflexivity].
      rewrite bind_run, ask_runtime_run. rewrite bind_run, Date_now_run.
      rewrite bind_run, Date_now_run. rewrite bind_run, liftO_run.
      cbn [runtime ticks cache log].
      destruct (toISOString _) as [updatedAt|e]; reflexivity. }
    destruct (parseICS text (mkWorld rt up (fun _ _ => None)) st2) as [[events|e] st3] eqn:P.
    2:{ left. exists e, st3. split; [|exact Start].
        apply parseICS_store in P. exact (proj1 P). }
    apply parseICS_store in P. destruct P as [P1 P2]. cbn [cache log st2] in P1, P2.
    destruct (toISOString (TimeClip (clock rt (S (ticks st3))))) as [updatedAt|e].
    2:{ left. eexists e, _. split; [|exact Start]. exact P1. }
    right. eexists _, _. intros put. rewrite (Start put). cbv zeta.
    rewrite save_then_return. cbn [cache_put_error ticks cache log].
    rewrite P1, P2, app_three. reflexivity.
  - right. exists (BText text), (ticks st). exact (Raw (or_introl eq_refl)).
  - cbn [run_operation required_url uses_calendar] in *.
    assert (Start : forall put,
              newsJSON env (req_url request) request ctx cors (mkWorld rt up put) st
              = match toISOString (TimeClip (clock rt (ticks st))) with
                | Ok updatedAt =>
                    let items := parseRSS rt text in
                    let limit := result_limit (req_url request) items in
                    let res :=
                      mkResponse 200 (fresh_headers OpNewsJSON cors)
                        (BJson (JObj [ ("updatedAt", JStr updatedAt);
                                       ("count", JNum (payload_count limit items));
                                       ("items", JArr (map item_json (slice0 limit items))) ])) in
                    bind (saveToEdgeCache request res) (fun _ => ret res)
                      (mkWorld rt up put)
                      (mkState (S (ticks st)) (cache st)
                         (log st ++ [EvCacheMatch request;
                                     EvFetch (str_of (NEWS_RSS_URL env))])%list)
                | Throw e =>
                    (Throw e,
                     mkState (S (ticks st)) (cache st)
                       (log st ++ [EvCacheMatch request;
                                   EvFetch (str_of (NEWS_RSS_URL env))])%list)
                end).
    { intros put. unfold newsJSON. rewrite Hurl; cbn [negb].
      rewrite bind_run, fromEdgeCache_run, Hmiss.
      rewrite bind_run, fetch_upstream_run. cbn [upstream]. rewrite Hup.
      cbn [fst snd ticks cache log]. rewrite Hok; cbn [negb]. rewrite app_two.
      rewrite bind_run, ask_runtime_run. rewrite bind_run, Date_now_run.
      rewrite bind_run, liftO_run. cbn [runtime ticks cache log].
      destruct (toISOString _) as [updatedAt|e]; reflexivity. }
    destruct (toISOString (TimeClip (clock rt (ticks st)))) as [updatedAt|e].
    2:{ left. eexists e, _. split; [|exact Start]. reflexivity. }
    right. eexists _, _. intros put. rewrite (Start put). cbv zeta.
    rewrite save_then_return. cbn [cache_put_error ticks cache log].
    rewrite app_three. reflexivity.
  - right. exists (BText text), (ticks st). exact (Raw (or_intror eq_refl)).
Qed.

(** C9, for the raw events operation: a cache that refuses the write
    turns the 200 response into an exception. *)
Lemma refused_cache_write_example :
  run_operation OpEventsRaw configured_env (get_request "/api/events/raw" "" [])
    ctx_of_request (corsHeaders configured_env)
    (world_refusing_writes (runtime_in (fixedZone 0)) (vevent ["DTSTART:20250101"]))
    initial_state
  = (Throw (CacheError "put failed"),
     mkState 0 []
       [EvCacheMatch (get_request "/api/events/raw" "" []);
        EvFetch "https://cal.laget.se/HarnosandsHF.ics";
        EvCachePut (get_request "/api/events/raw" "" [])
          (mkResponse 200 (fresh_headers OpEventsRaw (corsHeaders configured_env))
             (BText (vevent ["DTSTART:20250101"])))]) /\
  fst (run_operation OpEventsRaw configured_env (get_request "/api/events/raw" "" [])
         ctx_of_request (corsHeaders configured_env)
         (world_serving (runtime_in (fixedZone 0)) (vevent ["DTSTART:20250101"]))
         initial_state)
  = Ok (mkResponse 200 (fresh_headers OpEventsRaw (corsHeaders configured_env))
          (BText (vevent ["DTSTART:20250101"]))).
Proof.
  pose proof (proj2 (refused_cache_write_fails_the_request OpEventsRaw configured_env
                       (get_request "/api/events/raw" "" []) ctx_of_request
                       (corsHeaders configured_env) (runtime_in (fixedZone 0))
                       (fun _ => Fetched 200 (vevent ["DTSTART:20250101"])) initial_state
                       200 (vevent ["DTSTART:20250101"]) eq_refl eq_refl eq_refl eq_refl)
                (or_introl eq_refl)) as R.
  split.
  - exact (R (fun _ _ => Some (CacheError "put failed"))).
  - unfold world_serving. rewrite (R (fun _ _ => None)). reflexivity.
Defined.

(** ** What every handler guarantees *)

(** X11.  Every response the worker returns, on any route and whether it
    is fresh, an error or taken from the cache, carries the three CORS
    headers with the values of [corsHeaders]. *)
Theorem every_response_carries_the_cors_headers request env ctx w st res st' :
  fetch request env ctx w st = (Ok res, st') -> cors_present env (res_headers res).
Proof.
  assert (H : forall op, run_operation op env request ctx (corsHeaders env) w st = (Ok res, st') ->
                         cors_present env (res_headers res)).
  { intros op R. apply run_operation_ending in R.
    inversion R; subst; cbn [res_headers badRequest jsonResponse].
    - apply cors_present_set; [apply cors_present_cors | reflexivity..].
    - apply cors_present_withCORS.
    - apply cors_present_cors.
    - unfold fresh_headers.
      apply cors_present_set; [|reflexivity..].
      apply cors_present_set; [apply cors_present_cors | reflexivity..]. }
  unfold fetch.
  destruct (String.eqb _ "/").
  { intros Q. injection Q as <- _. repeat split. }
  destruct (endsWith _ "/api/events/raw"); [exact (H OpEventsRaw)|].
  destruct (endsWith _ "/api/news/raw"); [exact (H OpNewsRaw)|].
  destruct (endsWith _ "/api/events"); [exact (H OpEventsJSON)|].
  destruct (endsWith _ "/api/news"); [exact (H OpNewsJSON)|].
  intros Q. injection Q as <- _. apply cors_present_cors.
Qed.

(** X11, for a response stored without CORS headers and served from the
    cache with the origin the worker is configured for. *)
Lemma cors_headers_example :
  cors_present (mkEnv None (Some "https://news.example/rss") (Some "https://harnosandshf.se"))
    [("content-type", "application/rss+xml; charset=utf-8");
     ("access-control-allow-origin", "https://harnosandshf.se");
     ("access-control-allow-methods", "GET, HEAD, OPTIONS");
     ("access-control-allow-headers", "Content-Type, Cache-Control")].
Proof.
  exact (every_response_carries_the_cors_headers
           (get_request "/api/news/raw" "" [])
           (mkEnv None (Some "https://news.example/rss") (Some "https://harnosandshf.se"))
           ctx_of_request (world_serving (runtime_in (fixedZone 0)) "")
           (mkState 0 [("GET", "https://api.harnosandshf.se/api/news/raw",
                        mkResponse 200 [("content-type", "application/rss+xml; charset=utf-8")]
                          (BText "<rss/>"))] [])
           (mkResponse 200
              [("content-type", "application/rss+xml; charset=utf-8");
               ("access-control-allow-origin", "https://harnosandshf.se");
               ("access-control-allow-methods", "GET, HEAD, OPTIONS");
               ("access-control-allow-headers", "Content-Type, Cache-Control")]
              (BText "<rss/>"))
           _ eq_refl).
Defined.

(** X12.  With its URL configured and nothing in the cache for the
    request, an operation whose upstream fetch is rejected throws the same
    error, and one whose upstream reply is not a success returns 502 with
    the text naming the feed; in both cases after the cache lookup and the
    fetch alone: nothing is parsed and nothing is written to the cache. *)
Theorem upstream_failure_is_passed_on op env request ctx cors w st :
  truthy (required_url op env) = true ->
  cached_for request st = None ->
  (forall e,
      upstream w (str_of (required_url op env)) = FetchRejected e ->
      run_operation op env request ctx cors w st
      = (Throw e, after_events st
           [EvCacheMatch request; EvFetch (str_of (required_url op env))])) /\
  (forall code text,
      upstream w (str_of (required_url op env)) = Fetched code text ->
      response_ok code = false ->
      run_operation op env request ctx cors w st
      = (Ok (text_response 502 cors (failure_message op)),
         after_events st [EvCacheMatch request; EvFetch (str_of (required_url op env))])).
Proof.
  intros Hurl Hmiss.
  destruct (run_operation op env request ctx cors w st) as [o st'] eqn:R.
  apply run_operation_ending in R. split.
  - intros e Hup. destruct R; congruence.
  - intros code text Hup Hok. destruct R; congruence.
Qed.

(** X12, for the events operation with an upstream that answers 503. *)
Lemma upstream_503_example :
  run_operation OpEventsJSON configured_env (get_request "/api/events" "" [])
    ctx_of_request (corsHeaders configured_env)
    (world_answering (runtime_in (fixedZone 0)) 503 "") initial_state
  = (Ok (text_response 502 (corsHeaders configured_env) "Failed to fetch ICS"),
     mkState 0 []
       [EvCacheMatch (get_request "/api/events" "" []);
        EvFetch "https://cal.laget.se/HarnosandsHF.ics"]).
Proof.
  exact (proj2 (upstream_failure_is_passed_on OpEventsJSON configured_env
                  (get_request "/api/events" "" []) ctx_of_request
                  (corsHeaders configured_env)
                  (world_answering (runtime_in (fixedZone 0)) 503 "") initial_state
                  eq_refl eq_refl) 503 "" eq_refl eq_refl).
Defined.

(** X13.  A run of an operation writes to the cache in one case only: the
    cache held nothing for the request, the run returns a response of
    status 200, and that response is the one entry added, for the
    request.  In every other case the cache is left as it was: on a cache
    hit whatever the stored response, on an error response, and when the
    run throws; so a run that finds nothing for the request and leaves
    the cache as it was does not return a 200. *)
Theorem cache_gains_only_the_returned_200 op env request ctx cors w st o st' :
  run_operation op env request ctx cors w st = (o, st') ->
  (exists res, o = Ok res /\ status res = 200 /\
               cached_for request st = None /\
               cache_put_error w request res = None /\
               cache st' = (req_method request, href (req_url request), res) :: cache st) \/
  (cache st' = cache st /\
   (cached_for request st <> None \/ (forall res, o = Ok res -> status res <> 200))).
Proof.
  intros R. apply run_operation_ending in R.
  destruct R as [U|c U C|e U C F|code text U C F K|code text e st' U C F K S|code text b t U C F K P].
  - right. split; [reflexivity|]. right. intros res Q. injection Q as <-. discriminate.
  - right. split; [reflexivity|]. left. congruence.
  - right. split; [reflexivity|]. right. intros res Q. discriminate Q.
  - right. split; [reflexivity|]. right. intros res Q. injection Q as <-. discriminate.
  - right. split; [exact S|]. right. intros res Q. discriminate Q.
  - left. eexists. repeat split; assumption.
Qed.

(** X13, for the raw news operation: on an empty cache the 200 response
    is stored, and nothing was in the cache for the request. *)
Lemma cache_gains_example :
  exists res,
    fst (run_operation OpNewsRaw configured_env (get_request "/api/news/raw" "" [])
           ctx_of_request (corsHeaders configured_env)
           (world_serving (runtime_in (fixedZone 0)) "<rss/>") initial_state) = Ok res /\
    status res = 200 /\
    cached_for (get_request "/api/news/raw" "" []) initial_state = None /\
    cache (snd (run_operation OpNewsRaw configured_env (get_request "/api/news/raw" "" [])
                  ctx_of_request (corsHeaders configured_env)
                  (world_serving (runtime_in (fixedZone 0)) "<rss/>") initial_state))
    = [("GET", "https://api.harnosandshf.se/api/news/raw", res)].
Proof.
  destruct (cache_gains_only_the_returned_200 OpNewsRaw configured_env
              (get_request "/api/news/raw" "" []) ctx_of_request (corsHeaders configured_env)
              (world_serving (runtime_in (fixedZone 0)) "<rss/>") initial_state _ _
              (surjective_pairing _))
    as [(res & Q & S & M & _ & C)|[C _]].
  - exists res. repeat split; assumption.
  - exfalso. revert C. vm_compute. discriminate.
Defined.

Lemma withCORS_fresh op env b :
  withCORS (mkResponse 200 (fresh_headers op (corsHeaders env)) b) (corsHeaders env)
  = mkResponse 200 (fresh_headers op (corsHeaders env)) b.
Proof. reflexivity. Qed.

(** X14.  When an operation, called by the worker on a request the cache
    holds nothing for, returns a 200 response, the same request made
    again in the state it leaves gets the very same response, the
    [updatedAt] of a JSON payload included, after a cache lookup alone. *)
Theorem repeated_request_gets_the_stored_response op env request ctx w st res st1 :
  cached_for request st = None ->
  run_operation op env request ctx (corsHeaders env) w st = (Ok res, st1) ->
  status res = 200 ->
  run_operation op env request ctx (corsHeaders env) w st1
  = (Ok res, after_events st1 [EvCacheMatch request]).
Proof.
  intros Hmiss R Hst. apply run_operation_ending in R.
  inversion R; subst; try congruence; try discriminate Hst.
  match goal with |- run_operation _ _ _ _ _ _ ?s = _ => set (st1 := s) end.
  destruct (run_operation op env request ctx (corsHeaders env) w st1) as [o st2] eqn:R2.
  apply run_operation_ending in R2.
  assert (Hhit : cached_for request st1
                 = Some (mkResponse 200 (fresh_headers op (corsHeaders env)) b)).
  { unfold cached_for, st1. cbn [cache cache_lookup]. rewrite !String.eqb_refl. reflexivity. }
  inversion R2; subst; try congruence.
  match goal with H : cached_for request st1 = Some ?c |- _ =>
    rewrite Hhit in H; injection H as <- end.
  rewrite withCORS_fresh. reflexivity.
Qed.

(** X14, for two requests of the news in a row: the clock has moved on,
    the second answer still carries the first one's [updatedAt]. *)
Lemma repeated_request_example :
  exists res st1,
    run_operation OpNewsJSON configured_env (get_request "/api/news" "" [])
      ctx_of_request (corsHeaders configured_env)
      (world_serving (mkRuntime (fixedZone 0) (fun n => 1735689600000 + Z.of_nat n * 1000)
                        (fun _ => None)) (rss_item "a" "2025-01-01T00:00:00Z"))
      initial_state = (Ok res, st1) /\
    run_operation OpNewsJSON configured_env (get_request "/api/news" "" [])
      ctx_of_request (corsHeaders configured_env)
      (world_serving (mkRuntime (fixedZone 0) (fun n => 1735689600000 + Z.of_nat n * 1000)
                        (fun _ => None)) (rss_item "a" "2025-01-01T00:00:00Z"))
      st1 = (Ok res, after_events st1 [EvCacheMatch (get_request "/api/news" "" [])]).
Proof.
  eexists _, _. split.
  - vm_compute. reflexivity.
  - apply (repeated_request_gets_the_stored_response OpNewsJSON configured_env
             (get_request "/api/news" "" []) ctx_of_request _ initial_state).
    + reflexivity.
    + vm_compute. reflexivity.
    + reflexivity.
Defined.

(* ================================================================== *)
(** * Properties of the routing and of the events window *)

(** ** Routing *)

Lemma strip_trailing_slashes_slashes n : strip_trailing_slashes (slashes n) = "".
Proof. induction n as [|k IH]; cbn [slashes strip_trailing_slashes]; [|rewrite IH]; reflexivity. Qed.

Lemma strip_trailing_slashes_app s n :
  strip_trailing_slashes (s ++ slashes n) = strip_trailing_slashes s.
Proof.
  induction s as [|c r IH]; cbn [append strip_trailing_slashes].
  - apply strip_trailing_slashes_slashes.
  - rewrite IH. reflexivity.
Qed.

Lemma strip_trailing_slashes_keeps s c :
  last_char s = Some c -> Ascii.eqb c "/" = false -> strip_trailing_slashes s = s.
Proof.
  induction s as [|a r IH]; [discriminate|].
  intros L N. cbn [strip_trailing_slashes]. destruct r as [|b r'].
  - cbn [last_char] in L. injection L as ->. cbn [strip_trailing_slashes]. rewrite N. reflexivity.
  - rewrite (IH L N). reflexivity.
Qed.

Lemma last_char_app a b : b <> "" -> last_char (a ++ b) = last_char b.
Proof.
  intros Hb. induction a as [|c r IH]; [reflexivity|].
  cbn [append]. destruct (r ++ b) as [|d t] eqn:E.
  - destruct r; [cbn in E; contradiction | discriminate].
  - exact IH.
Qed.

Lemma length_app a b : String.length (a ++ b) = (String.length a + String.length b)%nat.
Proof. induction a as [|c r IH]; cbn [append String.length]; [|rewrite IH]; reflexivity. Qed.

Lemma slice_from_app a b : slice_from (String.length a) (a ++ b) = b.
Proof. induction a as [|c r IH]; [destruct b; reflexivity | exact IH]. Qed.

Lemma slice_from_add n m s : slice_from (n + m) s = slice_from m (slice_from n s).
Proof.
  revert s. induction n as [|k IH]; intros s; [reflexivity|].
  destruct s as [|c r]; cbn [Nat.add slice_from]; [destruct m; reflexivity | apply IH].
Qed.

Lemma endsWith_app a p : endsWith (a ++ p) p = true.
Proof.
  unfold endsWith. rewrite length_app.
  replace (String.length a + String.length p - String.length p)%nat
    with (String.length a) by lia.
  rewrite slice_from_app, String.eqb_refl, andb_true_r.
  apply Nat.leb_le. lia.
Qed.

(** A text that ends with [p] and with the shorter [b] shows [b] at the
    end of [p]. *)
Lemma endsWith_suffix a b p :
  endsWith (a ++ b) p = true -> (String.length b <= String.length p)%nat ->
  slice_from (String.length p - String.length b) p = b.
Proof.
  unfold endsWith. intros H Hlen. apply andb_prop in H. destruct H as [L E].
  apply Nat.leb_le in L. apply String.eqb_eq in E. rewrite length_app in *.
  set (n := (String.length a + String.length b - String.length p)%nat) in *.
  set (m := (String.length p - String.length b)%nat).
  assert (Hs : slice_from (n + m) (a ++ b) = b).
  { replace (n + m)%nat with (String.length a) by (unfold n, m; lia). apply slice_from_app. }
  rewrite slice_from_add, E in Hs. exact Hs.
Qed.

Lemma endsWith_not a b p :
  (String.length b <= String.length p)%nat ->
  String.eqb (slice_from (String.length p - String.length b) p) b = false ->
  endsWith (a ++ b) p = false.
Proof.
  intros Hlen N. destruct (endsWith (a ++ b) p) eqn:E; [|reflexivity].
  rewrite (endsWith_suffix a b p E Hlen), String.eqb_refl in N. discriminate.
Qed.

Lemma route_path prefix suffix n c :
  last_char suffix = Some c -> Ascii.eqb c "/" = false ->
  strip_trailing_slashes (prefix ++ suffix ++ slashes n) = prefix ++ suffix.
Proof.
  intros L N.
  replace (prefix ++ suffix ++ slashes n) with ((prefix ++ suffix) ++ slashes n).
  - rewrite strip_trailing_slashes_app.
    apply (strip_trailing_slashes_keeps _ c); [|exact N].
    rewrite last_char_app; [exact L|]. destruct suffix; discriminate.
  - induction prefix as [|a r IH]; [reflexivity|]. cbn [append]. rewrite IH. reflexivity.
Qed.

Lemma not_root prefix suffix :
  (2 <= String.length suffix)%nat -> String.eqb (prefix ++ suffix) "/" = false.
Proof.
  intros H. apply String.eqb_neq. intros E.
  apply (f_equal String.length) in E. rewrite length_app in E. cbn in E. lia.
Qed.

(** X15.  Whatever precedes it in the path and however many slashes
    follow it, a path that ends with the name of an operation is handled
    by that operation: [/api/events], [/api/events/raw], [/api/news] and
    [/api/news/raw]. *)
Theorem routes_accept_a_prefix_and_trailing_slashes method href query env ctx prefix n :
  let cors := corsHeaders env in
  let to path := request_for method href (prefix ++ path ++ slashes n) query in
  fetch (to "/api/events") env ctx
  = eventsJSON env (req_url (to "/api/events")) (to "/api/events") ctx cors /\
  fetch (to "/api/events/raw") env ctx = rawICS env (to "/api/events/raw") ctx cors /\
  fetch (to "/api/news") env ctx
  = newsJSON env (req_url (to "/api/news")) (to "/api/news") ctx cors /\
  fetch (to "/api/news/raw") env ctx = rawRSS env (to "/api/news/raw") ctx cors.
Proof.
  cbv zeta. unfold fetch, request_for. cbn [req_url pathname]. repeat split.
  - rewrite (route_path prefix "/api/events" n "s" eq_refl eq_refl).
    rewrite not_root by (cbn; lia).
    rewrite (endsWith_not prefix "/api/events" "/api/events/raw") by (cbn; first [lia|reflexivity]).
    rewrite (endsWith_not prefix "/api/events" "/api/news/raw") by (cbn; first [lia|reflexivity]).
    rewrite endsWith_app. reflexivity.
  - rewrite (route_path prefix "/api/events/raw" n "w" eq_refl eq_refl).
    rewrite not_root by (cbn; lia).
    rewrite endsWith_app. reflexivity.
  - rewrite (route_path prefix "/api/news" n "s" eq_refl eq_refl).
    rewrite not_root by (cbn; lia).
    rewrite (endsWith_not prefix "/api/news" "/api/events/raw") by (cbn; first [lia|reflexivity]).
    rewrite (endsWith_not prefix "/api/news" "/api/news/raw") by (cbn; first [lia|reflexivity]).
    rewrite (endsWith_not prefix "/api/news" "/api/events") by (cbn; first [lia|reflexivity]).
    rewrite endsWith_app. reflexivity.
  - rewrite (route_path prefix "/api/news/raw" n "w" eq_refl eq_refl).
    rewrite not_root by (cbn; lia).
    rewrite (endsWith_not prefix "/api/news/raw" "/api/events/raw") by (cbn; first [lia|reflexivity]).
    rewrite endsWith_app. reflexivity.
Qed.

(** ** The window of the events operation *)

Lemma MonthFromTime_range t : 0 <= MonthFromTime t <= 11.
Proof.
  unfold MonthFromTime. cbv zeta.
  repeat match goal with |- context [if ?b then _ else _] => destruct b end; lia.
Qed.

Lemma MakeDay_of_fields t :
  MakeDay (YearFromTime t) (MonthFromTime t) (DateFromTime t) = Day t.
Proof.
  pose proof (MonthFromTime_range t) as R.
  unfold MakeDay, DateFromTime, DayWithinYear, InLeapYear. cbv zeta.
  rewrite (Z.div_small (MonthFromTime t) 12) by lia.
  rewrite (Z.mod_small (MonthFromTime t) 12) by lia.
  rewrite Z.add_0_r. lia.
Qed.

Lemma YearFromDay_lower d : 0 <= d -> 1969 <= YearFromDay d.
Proof.
  intros H. unfold YearFromDay. cbv zeta.
  assert (0 <= 400 * d / 146097) by (apply Z.div_pos; lia).
  repeat match goal with |- context [if ?b then _ else _] => destruct b end; lia.
Qed.

Lemma startOfDayUTC_floor now :
  0 <= now <= maxTime ->
  startOfDayUTC now = Some (now - now mod msPerDay).
Proof.
  intros H. unfold startOfDayUTC, DateUTC.
  assert (Y : 1969 <= YearFromTime now).
  { apply YearFromDay_lower. unfold Day, msPerDay. apply Z.div_pos; lia. }
  replace ((0 <=? YearFromTime now) && (YearFromTime now <=? 99)) with false.
  2:{ symmetry. apply andb_false_iff. right. apply Z.leb_gt. lia. }
  rewrite MakeDay_of_fields. unfold MakeDate, Day.
  assert (E : now / msPerDay * msPerDay + 0 = now - now mod msPerDay).
  { unfold msPerDay. pose proof (Z.div_mod now 86400000 ltac:(lia)). lia. }
  rewrite E. apply TimeClip_in_range.
  unfold msPerDay, maxTime in *. pose proof (Z.mod_pos_bound now 86400000 ltac:(lia)). lia.
Qed.

(** X16.  For a clock reading from 1970 on, [startOfDayUTC] gives the
    last midnight UTC not after it: the reading less what has passed of
    its UTC day. *)
Theorem startOfDayUTC_is_the_last_utc_midnight now :
  0 <= now <= maxTime ->
  startOfDayUTC now = Some (now - now mod msPerDay) /\
  (now - now mod msPerDay) mod msPerDay = 0 /\
  now - msPerDay < now - now mod msPerDay <= now.
Proof.
  intros H. split; [apply startOfDayUTC_floor; exact H|].
  unfold msPerDay. pose proof (Z.mod_pos_bound now 86400000 ltac:(lia)).
  split; [|lia].
  rewrite Zminus_mod, Z.mod_mod, Z.sub_diag by lia. reflexivity.
Qed.

(** X16, for 1 January 2025 at 10:00 UTC. *)
Lemma startOfDayUTC_example :
  startOfDayUTC 1735725600000 = Some 1735689600000.
Proof.
  refine (proj1 (startOfDayUTC_is_the_last_utc_midnight 1735725600000 _)).
  unfold maxTime. lia.
Defined.

(** ** Whole numbers are exact *)

Lemma Qred_inject_Z n : Qred (inject_Z n) = inject_Z n.
Proof.
  unfold Qred, inject_Z.
  pose proof (Z.ggcd_gcd n 1) as G. pose proof (Z.ggcd_correct_divisors n 1) as D.
  destruct (Z.ggcd n 1) as [g [aa bb]]. cbn [fst] in G. rewrite Z.gcd_1_r in G. subst g.
  destruct D as [D1 D2]. rewrite Z.mul_1_l in D1, D2. subst aa bb. reflexivity.
Qed.

Lemma Qred_integer n k : 0 < k -> Qred (Qmake (n * k) (Z.to_pos k)) = inject_Z n.
Proof.
  intros Hk.
  transitivity (Qred (inject_Z n)).
  - apply Qred_complete. unfold Qeq, inject_Z. cbn [Qnum Qden].
    rewrite Z2Pos.id by exact Hk. ring.
  - apply Qred_inject_Z.
Qed.

Lemma round_pos_integer n :
  0 < n < 2 ^ 53 -> round_pos n 1 = Fin (inject_Z n).
Proof.
  intros H. unfold round_pos. cbv zeta.
  assert (L : 0 <= Z.log2 n <= 52).
  { split; [apply Z.log2_nonneg|].
    assert (Z.log2 n < 53) by (apply Z.log2_lt_pow2; lia). lia. }
  assert (I : ilog2 n 1 = Z.log2 n).
  { unfold ilog2. cbv zeta. replace (Z.log2 1) with 0 by reflexivity. rewrite Z.sub_0_r.
    replace (0 <=? Z.log2 n) with true by (symmetry; apply Z.leb_le; lia).
    replace (1 * 2 ^ Z.log2 n <=? n) with true; [reflexivity|].
    symmetry. apply Z.leb_le. pose proof (Z.log2_spec n ltac:(lia)). lia. }
  rewrite I. rewrite (Z.max_l (Z.log2 n) (-1022)) by lia.
  set (p := Z.log2 n - 52).
  assert (Hp : -52 <= p <= 0) by (unfold p; lia).
  assert (R1 : forall a, round_half_even a 1 = a).
  { intros a. unfold round_half_even. cbv zeta. rewrite Z.mod_1_r, Z.div_1_r. reflexivity. }
  replace (971 <? p) with false by (symmetry; apply Z.ltb_ge; lia).
  replace (p =? 971) with false by (symmetry; apply Z.eqb_neq; lia).
  cbn [orb andb]. unfold scale2.
  destruct (0 <=? p) eqn:E.
  - apply Z.leb_le in E. assert (p = 0) as -> by lia.
    change (2 ^ 0) with 1. rewrite !Z.mul_1_r, R1. reflexivity.
  - rewrite R1. f_equal. apply Qred_integer. apply Z.pow_pos_nonneg; lia.
Qed.

Lemma round_integer n : 0 <= n < 2 ^ 53 -> round (inject_Z n) = Fin (inject_Z n).
Proof.
  intros H. unfold round. cbn [inject_Z Qnum Qden].
  destruct n as [|p|p]; [reflexivity| |lia].
  apply round_pos_integer. lia.
Qed.

Lemma mul_integers a b :
  0 <= a * b < 2 ^ 53 -> mul (ofZ a) (ofZ b) = ofZ (a * b).
Proof.
  intros H. unfold mul, ofZ.
  change (inject_Z a * inject_Z b)%Q with (inject_Z (a * b)).
  apply round_integer. exact H.
Qed.

Lemma add_integers a b :
  0 <= a + b < 2 ^ 53 -> add (ofZ a) (ofZ b) = ofZ (a + b).
Proof.
  intros H. unfold add, ofZ.
  replace (inject_Z a + inject_Z b)%Q with (inject_Z (a + b)).
  - apply round_integer. exact H.
  - unfold Qplus, inject_Z. cbn [Qnum Qden]. rewrite !Z.mul_1_r. reflexivity.
Qed.

Lemma trunc_integer n : trunc (inject_Z n) = n.
Proof. unfold trunc. cbn [inject_Z Qnum Qden]. apply Z.quot_1_r. Qed.

Lemma events_until_whole_days now d :
  0 <= now <= maxTime -> 1 <= d <= 3650 ->
  events_until now (ofZ d) = TimeClip (now + d * 86400000).
Proof.
  intros Hn Hd. unfold events_until, maxTime in *.
  rewrite (mul_integers d 24) by lia.
  rewrite (mul_integers (d * 24) 3600) by lia.
  rewrite (mul_integers (d * 24 * 3600) 1000) by lia.
  rewrite add_integers by lia.
  unfold toTimeValue, ofZ. rewrite trunc_integer. f_equal. lia.
Qed.

Lemma events_days_blank url v :
  searchParams_get "days" (searchParams url) = Some v -> trim v = "" ->
  events_days url = ofZ 1.
Proof.
  intros Hq Hv. unfold events_days, int. rewrite Hq. unfold StringToNumber. rewrite Hv.
  reflexivity.
Qed.

(** X10.  For a clock reading from 1970 on and a whole number of days
    between 1 and 3650, the horizon of the events operation is the
    reading plus that many times 86 400 000 ms, exactly (invalid when
    past the last time value); without a [days] parameter it is 365 days
    after the reading, and with a [days] parameter that is empty or blank
    it is one day after it. *)
Theorem horizon_of_whole_days now d url :
  0 <= now <= maxTime -> 1 <= d <= 3650 ->
  events_until now (ofZ d) = TimeClip (now + d * 86400000) /\
  (searchParams_get "days" (searchParams url) = None ->
   events_until now (events_days url) = TimeClip (now + 365 * 86400000)) /\
  (forall v, searchParams_get "days" (searchParams url) = Some v -> trim v = "" ->
             events_until now (events_days url) = TimeClip (now + 1 * 86400000)).
Proof.
  intros Hn Hd. split; [apply events_until_whole_days; assumption|]. split.
  - intros Hq. rewrite events_days_default by exact Hq.
    apply events_until_whole_days; [exact Hn | lia].
  - intros v Hq Hv. rewrite (events_days_blank url v Hq Hv).
    apply events_until_whole_days; [exact Hn | lia].
Qed.

(** X10, for thirty days from 1 January 2025. *)
Lemma horizon_example :
  events_until 1735689600000 (ofZ 30) = Some 1738281600000.
Proof.
  refine (proj1 (horizon_of_whole_days 1735689600000 30
                   (mkURL "https://api.harnosandshf.se/api/events" "/api/events" []) _ _)).
  - unfold maxTime. lia.
  - lia.
Defined.

Lemma time_le_true a b : time_le a b = true <-> exists x y, a = Some x /\ b = Some y /\ x <= y.
Proof.
  unfold time_le. split.
  - destruct a as [x|], b as [y|]; try discriminate.
    intros H. apply Z.leb_le in H. exists x, y. repeat split; assumption.
  - intros (x & y & -> & -> & H). apply Z.leb_le. exact H.
Qed.

Lemma descending_opp {A} (key : A -> Z) l :
  descending (fun a => - key a) l -> ascending key l.
Proof.
  unfold descending, ascending. induction 1 as [|a l S IH F]; constructor; [exact IH|].
  rewrite Forall_forall in *. intros b Hb. specialize (F b Hb). cbv beta in F. lia.
Qed.

(** X18.  For a clock reading from 1970 on, the upcoming events are
    exactly the events of the feed whose start the engine reads as an
    instant between the last midnight UTC and the horizon, both included
    (none when the horizon is invalid), and they are in ascending order of
    that instant. *)
Theorem upcoming_events_are_in_the_window_in_order rt now until events :
  0 <= now <= maxTime ->
  (forall ev, In ev (events_upcoming rt now until events) <->
     In ev events /\
     exists t u, Date_parse rt (ev_start ev) = Some t /\ until = Some u /\
                 now - now mod msPerDay <= t <= u) /\
  ascending (start_time rt) (events_upcoming rt now until events).
Proof.
  intros Hnow. unfold events_upcoming.
  rewrite (startOfDayUTC_floor now Hnow).
  assert (F : forall ev,
             In ev (filter (fun ev => time_le (Some (now - now mod msPerDay))
                                        (Date_parse rt (ev_start ev))
                                      && time_le (Date_parse rt (ev_start ev)) until) events)
             <-> In ev events /\
                 exists t u, Date_parse rt (ev_start ev) = Some t /\ until = Some u /\
                             now - now mod msPerDay <= t <= u).
  { intros ev. rewrite filter_In, andb_true_iff, !time_le_true. split.
    - intros (I & (x & y & Ex & Ey & L1) & (x' & y' & Ex' & Ey' & L2)).
      split; [exact I|]. injection Ex as <-. rewrite Ey in Ex'. injection Ex' as <-.
      exists y, y'. repeat split; assumption.
    - intros (I & t & u & Et & Eu & L1 & L2). split; [exact I|]. split.
      + exists (now - now mod msPerDay), t. repeat split; assumption.
      + exists t, u. repeat split; assumption. }
  split.
  - intros ev. rewrite js_sort_In. apply F.
  - apply descending_opp.
    apply (js_sort_descending _ (fun ev => - start_time rt ev)
             (fun ev => Date_parse rt (ev_start ev) <> None)).
    + intros a b Ha Hb. unfold start_time.
      destruct (Date_parse rt (ev_start a)); [|contradiction].
      destruct (Date_parse rt (ev_start b)); [|contradiction].
      cbn [num_sub]. f_equal. lia.
    + apply Forall_forall. intros ev Hev. apply F in Hev.
      destruct Hev as (_ & t & u & Et & _). rewrite Et. discriminate.
Qed.

(** X18, for three events given out of order, one of them before the
    window. *)
Lemma upcoming_events_example :
  ascending (start_time (runtime_in (fixedZone 0)))
    (events_upcoming (runtime_in (fixedZone 0)) 1735725600000 (Some 1738281600000)
       [mkEvent "2025-01-03T00:00:00.000Z" "" false "c" "" "" "" "Laget.se";
        mkEvent "2024-12-31T00:00:00.000Z" "" false "a" "" "" "" "Laget.se";
        mkEvent "2025-01-01T00:00:00.000Z" "" false "b" "" "" "" "Laget.se"]) /\
  map ev_summary
    (events_upcoming (runtime_in (fixedZone 0)) 1735725600000 (Some 1738281600000)
       [mkEvent "2025-01-03T00:00:00.000Z" "" false "c" "" "" "" "Laget.se";
        mkEvent "2024-12-31T00:00:00.000Z" "" false "a" "" "" "" "Laget.se";
        mkEvent "2025-01-01T00:00:00.000Z" "" false "b" "" "" "" "Laget.se"]) = ["b"; "c"].
Proof.
  split; [|vm_compute; reflexivity].
  refine (proj2 (upcoming_events_are_in_the_window_in_order (runtime_in (fixedZone 0))
                   1735725600000 (Some 1738281600000) _ _)).
  unfold maxTime. lia.
Defined.

(** ** How many entries a reply holds *)

Lemma trunc_bounds q a b :
  0 <= a -> (inject_Z a <= q)%Q -> (q <= inject_Z b)%Q -> a <= trunc q <= b.
Proof.
  intros Ha L U. unfold trunc, Qle, inject_Z in *. cbn [Qnum Qden] in *.
  destruct q as [n d]. cbn [Qnum Qden] in *. rewrite Z.mul_1_r in *.
  assert (0 <= n) by nia.
  rewrite Z.quot_div_nonneg by lia.
  split.
  - apply Z.div_le_lower_bound; lia.
  - apply Z.div_le_upper_bound; lia.
Qed.

(** X19.  Whatever [limit] says, the entries a JSON reply holds are a
    prefix of the matches, at most 500 of them, and at least one when
    there is a match. *)
Theorem a_reply_holds_between_one_and_500_entries {A} url (matches : list A) :
  let returned := slice0 (result_limit url matches) matches in
  (Nat.min 1 (List.length matches) <= List.length returned)%nat /\
  (List.length returned <= Nat.min 500 (List.length matches))%nat /\
  returned = firstn (List.length returned) matches.
Proof.
  cbv zeta. destruct (result_limit_in_range url matches) as (q & -> & L & U).
  pose proof (trunc_bounds q 1 500 ltac:(lia) L U) as B.
  unfold slice0. replace (trunc q <? 0) with false by (symmetry; apply Z.ltb_ge; lia).
  rewrite length_firstn.
  split; [lia|]. split; [lia|].
  destruct (Nat.le_ge_cases (Z.to_nat (trunc q)) (List.length matches)) as [C|C].
  - rewrite Nat.min_l by exact C. reflexivity.
  - rewrite Nat.min_r by exact C. rewrite firstn_all. apply firstn_all2. exact C.
Qed.

(* ================================================================== *)
(** * Properties of the calendar parser *)

(** ** The normaliser, case by case *)

(** The three encodings exclude one another: they differ in length. *)
Lemma dateOnly_excludes s :
  dateOnly s = true -> dateTimeZ s = false /\ dateTimeLocal s = false.
Proof.
  intros H. destruct (dateOnly_inv s H) as (c1&c2&c3&c4&c5&c6&c7&c8&->&_).
  split; reflexivity.
Qed.

Lemma dateTimeLocal_excludes s :
  dateTimeLocal s = true -> dateOnly s = false /\ dateTimeZ s = false.
Proof.
  intros H.
  destruct (dateTimeLocal_inv s H)
    as (c1&c2&c3&c4&c5&c6&c7&c8&h1&h2&m1&m2&s1&s2&->&_).
  split; reflexivity.
Qed.

Lemma dateTimeZ_excludes s :
  dateTimeZ s = true -> dateOnly s = false /\ dateTimeLocal s = false.
Proof.
  intros H. destruct (dateTimeZ_inv s H) as (l & -> & L).
  destruct (dateTimeLocal_inv l L)
    as (c1&c2&c3&c4&c5&c6&c7&c8&h1&h2&m1&m2&s1&s2&->&_).
  split; reflexivity.
Qed.

Ltac end_of_run :=
  intros Q; injection Q as <- <-.

(** X20.  Whenever the normaliser returns, [isAllDay] tells whether
    DTSTART is a bare date, and the clock has been read once if DTSTART
    has none of the three encodings and not at all otherwise; the cache
    and the log are as they were. *)
Theorem all_day_flag_and_clock_use dtstart dtend w st d st' :
  normalizeDates dtstart dtend w st = (Ok d, st') ->
  d_isAllDay d = (truthy dtstart && dateOnly (str_of dtstart)) /\
  st' = if recognised dtstart then st else mkState (S (ticks st)) (cache st) (log st).
Proof.
  unfold normalizeDates, recognised. rewrite bind_run, ask_runtime_run.
  destruct (truthy dtstart) eqn:T; cbn [andb].
  2:{ rewrite bind_run, Date_now_run, bind_run, liftO_run.
      destruct (toISOString _); [|discriminate]. end_of_run. split; reflexivity. }
  destruct (dateOnly (str_of dtstart)) eqn:A.
  { cbn [orb]. rewrite bind_run, liftO_run.
    destruct (toUTCStringFromLocalParts _ _ _) as [s|e]; [|discriminate].
    destruct (truthy dtend && dateOnly (str_of dtend)).
    - rewrite bind_run, liftO_run.
      destruct (toUTCStringFromLocalParts _ _ _); [|discriminate].
      end_of_run. split; reflexivity.
    - rewrite bind_run, liftO_run.
      destruct (toISOString _); [|discriminate]. end_of_run. split; reflexivity. }
  destruct (dateTimeZ (str_of dtstart)) eqn:B.
  { cbn [orb]. rewrite bind_run, liftO_run.
    destruct (isoFromICSUTC _ _) as [s|e]; [|discriminate].
    rewrite bind_run, liftO_run.
    match goal with |- context [match ?x with Ok _ => _ | Throw _ => _ end] =>
      destruct x end; [|discriminate].
    end_of_run. split; reflexivity. }
  destruct (dateTimeLocal (str_of dtstart)) eqn:C.
  { cbn [orb]. rewrite bind_run, liftO_run.
    destruct (toUTCStringFromLocalDateTime _ _) as [s|e]; [|discriminate].
    rewrite bind_run, liftO_run.
    match goal with |- context [match ?x with Ok _ => _ | Throw _ => _ end] =>
      destruct x end; [|discriminate].
    end_of_run. split; reflexivity. }
  cbn [orb]. rewrite bind_run, Date_now_run, bind_run, liftO_run.
  destruct (toISOString _); [|discriminate]. end_of_run. split; reflexivity.
Qed.

(** X20, for a UTC date-time. *)
Lemma all_day_flag_example :
  false = (truthy (Some "20250615T180000Z") && dateOnly (str_of (Some "20250615T180000Z"))) /\
  initial_state = (if recognised (Some "20250615T180000Z") then initial_state
                   else mkState 1 [] []).
Proof.
  refine (all_day_flag_and_clock_use (Some "20250615T180000Z") None
            (world_serving (runtime_in (fixedZone 0)) "") initial_state
            (mkDates "2025-06-15T18:00:00.000Z" "2025-06-15T18:00:00.000Z" false)
            initial_state _).
  vm_compute. reflexivity.
Defined.

(** X21.  An event whose DTSTART has a time of day and whose DTEND is
    absent, empty, a bare date or unrecognised gets its start as its end. *)
Theorem timed_event_without_end_ends_at_its_start dtstart dtend w st d st' :
  timed dtstart = true -> timed dtend = false ->
  normalizeDates dtstart dtend w st = (Ok d, st') -> d_end d = d_start d.
Proof.
  unfold timed. intros Hs He.
  apply andb_prop in Hs. destruct Hs as [T Hs].
  unfold normalizeDates. rewrite bind_run, ask_runtime_run. rewrite T. cbn [andb].
  assert (Ee : truthy dtend = false \/
               (dateTimeZ (str_of dtend) = false /\ dateTimeLocal (str_of dtend) = false)).
  { apply andb_false_iff in He. destruct He as [He|He]; [left; exact He|].
    right. apply orb_false_iff in He. exact He. }
  destruct (dateTimeZ (str_of dtstart)) eqn:B.
  - destruct (dateTimeZ_excludes _ B) as [A C]. rewrite A.
    rewrite bind_run, liftO_run.
    destruct (isoFromICSUTC _ (str_of dtstart)) as [s|e] eqn:I; [|discriminate].
    rewrite bind_run, liftO_run.
    destruct Ee as [Ee|[E1 E2]].
    + rewrite Ee. end_of_run. reflexivity.
    + rewrite E1, E2. destruct (truthy dtend); end_of_run; reflexivity.
  - cbn [orb] in Hs. destruct (dateTimeLocal_excludes _ Hs) as [A _]. rewrite A, Hs.
    rewrite bind_run, liftO_run.
    destruct (toUTCStringFromLocalDateTime _ (str_of dtstart)) as [s|e]; [|discriminate].
    rewrite bind_run, liftO_run.
    destruct Ee as [Ee|[E1 E2]].
    + rewrite Ee. end_of_run. reflexivity.
    + rewrite E1, E2. destruct (truthy dtend); end_of_run; reflexivity.
Qed.

(** X21, for a floating start with a bare date as end. *)
Lemma timed_event_without_end_example :
  d_end (mkDates "2025-06-15T18:00:00.000Z" "2025-06-15T18:00:00.000Z" false)
  = d_start (mkDates "2025-06-15T18:00:00.000Z" "2025-06-15T18:00:00.000Z" false).
Proof.
  refine (timed_event_without_end_ends_at_its_start (Some "20250615T180000") (Some "20250616")
            (world_serving (runtime_in (fixedZone 0)) "") initial_state
            (mkDates "2025-06-15T18:00:00.000Z" "2025-06-15T18:00:00.000Z" false)
            initial_state eq_refl eq_refl _).
  vm_compute. reflexivity.
Defined.

(** ** Values that name no date or time *)

Lemma legal_fields_false y m d h mi s ms utc :
  m < 1 \/ 12 < m \/ d < 1 \/ 31 < d \/ 24 < h \/ 59 < mi \/ 59 < s ->
  legal_fields (mkFields y m d h mi s ms utc) = false.
Proof.
  intros H. unfold legal_fields. cbn [f_month f_day f_hour f_min f_sec f_ms].
  destruct (1 <=? m) eqn:E1; [|reflexivity].
  destruct (m <=? 12) eqn:E2; [|reflexivity].
  destruct (1 <=? d) eqn:E3; [|reflexivity].
  destruct (d <=? 31) eqn:E4; [|reflexivity].
  apply Z.leb_le in E1, E2, E3, E4. cbn [andb].
  destruct (h <=? 23) eqn:E5; cbn [andb orb].
  - apply Z.leb_le in E5.
    destruct (mi <=? 59) eqn:E6; cbn [andb orb].
    + apply Z.leb_le in E6. destruct (s <=? 59) eqn:E7; cbn [andb orb].
      * apply Z.leb_le in E7. lia.
      * apply Z.leb_gt in E7.
        replace (h =? 24) with false by (symmetry; apply Z.eqb_neq; lia). reflexivity.
    + replace (h =? 24) with false by (symmetry; apply Z.eqb_neq; lia). reflexivity.
  - apply Z.leb_gt in E5.
    destruct (h =? 24) eqn:E8; [|reflexivity]. apply Z.eqb_eq in E8. cbn [andb].
    destruct (mi =? 0) eqn:E9; [|reflexivity]. apply Z.eqb_eq in E9. cbn [andb].
    destruct (s =? 0) eqn:E10; [|reflexivity]. apply Z.eqb_eq in E10. lia.
Qed.

Lemma token_slices_Z l :
  dateTimeLocal l = true ->
  token_month (l ++ "Z") = token_month l /\ token_day (l ++ "Z") = token_day l /\
  token_hour (l ++ "Z") = token_hour l /\ token_minute (l ++ "Z") = token_minute l /\
  token_second (l ++ "Z") = token_second l /\ token_year (l ++ "Z") = token_year l /\
  (forall tail, token_stamp (l ++ "Z") tail = token_stamp l tail).
Proof.
  intros H.
  destruct (dateTimeLocal_inv l H)
    as (c1&c2&c3&c4&c5&c6&c7&c8&h1&h2&m1&m2&s1&s2&->&_).
  repeat split.
Qed.

Lemma isoFromICSUTC_stamp rt l :
  dateTimeLocal l = true ->
  isoFromICSUTC rt (l ++ "Z") = toISOString (Date_parse rt (token_stamp l "Z")).
Proof.
  intros H. unfold isoFromICSUTC, token_stamp, stamp. cbv zeta.
  destruct (dateTimeLocal_inv l H)
    as (c1&c2&c3&c4&c5&c6&c7&c8&h1&h2&m1&m2&s1&s2&->&_). reflexivity.
Qed.

Lemma toUTCStringFromLocalDateTime_stamp rt s :
  dateTimeLocal s = true ->
  toUTCStringFromLocalDateTime rt s
  = toISOString (shift_by_timezone_offset rt (Date_parse rt (token_stamp s ""))).
Proof.
  intros H. unfold toUTCStringFromLocalDateTime, token_stamp, stamp. cbv zeta.
  destruct (dateTimeLocal_inv s H)
    as (c1&c2&c3&c4&c5&c6&c7&c8&h1&h2&m1&m2&s1&s2&->&_). reflexivity.
Qed.

Lemma parse_impossible rt s (utc : bool) :
  dateTimeLocal s = true -> impossible_fields s ->
  Date_parse rt (token_stamp s (if utc then "Z" else "")) = None.
Proof.
  intros Hs Hi. unfold Date_parse, parse. rewrite iso_fields_token by exact Hs.
  replace (take_tail (if utc then "Z" else "")) with (Some (0, utc))
    by (destruct utc; reflexivity).
  cbn [obnd]. unfold fields_time. rewrite legal_fields_false by exact Hi. reflexivity.
Qed.

Lemma isoFromICSUTC_throws rt s :
  dateTimeZ s = true -> impossible_fields s ->
  isoFromICSUTC rt s = Throw (RangeError "Invalid time value").
Proof.
  intros Hs Hi. destruct (dateTimeZ_inv s Hs) as (l & -> & L).
  destruct (token_slices_Z l L) as (E1&E2&E3&E4&E5&_).
  unfold impossible_fields in Hi. rewrite E1, E2, E3, E4, E5 in Hi.
  rewrite isoFromICSUTC_stamp by exact L.
  rewrite (parse_impossible rt l true L Hi). reflexivity.
Qed.

Lemma toUTCStringFromLocalDateTime_throws rt s :
  dateTimeLocal s = true -> impossible_fields s ->
  toUTCStringFromLocalDateTime rt s = Throw (RangeError "Invalid time value").
Proof.
  intros Hs Hi. rewrite toUTCStringFromLocalDateTime_stamp by exact Hs.
  rewrite (parse_impossible rt s false Hs Hi). reflexivity.
Qed.

Lemma toUTCStringFromLocalParts_throws rt s :
  dateOnly s = true -> impossible_fields s ->
  toUTCStringFromLocalParts rt s "000000" = Throw (RangeError "Invalid time value").
Proof.
  intros Hs Hi.
  destruct (dateOnly_inv s Hs)
    as (c1&c2&c3&c4&c5&c6&c7&c8&->&D1&D2&D3&D4&D5&D6&D7&D8).
  unfold toUTCStringFromLocalParts. cbv zeta.
  match goal with
  | |- context [Date_parse rt ?x] =>
      replace x with
        (stamp (four c1 c2 c3 c4) (two c5 c6) (two c7 c8) (two "0" "0") (two "0" "0")
           (two "0" "0") "") by reflexivity
  end.
  unfold Date_parse, parse. rewrite iso_fields_stamp by (assumption || reflexivity).
  rewrite take_tail_empty. cbn [obnd]. unfold fields_time.
  rewrite legal_fields_false; [reflexivity|].
  unfold impossible_fields in Hi.
  destruct (token_fields_dateOnly c1 c2 c3 c4 c5 c6 c7 c8) as (Ey&Em&Ed).
  cbv zeta in Ey, Em, Ed. rewrite Em, Ed in Hi.
  change (token_hour (four c1 c2 c3 c4 ++ two c5 c6 ++ two c7 c8)) with 0 in Hi.
  change (token_minute (four c1 c2 c3 c4 ++ two c5 c6 ++ two c7 c8)) with 0 in Hi.
  change (token_second (four c1 c2 c3 c4 ++ two c5 c6 ++ two c7 c8)) with 0 in Hi.
  rewrite !digits_value_00. lia.
Qed.

Lemma normalizeDates_throws dtstart dtend w st :
  recognised (Some dtstart) = true -> impossible_fields dtstart ->
  normalizeDates (Some dtstart) dtend w st = (Throw (RangeError "Invalid time value"), st).
Proof.
  unfold recognised. cbn [str_of]. intros Hr Hi.
  apply andb_prop in Hr. destruct Hr as [T Hr].
  unfold normalizeDates. rewrite bind_run, ask_runtime_run. cbn [str_of]. rewrite T. cbn [andb].
  destruct (dateOnly dtstart) eqn:A.
  { rewrite bind_run, liftO_run, toUTCStringFromLocalParts_throws by assumption. reflexivity. }
  destruct (dateTimeZ dtstart) eqn:B.
  { rewrite bind_run, liftO_run, isoFromICSUTC_throws by assumption. reflexivity. }
  cbn [orb] in Hr. rewrite Hr.
  rewrite bind_run, liftO_run, toUTCStringFromLocalDateTime_throws by assumption. reflexivity.
Qed.

Lemma parseICS_loop_throws line rest acc w st e st' :
  parseICS_step line acc w st = (Throw e, st') ->
  parseICS_loop (line :: rest) acc w st = (Throw e, st').
Proof. intros H. cbn [parseICS_loop]. rewrite bind_run, H. reflexivity. Qed.

(** X22.  A DTSTART that has one of the three encodings but a month
    outside 1 to 12, a day outside 1 to 31, an hour above 24, or a minute
    or second above 59 makes the normaliser throw a RangeError, whatever
    DTEND is; and the end of a block with such a DTSTART makes the loop of
    [parseICS] throw it, the events read so far and the rest of the feed
    left behind. *)
Theorem impossible_start_makes_parsing_throw dtstart dtend w st :
  recognised (Some dtstart) = true -> impossible_fields dtstart ->
  normalizeDates (Some dtstart) dtend w st = (Throw (RangeError "Invalid time value"), st) /\
  (forall events c rest,
      bag_get "DTSTART" c = Some dtstart -> bag_get "DTEND" c = dtend ->
      parseICS_loop ("END:VEVENT" :: rest) (events, Some c) w st
      = (Throw (RangeError "Invalid time value"), st)).
Proof.
  intros Hr Hi. pose proof (normalizeDates_throws dtstart dtend w st Hr Hi) as N.
  split; [exact N|]. intros events c rest Hs He.
  apply parseICS_loop_throws. rewrite parseICS_step_end, Hs, He, N. reflexivity.
Qed.

(** X22, for a UTC date-time in month 13. *)
Lemma impossible_start_example :
  normalizeDates (Some "20251301T120000Z") None
    (world_serving (runtime_in (fixedZone 0)) "") initial_state
  = (Throw (RangeError "Invalid time value"), initial_state).
Proof.
  refine (proj1 (impossible_start_makes_parsing_throw "20251301T120000Z" None
                   (world_serving (runtime_in (fixedZone 0)) "") initial_state eq_refl _)).
  unfold impossible_fields. right. left. vm_compute. reflexivity.
Defined.

(** ** Well-formed dates come back as written *)

Lemma token_reading_dateOnly s : dateOnly s = true -> token_reading s = utc_midnight s.
Proof.
  intros H. destruct (dateOnly_inv s H) as (c1&c2&c3&c4&c5&c6&c7&c8&->&_).
  reflexivity.
Qed.

Lemma timed_text rt s :
  timed (Some s) = true -> well_formed_in (zone rt) s ->
  (if dateTimeZ s then isoFromICSUTC rt s else toUTCStringFromLocalDateTime rt s)
  = Ok (token_stamp s ".000Z").
Proof.
  unfold timed. cbn [str_of]. intros Ht (Hd & Hts & Hz).
  apply andb_prop in Ht. destruct Ht as [_ Ht].
  destruct (dateTimeZ s) eqn:B.
  - destruct (dateTimeZ_inv s B) as (l & -> & L).
    destruct (token_slices_Z l L) as (E1&E2&E3&E4&E5&E6&E7).
    rewrite E7. unfold real_calendar_date, real_time_of_day in *.
    rewrite E1, E2, E3, E4, E5, E6 in *.
    rewrite isoFromICSUTC_stamp by exact L.
    unfold Date_parse, parse.
    rewrite iso_fields_token by assumption. rewrite take_tail_utc. cbn [obnd].
    unfold fields_time. rewrite token_legal by assumption.
    cbn [f_year f_month f_day f_hour f_min f_sec f_ms f_utc].
    fold (token_reading l).
    pose proof (token_reading_bounds l L Hd Hts).
    rewrite TimeClip_in_range by (unfold maxTime; lia).
    cbn [toISOString]. rewrite iso_string_token by assumption. reflexivity.
  - cbn [orb] in Ht.
    rewrite toUTCStringFromLocalDateTime_reading by assumption.
    rewrite shift_cancels by (auto; apply token_reading_bounds; assumption).
    cbn [toISOString]. rewrite iso_string_token by assumption. reflexivity.
Qed.

(** X23.  For tokens that name real dates and times, in a zone steady
    at the readings of those that are not UTC tokens: two bare dates give
    the midnights UTC of both days and isAllDay = true; two date-times,
    UTC or floating in any combination, give the fields of both, written
    as UTC instants, and isAllDay = false.  (An end before the start is
    returned as it is.) *)
Theorem well_formed_dates_come_back_as_written w st dtstart dtend :
  let z := zone (runtime w) in
  (dateOnly dtstart = true -> dateOnly dtend = true ->
   well_formed_in z dtstart -> well_formed_in z dtend ->
   normalizeDates (Some dtstart) (Some dtend) w st
   = (Ok (mkDates (midnight_text dtstart) (midnight_text dtend) true), st)) /\
  (timed (Some dtstart) = true -> timed (Some dtend) = true ->
   well_formed_in z dtstart -> well_formed_in z dtend ->
   normalizeDates (Some dtstart) (Some dtend) w st
   = (Ok (mkDates (token_stamp dtstart ".000Z") (token_stamp dtend ".000Z") false), st)).
Proof.
  cbv zeta. split.
  - intros Hs He (Sd & _ & Sz) (Ed & _ & Ez).
    destruct (dateOnly_excludes _ Hs) as [Sb _]. destruct (dateOnly_excludes _ He) as [Eb _].
    specialize (Sz Sb). specialize (Ez Eb).
    rewrite token_reading_dateOnly in Sz, Ez by assumption.
    unfold normalizeDates. rewrite bind_run, ask_runtime_run. cbn [str_of].
    rewrite (truthy_dateOnly _ Hs), Hs, (truthy_dateOnly _ He), He. cbn [andb].
    rewrite bind_run, liftO_run, toUTCStringFromLocalParts_midnight by assumption.
    rewrite bind_run, liftO_run, toUTCStringFromLocalParts_midnight by assumption.
    reflexivity.
  - intros Hs He Ws We.
    pose proof (timed_text (runtime w) dtstart Hs Ws) as Ts.
    pose proof (timed_text (runtime w) dtend He We) as Te.
    unfold timed in Hs, He. cbn [str_of] in Hs, He.
    apply andb_prop in Hs. destruct Hs as [T1 Hs].
    apply andb_prop in He. destruct He as [T2 He].
    unfold normalizeDates. rewrite bind_run, ask_runtime_run. cbn [str_of].
    rewrite T1, T2. cbn [andb].
    destruct (dateTimeZ dtstart) eqn:B.
    + destruct (dateTimeZ_excludes _ B) as [A _]. rewrite A.
      rewrite bind_run, liftO_run, Ts, bind_run, liftO_run.
      destruct (dateTimeZ dtend) eqn:B'.
      * rewrite Te. reflexivity.
      * cbn [orb] in He. rewrite He, Te. reflexivity.
    + cbn [orb] in Hs. destruct (dateTimeLocal_excludes _ Hs) as [A _]. rewrite A, Hs.
      rewrite bind_run, liftO_run, Ts, bind_run, liftO_run.
      destruct (dateTimeZ dtend) eqn:B'.
      * destruct (dateTimeZ_excludes _ B') as [_ C']. rewrite C', Te. reflexivity.
      * cbn [orb] in He. rewrite He, Te. reflexivity.
Qed.

(** X23, for a floating start and a UTC end, two hours ahead of UTC. *)
Lemma well_formed_dates_example :
  normalizeDates (Some "20250615T180000") (Some "20250615T193000Z")
    (world_serving (runtime_in (fixedZone 120)) "") initial_state
  = (Ok (mkDates "2025-06-15T18:00:00.000Z" "2025-06-15T19:30:00.000Z" false),
     initial_state).
Proof.
  refine (proj2 (well_formed_dates_come_back_as_written
                   (world_serving (runtime_in (fixedZone 120)) "") initial_state
                   "20250615T180000" "20250615T193000Z") eq_refl eq_refl _ _).
  - unfold well_formed_in, real_calendar_date, real_time_of_day. split; [|split].
    + vm_compute. repeat split; discriminate.
    + vm_compute. repeat split; discriminate.
    + intros _. apply fixedZone_steady. vm_compute. discriminate.
  - unfold well_formed_in, real_calendar_date, real_time_of_day. split; [|split].
    + vm_compute. repeat split; discriminate.
    + vm_compute. repeat split; discriminate.
    + intros Q. discriminate Q.
Defined.

(** ** Lines of a calendar *)

Lemma text_of_lines_not_folded eol ls :
  line_ending eol -> forallb plain_line ls = true ->
  starts_folded (text_of_lines eol ls) = false.
Proof.
  intros He H. destruct ls as [|l r]; [reflexivity|].
  cbn [forallb] in H. apply andb_prop in H. destruct H as [Hl _].
  unfold plain_line in Hl. apply andb_prop in Hl. destruct Hl as [_ Hl].
  cbn [text_of_lines]. destruct l as [|c l'].
  - destruct He as [->| ->]; reflexivity.
  - cbn [append starts_folded]. apply negb_true_iff in Hl. exact Hl.
Qed.

Lemma unfold_lines_LF t :
  starts_folded t = false -> unfold_lines (LF ++ t) = LF ++ unfold_lines t.
Proof.
  intros H. destruct t as [|c2 r2]; [reflexivity|].
  cbn [starts_folded] in H.
  change (LF ++ String c2 r2) with (String (ascii_of_N 10) (String c2 r2)).
  cbn [unfold_lines]. rewrite H.
  replace (code (ascii_of_N 10) =? 10) with true by reflexivity.
  replace (code (ascii_of_N 10) =? 13) with false by reflexivity.
  reflexivity.
Qed.

Lemma unfold_lines_CRLF t :
  starts_folded t = false -> unfold_lines (CR ++ LF ++ t) = CR ++ LF ++ unfold_lines t.
Proof.
  intros H.
  change (CR ++ LF ++ t) with (String (ascii_of_N 13) (LF ++ t)).
  change (CR ++ LF ++ unfold_lines t) with (String (ascii_of_N 13) (LF ++ unfold_lines t)).
  rewrite <- (unfold_lines_LF t H).
  change (LF ++ t) with (String (ascii_of_N 10) t).
  cbn [unfold_lines].
  replace (code (ascii_of_N 13) =? 10) with false by reflexivity.
  replace (code (ascii_of_N 13) =? 13) with true by reflexivity.
  cbn [andb starts_with LF]. rewrite Ascii.eqb_refl. cbn [andb].
  destruct t as [|c3 r3]; [reflexivity|].
  cbn [starts_folded] in H. rewrite H. reflexivity.
Qed.

Lemma unfold_lines_eol eol t :
  line_ending eol -> starts_folded t = false ->
  unfold_lines (eol ++ t) = eol ++ unfold_lines t.
Proof.
  intros [->| ->] H; [apply unfold_lines_LF | apply unfold_lines_CRLF]; exact H.
Qed.

Lemma unfold_lines_char c r :
  (code c =? 10) = false -> (code c =? 13) = false -> r <> "" ->
  unfold_lines (String c r) = String c (unfold_lines r).
Proof.
  intros H10 H13 Hr. destruct r as [|d r']; [contradiction|].
  cbn [unfold_lines]. rewrite H10, H13. reflexivity.
Qed.

Lemma no_line_break_cons c r :
  no_line_break (String c r) = true ->
  (code c =? 10) = false /\ (code c =? 13) = false /\ no_line_break r = true.
Proof.
  cbn [no_line_break]. intros H. apply andb_prop in H. destruct H as [H Hr].
  apply andb_prop in H. destruct H as [H10 H13].
  apply negb_true_iff in H10. apply negb_true_iff in H13. auto.
Qed.

Lemma eol_nonempty eol t : line_ending eol -> eol ++ t <> "".
Proof. intros [->| ->]; discriminate. Qed.

Lemma unfold_lines_line eol l t :
  line_ending eol -> no_line_break l = true -> starts_folded t = false ->
  unfold_lines (l ++ eol ++ t) = l ++ eol ++ unfold_lines t.
Proof.
  intros He Hl Ht. induction l as [|c r IH].
  - cbn [append]. apply unfold_lines_eol; assumption.
  - destruct (no_line_break_cons c r Hl) as (H10 & H13 & Hr).
    cbn [append]. rewrite unfold_lines_char; try assumption.
    + rewrite (IH Hr). reflexivity.
    + destruct r; [cbn [append]; apply eol_nonempty; exact He | discriminate].
Qed.

Lemma unfold_lines_plain eol ls :
  line_ending eol -> forallb plain_line ls = true ->
  unfold_lines (text_of_lines eol ls) = text_of_lines eol ls.
Proof.
  intros He. induction ls as [|l r IH]; intros H; [reflexivity|].
  cbn [forallb] in H. apply andb_prop in H. destruct H as [Hl Hr].
  unfold plain_line in Hl. apply andb_prop in Hl. destruct Hl as [Hl _].
  cbn [text_of_lines]. rewrite unfold_lines_line; try assumption.
  - rewrite (IH Hr). reflexivity.
  - apply text_of_lines_not_folded; assumption.
Qed.

Lemma split_lines_eol eol t :
  line_ending eol -> split_lines (eol ++ t) = "" :: split_lines t.
Proof. intros [->| ->]; reflexivity. Qed.

Lemma split_lines_line eol l t :
  line_ending eol -> no_line_break l = true ->
  split_lines (l ++ eol ++ t) = l :: split_lines t.
Proof.
  intros He Hl. induction l as [|c r IH].
  - cbn [append]. apply split_lines_eol. exact He.
  - destruct (no_line_break_cons c r Hl) as (H10 & H13 & Hr).
    cbn [append split_lines]. rewrite H10, H13, (IH Hr). reflexivity.
Qed.

Lemma split_lines_text eol ls :
  line_ending eol -> forallb plain_line ls = true ->
  split_lines (text_of_lines eol ls) = (ls ++ [""])%list.
Proof.
  intros He. induction ls as [|l r IH]; intros H; [reflexivity|].
  cbn [forallb] in H. apply andb_prop in H. destruct H as [Hl Hr].
  unfold plain_line in Hl. apply andb_prop in Hl. destruct Hl as [Hl _].
  cbn [text_of_lines]. rewrite split_lines_line by assumption.
  rewrite (IH Hr). reflexivity.
Qed.

(** X24.  Lines without line breaks inside and without a space or tab in
    front, written one after the other with LF or CRLF after each, are
    what unfolding and splitting give back, followed by one empty line. *)
Theorem written_lines_are_read_back eol ls :
  line_ending eol -> forallb plain_line ls = true ->
  split_lines (unfold_lines (text_of_lines eol ls)) = (ls ++ [""])%list.
Proof.
  intros He H. rewrite unfold_lines_plain by assumption. apply split_lines_text; assumption.
Qed.

(** X24, for a calendar of three lines ended by CRLF. *)
Lemma written_lines_example :
  split_lines (unfold_lines (text_of_lines (CR ++ LF)
                               ["BEGIN:VEVENT"; "SUMMARY:Match"; "END:VEVENT"]))
  = ["BEGIN:VEVENT"; "SUMMARY:Match"; "END:VEVENT"; ""].
Proof.
  exact (written_lines_are_read_back (CR ++ LF)
           ["BEGIN:VEVENT"; "SUMMARY:Match"; "END:VEVENT"] (or_intror eq_refl) eq_refl).
Defined.

(** ** Blocks of a calendar *)

Lemma parseICS_loop_outside out rest events w st :
  forallb (fun l => negb (is_begin l)) out = true ->
  parseICS_loop (out ++ rest) (events, None) w st
  = parseICS_loop rest (events, None) w st.
Proof.
  induction out as [|l r IH]; intros H; [reflexivity|].
  cbn [forallb] in H. apply andb_prop in H. destruct H as [Hl Hr].
  apply negb_true_iff in Hl. unfold is_begin in Hl.
  cbn [app parseICS_loop]. rewrite bind_run. unfold parseICS_step. rewrite Hl.
  destruct (String.eqb l "END:VEVENT"); cbn [ret]; apply (IH Hr).
Qed.

Lemma parseICS_loop_props props rest events c w st :
  forallb (fun l => negb (is_begin l) && negb (is_end l)) props = true ->
  parseICS_loop (props ++ rest) (events, Some c) w st
  = parseICS_loop rest (events, Some (fold_left (fun b l => read_property l b) props c)) w st.
Proof.
  revert c. induction props as [|l r IH]; intros c H; [reflexivity|].
  cbn [forallb] in H. apply andb_prop in H. destruct H as [Hl Hr].
  apply andb_prop in Hl. destruct Hl as [Hb He].
  apply negb_true_iff in Hb. apply negb_true_iff in He. unfold is_begin, is_end in *.
  cbn [app parseICS_loop fold_left]. rewrite bind_run. unfold parseICS_step. rewrite Hb, He.
  unfold read_property.
  destruct (indexOf_char ":" l); cbn [ret]; apply (IH _ Hr).
Qed.

Lemma parseICS_loop_begin rest events cur w st :
  parseICS_loop ("BEGIN:VEVENT" :: rest) (events, cur) w st
  = parseICS_loop rest (events, Some []) w st.
Proof. reflexivity. Qed.

Lemma parseICS_loop_end rest events c w st :
  parseICS_loop ("END:VEVENT" :: rest) (events, Some c) w st
  = match normalizeDates (bag_get "DTSTART" c) (bag_get "DTEND" c) w st with
    | (Ok ds, st') => parseICS_loop rest ((events ++ [event_of c ds])%list, None) w st'
    | (Throw e, st') => (Throw e, st')
    end.
Proof.
  cbn [parseICS_loop]. rewrite bind_run, parseICS_step_end.
  destruct (normalizeDates _ _ w st) as [[ds|e] st']; reflexivity.
Qed.

Lemma block_event_run props w st :
  block_event props w st
  = match normalizeDates (bag_get "DTSTART" (block_bag props))
            (bag_get "DTEND" (block_bag props)) w st with
    | (Ok ds, st') => (Ok (event_of (block_bag props) ds), st')
    | (Throw e, st') => (Throw e, st')
    end.
Proof.
  unfold block_event. rewrite bind_run.
  destruct (normalizeDates _ _ w st) as [[ds|e] st']; reflexivity.
Qed.

Lemma parseICS_loop_blocks blocks tail events w st :
  forallb (fun b => forallb (fun l => negb (is_begin l) && negb (is_end l)) (fst b)
                    && forallb (fun l => negb (is_begin l)) (snd b)) blocks = true ->
  forallb (fun l => negb (is_begin l)) tail = true ->
  parseICS_loop (flat_map block_lines blocks ++ tail) (events, None) w st
  = match events_of_blocks (map fst blocks) w st with
    | (Ok es, st') => (Ok (events ++ es)%list, st')
    | (Throw e, st') => (Throw e, st')
    end.
Proof.
  intros Hb Ht. revert events st. induction blocks as [|[props after] r IH]; intros events st.
  - cbn [flat_map app map events_of_blocks ret].
    rewrite <- (app_nil_r tail), parseICS_loop_outside by exact Ht.
    cbn [parseICS_loop ret fst]. rewrite app_nil_r. reflexivity.
  - cbn [forallb fst snd] in Hb. apply andb_prop in Hb. destruct Hb as [Hp Hr].
    apply andb_prop in Hp. destruct Hp as [Hp Ha].
    assert (Shape : ((flat_map block_lines ((props, after) :: r)) ++ tail
                     = "BEGIN:VEVENT"
                       :: props ++ "END:VEVENT" :: after ++ flat_map block_lines r ++ tail)%list).
    { cbn [flat_map]. unfold block_lines at 1. cbn [fst snd].
      repeat (rewrite <- ?app_comm_cons, <- ?app_assoc); reflexivity. }
    rewrite Shape. cbn [map fst events_of_blocks].
    rewrite parseICS_loop_begin, parseICS_loop_props by exact Hp.
    rewrite parseICS_loop_end.
    fold (block_bag props).
    rewrite bind_run, block_event_run.
    destruct (normalizeDates _ _ w st) as [[ds|e] st1]; [|reflexivity].
    rewrite parseICS_loop_outside by exact Ha.
    rewrite (IH Hr). rewrite bind_run.
    destruct (events_of_blocks (map fst r) w st1) as [[es|e] st2]; [|reflexivity].
    cbn [ret]. rewrite <- app_assoc. reflexivity.
Qed.

(** X25.  A calendar written as plain lines, with the block markers
    nowhere but around the blocks, is read block by block: the events are
    those of the blocks in feed order, each built from the properties of
    its own block alone; lines outside the blocks are ignored; an
    exception of the normaliser on a block is the exception of the
    parser. *)
Theorem a_calendar_is_read_block_by_block eol before blocks w st :
  line_ending eol ->
  forallb plain_line (calendar_lines before blocks) = true ->
  well_nested before blocks = true ->
  parseICS (text_of_lines eol (calendar_lines before blocks)) w st
  = events_of_blocks (map fst blocks) w st.
Proof.
  intros He Hp Hn. unfold well_nested in Hn. apply andb_prop in Hn. destruct Hn as [H1 H2].
  unfold parseICS. cbv zeta.
  rewrite unfold_lines_plain, split_lines_text by assumption.
  unfold calendar_lines. rewrite <- app_assoc, parseICS_loop_outside by exact H1.
  rewrite (parseICS_loop_blocks blocks [""] [] w st H2 eq_refl).
  destruct (events_of_blocks (map fst blocks) w st) as [[es|e] st']; reflexivity.
Qed.

(** X25, for a calendar with a header, two events and a footer, its lines
    ended by CRLF. *)
Lemma a_calendar_example :
  parseICS
    (text_of_lines (CR ++ LF)
       (calendar_lines ["BEGIN:VCALENDAR"; "VERSION:2.0"]
          [(["DTSTART:20250102T180000Z"; "SUMMARY:Home"], []);
           (["DTSTART;VALUE=DATE:20250103"; "SUMMARY:Away"], ["END:VCALENDAR"])]))
    (world_serving (runtime_in (fixedZone 0)) "") initial_state
  = (Ok [mkEvent "2025-01-02T18:00:00.000Z" "2025-01-02T18:00:00.000Z" false
           "Home" "" "" "" "Laget.se";
         mkEvent "2025-01-03T00:00:00.000Z" "2025-01-04T00:00:00.000Z" true
           "Away" "" "" "" "Laget.se"], initial_state).
Proof.
  refine (eq_trans (a_calendar_is_read_block_by_block (CR ++ LF)
                      ["BEGIN:VCALENDAR"; "VERSION:2.0"]
                      [(["DTSTART:20250102T180000Z"; "SUMMARY:Home"], []);
                       (["DTSTART;VALUE=DATE:20250103"; "SUMMARY:Away"], ["END:VCALENDAR"])]
                      (world_serving (runtime_in (fixedZone 0)) "") initial_state
                      (or_intror eq_refl) eq_refl eq_refl) _).
  vm_compute. reflexivity.
Defined.

(** ** Property lines *)

Lemma indexOf_char_app c a b :
  indexOf_char c a = None -> indexOf_char c (a ++ String c b) = Some (String.length a).
Proof.
  induction a as [|x r IH]; cbn [append indexOf_char String.length].
  - rewrite Ascii.eqb_refl. reflexivity.
  - destruct (Ascii.eqb x c); [discriminate|].
    destruct (indexOf_char c r); [discriminate|]. intros _. rewrite (IH eq_refl). reflexivity.
Qed.

Lemma substring_0_app a b : substring 0 (String.length a) (a ++ b) = a.
Proof.
  induction a as [|x r IH]; cbn [append String.length substring].
  - destruct b; reflexivity.
  - rewrite IH. reflexivity.
Qed.

Lemma slice_from_S_app a c b : slice_from (S (String.length a)) (a ++ String c b) = b.
Proof. induction a as [|x r IH]; [reflexivity | exact IH]. Qed.

Lemma before_char_app c a b :
  indexOf_char c a = None -> (b = "" \/ exists b', b = String c b') ->
  before_char c (a ++ b) = a.
Proof.
  intros Ha Hb. induction a as [|x r IH]; cbn [append].
  - destruct Hb as [->|[b' ->]]; [reflexivity|]. cbn [before_char].
    rewrite Ascii.eqb_refl. reflexivity.
  - cbn [indexOf_char] in Ha. cbn [before_char].
    destruct (Ascii.eqb x c); [discriminate|].
    destruct (indexOf_char c r); [discriminate|]. rewrite (IH eq_refl). reflexivity.
Qed.

Lemma indexOf_char_app_none c a b :
  indexOf_char c a = None -> indexOf_char c b = None -> indexOf_char c (a ++ b) = None.
Proof.
  intros Ha Hb. induction a as [|x r IH]; [exact Hb|].
  cbn [append indexOf_char] in *. destruct (Ascii.eqb x c); [discriminate|].
  destruct (indexOf_char c r); [discriminate|]. rewrite (IH eq_refl). reflexivity.
Qed.

Lemma append_assoc a b c : (a ++ b) ++ c = a ++ b ++ c.
Proof. induction a as [|x r IH]; [reflexivity|]. cbn [append]. rewrite IH. reflexivity. Qed.

(** X26.  Inside a block, a line made of a name of ASCII characters
    without colon or semicolon, parameters that are empty or start with a
    semicolon and hold no colon, a colon and a value, and that is neither
    marker, makes the loop of [parseICS] go on with the field named by
    the upper-cased name set to the value, colons of the value included,
    in place of any value set before, and with the other fields and the
    events as they were; a line without a colon makes it go on with
    everything as it was.  So a summary line, in any letter case, that is
    the last line of its block gives the event its summary. *)
Theorem a_property_line_sets_its_field name params value rest events c w st :
  ascii_text name = true ->
  indexOf_char ":" name = None -> indexOf_char ";" name = None ->
  indexOf_char ":" params = None -> (params = "" \/ exists p, params = String ";" p) ->
  is_begin (name ++ params ++ String ":" value) = false ->
  is_end (name ++ params ++ String ":" value) = false ->
  parseICS_loop ((name ++ params ++ String ":" value) :: rest) (events, Some c) w st
  = parseICS_loop rest (events, Some (bag_set (toUpperCase name) value c)) w st /\
  bag_get (toUpperCase name) (bag_set (toUpperCase name) value c) = Some value /\
  (forall k, k <> toUpperCase name ->
     bag_get k (bag_set (toUpperCase name) value c) = bag_get k c) /\
  (forall l, indexOf_char ":" l = None ->
     parseICS_loop (l :: rest) (events, Some c) w st
     = parseICS_loop rest (events, Some c) w st) /\
  (forall ds st',
     toUpperCase name = "SUMMARY" ->
     normalizeDates (bag_get "DTSTART" c) (bag_get "DTEND" c) w st = (Ok ds, st') ->
     parseICS_loop ((name ++ params ++ String ":" value) :: "END:VEVENT" :: rest)
       (events, Some c) w st
     = parseICS_loop rest
         ((events ++ [mkEvent (d_start ds) (d_end ds) (d_isAllDay ds) value
                        (bag_get_or_empty "LOCATION" c) (bag_get_or_empty "URL" c)
                        (bag_get_or_empty "UID" c) "Laget.se"])%list, None) w st').
Proof.
  intros _ N1 N2 P1 P2 B E.
  assert (Step : forall rest',
             parseICS_loop ((name ++ params ++ String ":" value) :: rest') (events, Some c) w st
             = parseICS_loop rest' (events, Some (bag_set (toUpperCase name) value c)) w st).
  { intros rest'. cbn [parseICS_loop]. rewrite bind_run. unfold parseICS_step.
    unfold is_begin in B. unfold is_end in E. rewrite B, E.
    rewrite <- append_assoc.
    rewrite indexOf_char_app by (apply indexOf_char_app_none; assumption).
    unfold slice. rewrite Nat.sub_0_r, substring_0_app, slice_from_S_app.
    rewrite before_char_app by assumption. reflexivity. }
  split; [apply Step|]. split; [|split; [|split]].
  - unfold bag_set. cbn [bag_get]. rewrite String.eqb_refl. reflexivity.
  - intros k Hk. unfold bag_set. cbn [bag_get].
    destruct (String.eqb_spec (toUpperCase name) k) as [Q|_]; [|reflexivity].
    contradiction Hk. symmetry. exact Q.
  - intros l Hl. cbn [parseICS_loop]. rewrite bind_run. unfold parseICS_step.
    assert (B' : String.eqb l "BEGIN:VEVENT" = false).
    { destruct (String.eqb_spec l "BEGIN:VEVENT") as [->|]; [discriminate Hl | reflexivity]. }
    assert (E' : String.eqb l "END:VEVENT" = false).
    { destruct (String.eqb_spec l "END:VEVENT") as [->|]; [discriminate Hl | reflexivity]. }
    rewrite B', E', Hl. reflexivity.
  - intros ds st' U N. rewrite Step, U, parseICS_loop_end.
    unfold bag_set. cbn [bag_get String.eqb Ascii.eqb Bool.eqb]. rewrite N.
    unfold event_of, bag_get_or_empty. cbn [bag_get String.eqb Ascii.eqb Bool.eqb str_of].
    reflexivity.
Qed.

(** X26, for a block that gives DTSTART twice, the second time in lower
    case and with a parameter, and then a line without a colon: the event
    starts at the second value. *)
Lemma a_property_line_example :
  parseICS_loop ["dtstart;TZID=Europe/Stockholm:20250102T180000"; "no colon here"; "END:VEVENT"]
    ([], Some [("DTSTART", "20250101")])
    (world_serving (runtime_in (fixedZone 0)) "") initial_state
  = parseICS_loop ["no colon here"; "END:VEVENT"]
      ([], Some [("DTSTART", "20250102T180000"); ("DTSTART", "20250101")])
      (world_serving (runtime_in (fixedZone 0)) "") initial_state /\
  map ev_start
    (match fst (parseICS_loop
                  ["dtstart;TZID=Europe/Stockholm:20250102T180000"; "no colon here";
                   "END:VEVENT"]
                  ([], Some [("DTSTART", "20250101")])
                  (world_serving (runtime_in (fixedZone 0)) "") initial_state) with
     | Ok evs => evs
     | Throw _ => []
     end)
  = ["2025-01-02T18:00:00.000Z"].
Proof.
  split; [|vm_compute; reflexivity].
  exact (proj1 (a_property_line_sets_its_field "dtstart" ";TZID=Europe/Stockholm"
                  "20250102T180000" ["no colon here"; "END:VEVENT"] [] [("DTSTART", "20250101")]
                  (world_serving (runtime_in (fixedZone 0)) "") initial_state
                  eq_refl eq_refl eq_refl eq_refl
                  (or_intror (ex_intro _ "TZID=Europe/Stockholm" eq_refl)) eq_refl eq_refl)).
Defined.

(* ================================================================== *)
(** * Properties of the news parser *)

(** ** CDATA sections *)

Lemma stripCDATA_from_fuel f1 : forall f2 s,
  (String.length s <= f1)%nat -> (String.length s <= f2)%nat ->
  stripCDATA_from f1 s = stripCDATA_from f2 s.
Proof.
  induction f1 as [|f1 IH]; intros f2 s H1 H2.
  - destruct s; [|cbn in H1; lia]. destruct f2; reflexivity.
  - destruct f2 as [|f2]; [destruct s; [reflexivity | cbn in H2; lia]|].
    destruct s as [|c r]; [reflexivity|].
    cbn [String.length] in H1, H2.
    cbn [stripCDATA_from].
    rewrite (IH f2 r) by lia.
    destruct (starts_with "<![CDATA[" (String c r)); [|reflexivity].
    destruct (find "]]>" (slice_from 9 (String c r))) as [k|]; [|reflexivity].
    f_equal. apply IH.
    + pose proof (slice_from_length (k + 3) (slice_from 9 (String c r))).
      pose proof (slice_from_length 8 r). cbn [slice_from] in *. lia.
    + pose proof (slice_from_length (k + 3) (slice_from 9 (String c r))).
      pose proof (slice_from_length 8 r). cbn [slice_from] in *. lia.
Qed.

Lemma find_cons p c r :
  find p (String c r)
  = if starts_with p (String c r) then Some O else option_map S (find p r).
Proof. destruct p; reflexivity. Qed.

Lemma find_none_inv p c r :
  find p (String c r) = None -> starts_with p (String c r) = false /\ find p r = None.
Proof.
  cbn [find]. destruct (starts_with p (String c r)); [discriminate|].
  destruct (find p r); [discriminate|]. auto.
Qed.

Lemma find_end_marker x rest :
  find "]]>" x = None -> find "]]>" (x ++ "]]>" ++ rest) = Some (String.length x).
Proof.
  induction x as [|c r IH]; intros H; [reflexivity|].
  destruct (find_none_inv _ _ _ H) as [S0 Hr].
  change (String c r ++ "]]>" ++ rest) with (String c (r ++ "]]>" ++ rest)).
  cbn [String.length].
  assert (S1 : starts_with "]]>" (String c (r ++ "]]>" ++ rest)) = false).
  { destruct r as [|d [|e r']].
    - cbn [append starts_with]. destruct (Ascii.eqb "]" c); reflexivity.
    - cbn [append starts_with]. destruct (Ascii.eqb "]" c); [|reflexivity].
      destruct (Ascii.eqb "]" d); reflexivity.
    - exact S0. }
  rewrite find_cons, S1, (IH Hr). reflexivity.
Qed.

Lemma find_none_slice p n s : find p s = None -> find p (slice_from n s) = None.
Proof.
  revert s. induction n as [|k IH]; intros s H; [exact H|].
  destruct s as [|c r]; [exact H|].
  destruct (find_none_inv _ _ _ H) as [_ Hr]. cbn [slice_from]. apply IH. exact Hr.
Qed.

Lemma stripCDATA_from_unclosed f s :
  find "]]>" s = None -> stripCDATA_from f s = s.
Proof.
  revert s. induction f as [|f IH]; intros s H; [reflexivity|].
  destruct s as [|c r]; [reflexivity|].
  cbn [stripCDATA_from].
  rewrite (find_none_slice "]]>" 9 _ H).
  destruct (find_none_inv _ _ _ H) as [_ Hr]. rewrite (IH r Hr).
  destruct (starts_with "<![CDATA[" (String c r)); reflexivity.
Qed.

Lemma stripCDATA_from_unopened f s :
  find "<![CDATA[" s = None -> stripCDATA_from f s = s.
Proof.
  revert s. induction f as [|f IH]; intros s H; [reflexivity|].
  destruct s as [|c r]; [reflexivity|].
  destruct (find_none_inv _ _ _ H) as [S0 Hr].
  cbn [stripCDATA_from]. rewrite S0, (IH r Hr). reflexivity.
Qed.

Lemma stripCDATA_section x rest :
  find "]]>" x = None ->
  stripCDATA ("<![CDATA[" ++ x ++ "]]>" ++ rest) = x ++ stripCDATA rest.
Proof.
  intros H. unfold stripCDATA.
  change ("<![CDATA[" ++ x ++ "]]>" ++ rest)
    with (String "<" ("![CDATA[" ++ x ++ "]]>" ++ rest)).
  cbn [String.length stripCDATA_from].
  change (starts_with "<![CDATA[" (String "<" ("![CDATA[" ++ x ++ "]]>" ++ rest))) with true.
  cbv iota.
  change (slice_from 9 (String "<" ("![CDATA[" ++ x ++ "]]>" ++ rest)))
    with (x ++ "]]>" ++ rest).
  rewrite (find_end_marker x rest H).
  rewrite substring_0_app.
  rewrite slice_from_add, slice_from_app.
  change (slice_from 3 ("]]>" ++ rest)) with rest.
  f_equal. apply stripCDATA_from_fuel; [|lia].
  change ("![CDATA[" ++ x ++ "]]>" ++ rest) with ("![CDATA[" ++ (x ++ "]]>" ++ rest)).
  rewrite !length_app. cbn [String.length]. lia.
Qed.

(** X27.  A CDATA section whose content holds no end marker is replaced
    by that content, line breaks and markup included, and the unwrapping
    goes on after its end marker; text without an end marker, or without
    the start marker, is left as it is. *)
Theorem cdata_sections_are_unwrapped x rest :
  find "]]>" x = None ->
  stripCDATA ("<![CDATA[" ++ x ++ "]]>" ++ rest) = x ++ stripCDATA rest /\
  stripCDATA x = x /\
  (forall s, find "<![CDATA[" s = None -> stripCDATA s = s).
Proof.
  intros H. split; [apply stripCDATA_section; exact H|]. split.
  - apply stripCDATA_from_unclosed. exact H.
  - intros s Hs. apply stripCDATA_from_unopened. exact Hs.
Qed.

(** X27, for a section of two lines followed by text. *)
Lemma cdata_section_example :
  stripCDATA ("<![CDATA[" ++ ("<p>Goal!" ++ LF ++ "2-1</p>") ++ "]]>" ++ " report")
  = ("<p>Goal!" ++ LF ++ "2-1</p>") ++ stripCDATA " report".
Proof.
  exact (proj1 (cdata_sections_are_unwrapped ("<p>Goal!" ++ LF ++ "2-1</p>") " report"
                  eq_refl)).
Defined.

(** ** Entities, one pass *)

Lemma match_entity_length s v n :
  match_entity entity_map s = Some (v, n) -> (1 <= n)%nat.
Proof.
  unfold entity_map. cbn [match_entity].
  repeat match goal with
         | |- context [if ?b then _ else _] => destruct b
         end; intros Q; inversion Q; cbn; lia.
Qed.

Lemma slice_from_pos_length n c r :
  (1 <= n)%nat -> (String.length (slice_from n (String c r)) <= String.length r)%nat.
Proof.
  intros H. destruct n as [|k]; [lia|]. cbn [slice_from]. apply slice_from_length.
Qed.

Lemma decodeHTML_from_fuel f1 : forall f2 s,
  (String.length s <= f1)%nat -> (String.length s <= f2)%nat ->
  decodeHTML_from f1 s = decodeHTML_from f2 s.
Proof.
  induction f1 as [|f1 IH]; intros f2 s H1 H2.
  - destruct s; [|cbn in H1; lia]. destruct f2; reflexivity.
  - destruct f2 as [|f2]; [destruct s; [reflexivity | cbn in H2; lia]|].
    destruct s as [|c r]; [reflexivity|].
    cbn [String.length] in H1, H2. cbn [decodeHTML_from].
    destruct (match_entity entity_map (String c r)) as [[v n]|] eqn:E.
    + pose proof (slice_from_pos_length n c r (match_entity_length _ _ _ E)).
      f_equal. apply IH; lia.
    + f_equal. apply IH; lia.
Qed.

Lemma decodeHTML_entity e v s :
  match_entity entity_map (e ++ s) = Some (v, String.length e) -> e <> "" ->
  decodeHTML (e ++ s) = v ++ decodeHTML s.
Proof.
  intros M Hne. unfold decodeHTML.
  destruct e as [|c e']; [contradiction|].
  change (String c e' ++ s) with (String c (e' ++ s)) in *.
  cbn [String.length decodeHTML_from]. rewrite M.
  f_equal.
  change (slice_from (String.length (String c e')) (String c (e' ++ s)))
    with (slice_from (String.length e') (e' ++ s)).
  rewrite slice_from_app. apply decodeHTML_from_fuel; [|lia].
  rewrite length_app. lia.
Qed.

Lemma decodeHTML_other c s :
  Ascii.eqb c "&" = false -> decodeHTML (String c s) = String c (decodeHTML s).
Proof.
  intros H. unfold decodeHTML. cbn [String.length decodeHTML_from].
  assert (M : match_entity entity_map (String c s) = None).
  { unfold entity_map. cbn [match_entity starts_with].
    rewrite (Ascii.eqb_sym "&" c), H. reflexivity. }
  rewrite M. reflexivity.
Qed.

(** X28.  [decodeHTML] is one pass from left to right: an entity of the
    table at the front is replaced by its character and the decoding goes
    on after it, so that the replacement is never decoded again
    ([&amp;lt;] gives [&lt;]); a character other than [&] is kept. *)
Theorem entities_are_decoded_in_one_pass s :
  (forall e v, In (e, v) entity_map -> decodeHTML (e ++ s) = v ++ decodeHTML s) /\
  (forall c, Ascii.eqb c "&" = false -> decodeHTML (String c s) = String c (decodeHTML s)) /\
  decodeHTML ("&amp;lt;" ++ s) = "&lt;" ++ decodeHTML s.
Proof.
  assert (A : forall e v, In (e, v) entity_map -> decodeHTML (e ++ s) = v ++ decodeHTML s).
  { intros e v H. unfold entity_map in H. cbn [In] in H.
    repeat match type of H with
           | _ \/ _ => destruct H as [H|H]
           end;
      try (injection H as <- <-; apply decodeHTML_entity; [reflexivity | discriminate]).
    contradiction. }
  split; [exact A|]. split; [intros c; apply decodeHTML_other|].
  change ("&amp;lt;" ++ s) with ("&amp;" ++ ("lt;" ++ s)).
  rewrite (decodeHTML_entity "&amp;" "&" ("lt;" ++ s) eq_refl ltac:(discriminate)).
  change ("lt;" ++ s) with (String "l" (String "t" (String ";" s))).
  rewrite !decodeHTML_other by reflexivity. reflexivity.
Qed.

(** ** Tidy text *)

Lemma collapse_spaces_head c r :
  is_space c = false -> collapse_spaces (String c r) = String c (collapse_spaces r).
Proof. intros H. cbn [collapse_spaces]. rewrite H. reflexivity. Qed.

Lemma collapse_spaces_spaced u : spaced true (collapse_spaces u) = true.
Proof.
  induction u as [|c r IH]; [reflexivity|].
  cbn [collapse_spaces]. destruct (is_space c) eqn:E.
  - destruct r as [|c2 r2]; [reflexivity|].
    destruct (is_space c2) eqn:E2; [exact IH|].
    cbn [spaced]. rewrite IH, andb_true_r.
    change (is_space " ") with true. cbv iota.
    rewrite collapse_spaces_head by exact E2. cbn [next_is_black]. rewrite E2. reflexivity.
  - cbn [spaced]. rewrite E, IH. reflexivity.
Qed.

Lemma spaced_tail b c r : spaced b (String c r) = true -> spaced b r = true.
Proof. cbn [spaced]. intros H. apply andb_prop in H. tauto. Qed.

Lemma drop_spaces_spaced b s : spaced b s = true -> spaced b (drop_spaces s) = true.
Proof.
  induction s as [|c r IH]; intros H; [reflexivity|].
  cbn [drop_spaces]. destruct (is_space c); [apply IH, (spaced_tail b c r H) | exact H].
Qed.

Lemma drop_spaces_head s : starts_with_space (drop_spaces s) = false.
Proof.
  induction s as [|c r IH]; [reflexivity|].
  cbn [drop_spaces]. destruct (is_space c) eqn:E; [exact IH|]. cbn [starts_with_space]. exact E.
Qed.

Lemma drop_trailing_spaces_head e r d r' :
  drop_trailing_spaces (String e r) = String d r' -> d = e.
Proof.
  cbn [drop_trailing_spaces]. destruct (drop_trailing_spaces r).
  - destruct (is_space e); [discriminate|]. intros Q. injection Q as <- _. reflexivity.
  - intros Q. injection Q as <- _. reflexivity.
Qed.

Lemma drop_trailing_spaces_starts s :
  starts_with_space s = false -> starts_with_space (drop_trailing_spaces s) = false.
Proof.
  intros H. destruct s as [|e r]; [reflexivity|].
  destruct (drop_trailing_spaces (String e r)) as [|d r'] eqn:E; [reflexivity|].
  apply drop_trailing_spaces_head in E. subst d. exact H.
Qed.

Lemma drop_trailing_spaces_spaced s :
  spaced true s = true -> spaced false (drop_trailing_spaces s) = true.
Proof.
  induction s as [|c r IH]; intros H; [reflexivity|].
  pose proof (spaced_tail _ _ _ H) as Hr. specialize (IH Hr).
  cbn [spaced] in H. apply andb_prop in H. destruct H as [Hc _].
  cbn [drop_trailing_spaces].
  destruct (drop_trailing_spaces r) as [|d r'] eqn:E.
  - destruct (is_space c) eqn:Ec; [reflexivity|]. cbn [spaced]. rewrite Ec. reflexivity.
  - cbn [spaced] in *. rewrite IH, andb_true_r.
    destruct (is_space c); [|reflexivity].
    apply andb_prop in Hc. destruct Hc as [Hc1 Hc2]. rewrite Hc1. cbn [andb next_is_black].
    destruct r as [|e r2]; [discriminate E|].
    apply drop_trailing_spaces_head in E. subst d. exact Hc2.
Qed.

Lemma stripTags_tidy s : tidy (stripTags s) = true.
Proof.
  unfold tidy, stripTags, trim. apply andb_true_intro. split.
  - apply negb_true_iff. apply drop_trailing_spaces_starts, drop_spaces_head.
  - apply drop_trailing_spaces_spaced, drop_spaces_spaced, collapse_spaces_spaced.
Qed.

(** What the steps of [stripTags] do to tidy text without tags: nothing. *)
Lemma remove_tags_from_plain f s : has_tag s = false -> remove_tags_from f s = s.
Proof.
  revert s. induction f as [|f IH]; intros s H; [reflexivity|].
  destruct s as [|c r]; [reflexivity|].
  cbn [remove_tags_from]. destruct (Ascii.eqb_spec c "<") as [->|N].
  - apply has_tag_lt in H. destruct H as [G Hr]. rewrite (IH r Hr).
    destruct G as [G|[r' ->]].
    + rewrite G. reflexivity.
    + cbn [indexOf_char]. rewrite Ascii.eqb_refl. reflexivity.
  - rewrite (IH r (has_tag_tail c r H)). reflexivity.
Qed.

Lemma space_char_code c : Ascii.eqb c " " = true -> (code c =? 10) = false /\ (code c =? 13) = false.
Proof. intros H. apply Ascii.eqb_eq in H. subst c. split; reflexivity. Qed.

Lemma black_char_code c : is_space c = false -> (code c =? 10) = false /\ (code c =? 13) = false.
Proof.
  unfold is_space. intros H.
  apply orb_false_iff in H. destruct H as [H _]. apply orb_false_iff in H. destruct H as [H _].
  apply andb_false_iff in H. split; apply Z.eqb_neq; intros E; rewrite E in H;
    destruct H as [H|H]; discriminate H.
Qed.

Lemma spaced_char_code b c r :
  spaced b (String c r) = true -> (code c =? 10) = false /\ (code c =? 13) = false.
Proof.
  cbn [spaced]. intros H. apply andb_prop in H. destruct H as [H _].
  destruct (is_space c) eqn:E.
  - apply andb_prop in H. destruct H as [H _]. apply space_char_code. exact H.
  - apply black_char_code. exact E.
Qed.

Lemma newlines_to_spaces_spaced b s : spaced b s = true -> newlines_to_spaces s = s.
Proof.
  induction s as [|c r IH]; intros H; [reflexivity|].
  destruct (spaced_char_code b c r H) as [H10 H13].
  cbn [newlines_to_spaces]. rewrite H10, H13, (IH (spaced_tail _ _ _ H)). reflexivity.
Qed.

Lemma no_line_break_spaced b s : spaced b s = true -> no_line_break s = true.
Proof.
  induction s as [|c r IH]; intros H; [reflexivity|].
  destruct (spaced_char_code b c r H) as [H10 H13].
  cbn [no_line_break]. rewrite H10, H13, (IH (spaced_tail _ _ _ H)). reflexivity.
Qed.

Lemma collapse_spaces_fixed s : spaced false s = true -> collapse_spaces s = s.
Proof.
  induction s as [|c r IH]; intros H; [reflexivity|].
  pose proof (IH (spaced_tail _ _ _ H)) as E.
  cbn [spaced] in H. apply andb_prop in H. destruct H as [Hc _].
  cbn [collapse_spaces]. destruct (is_space c); [|rewrite E; reflexivity].
  apply andb_prop in Hc. destruct Hc as [Hc1 Hc2]. apply Ascii.eqb_eq in Hc1. subst c.
  destruct r as [|d r2]; [discriminate Hc2|].
  cbn [next_is_black] in Hc2. apply negb_true_iff in Hc2. rewrite Hc2, E. reflexivity.
Qed.

Lemma drop_spaces_fixed s : starts_with_space s = false -> drop_spaces s = s.
Proof. destruct s as [|c r]; [reflexivity|]. cbn. intros ->. reflexivity. Qed.

Lemma drop_trailing_spaces_fixed s : spaced false s = true -> drop_trailing_spaces s = s.
Proof.
  induction s as [|c r IH]; intros H; [reflexivity|].
  pose proof (IH (spaced_tail _ _ _ H)) as E.
  cbn [spaced] in H. apply andb_prop in H. destruct H as [Hc _].
  cbn [drop_trailing_spaces]. rewrite E. destruct r as [|d r2]; [|reflexivity].
  destruct (is_space c); [|reflexivity].
  apply andb_prop in Hc. destruct Hc as [_ Hc]. discriminate Hc.
Qed.

Lemma stripTags_fixed t : has_tag t = false -> tidy t = true -> stripTags t = t.
Proof.
  intros Ht Hy. unfold tidy in Hy. apply andb_prop in Hy. destruct Hy as [H1 H2].
  apply negb_true_iff in H1.
  unfold stripTags, remove_tags, trim.
  rewrite remove_tags_from_plain by exact Ht.
  rewrite (newlines_to_spaces_spaced false) by exact H2.
  rewrite collapse_spaces_fixed by exact H2.
  rewrite drop_spaces_fixed by exact H1.
  apply drop_trailing_spaces_fixed. exact H2.
Qed.

(** X29.  What [stripTags] returns holds no tag and is tidy: its white
    space is single spaces between other characters, none at either end,
    and no line break; and stripping it again changes nothing. *)
Theorem stripped_text_is_tidy_and_stays_so s :
  has_tag (stripTags s) = false /\
  tidy (stripTags s) = true /\
  no_line_break (stripTags s) = true /\
  stripTags (stripTags s) = stripTags s.
Proof.
  pose proof (stripTags_tidy s) as T. split; [apply stripTags_no_tag|].
  split; [exact T|]. split.
  - unfold tidy in T. apply andb_prop in T. destruct T as [_ T].
    apply (no_line_break_spaced false). exact T.
  - apply stripTags_fixed; [apply stripTags_no_tag | exact T].
Qed.

(** ** The three cleaning steps *)

(** *** White space: the words, joined by single spaces *)















(** *** Tags *)





(** *** CDATA sections and entities, one character at a time *)






(** *** The claim on the text of an item *)




(** ** Elements *)

Lemma lower_char_lt c : lower_char c = "<"%char -> c = "<"%char.
Proof.
  unfold lower_char. destruct (is_upper c) eqn:U; [|auto].
  intros H. exfalso. revert U H.
  destruct c as [[] [] [] [] [] [] [] []]; vm_compute; congruence.
Qed.

Lemma starts_with_ci_app p s : starts_with_ci p (p ++ s) = true.
Proof.
  induction p as [|a r IH]; [reflexivity|].
  cbn [append starts_with_ci]. rewrite Ascii.eqb_refl, IH. reflexivity.
Qed.

(** A match of [P] at the start of [u ++ v] lies within [u] or runs over
    its end into [v]. *)
Lemma starts_with_ci_split P : forall u v,
  starts_with_ci P (u ++ v) = true ->
  starts_with_ci P u = true \/
  ((String.length u < String.length P)%nat /\
   starts_with_ci (slice_from (String.length u) P) v = true).
Proof.
  induction P as [|a P' IH]; intros u v H; [left; destruct u; reflexivity|].
  destruct u as [|c r].
  - right. split; [cbn; lia | exact H].
  - cbn [append starts_with_ci] in H. apply andb_prop in H. destruct H as [Hc Hr].
    destruct (IH r v Hr) as [L|[L1 L2]].
    + left. cbn [starts_with_ci]. rewrite Hc, L. reflexivity.
    + right. split; [cbn [String.length]; lia | exact L2].
Qed.

Lemma indexOf_char_slice c k s :
  indexOf_char c s = None -> indexOf_char c (slice_from k s) = None.
Proof.
  revert s. induction k as [|k IH]; intros s H; [exact H|].
  destruct s as [|a r]; [exact H|].
  cbn [slice_from]. apply IH. cbn [indexOf_char] in H.
  destruct (Ascii.eqb a c); [discriminate|]. destruct (indexOf_char c r); [discriminate|].
  reflexivity.
Qed.

Lemma slice_from_nonempty k s :
  (k < String.length s)%nat -> exists a r, slice_from k s = String a r.
Proof.
  revert s. induction k as [|k IH]; intros s H.
  - destruct s as [|a r]; [cbn in H; lia|]. exists a, r. reflexivity.
  - destruct s as [|a r]; [cbn in H; lia|]. cbn [slice_from]. apply IH. cbn in H. lia.
Qed.

(** A pattern that starts with [<] and holds no other [<] does not match
    across the start of an occurrence of [<]. *)
Lemma no_match_across Pt u v :
  indexOf_char "<" Pt = None -> u <> "" ->
  starts_with_ci (String "<" Pt) u = false ->
  starts_with_ci (String "<" Pt) (u ++ String "<" v) = false.
Proof.
  intros HP Hu H0.
  destruct (starts_with_ci (String "<" Pt) (u ++ String "<" v)) eqn:E; [|reflexivity].
  exfalso. destruct (starts_with_ci_split _ _ _ E) as [L|[L1 L2]]; [congruence|].
  destruct u as [|c r]; [contradiction|].
  cbn [String.length slice_from] in L1, L2.
  destruct (slice_from_nonempty (String.length r) Pt ltac:(lia)) as (a & t & Es).
  pose proof (indexOf_char_slice "<" (String.length r) Pt HP) as N.
  rewrite Es in L2, N. cbn [starts_with_ci] in L2. apply andb_prop in L2.
  destruct L2 as [L2 _]. apply Ascii.eqb_eq in L2.
  change (lower_char "<") with "<"%char in L2. apply lower_char_lt in L2. subst a.
  cbn [indexOf_char] in N. rewrite Ascii.eqb_refl in N. discriminate.
Qed.

Lemma find_ci_cons p c r :
  find_ci p (String c r)
  = if starts_with_ci p (String c r) then Some O else option_map S (find_ci p r).
Proof. destruct p; reflexivity. Qed.

Lemma find_ci_none_inv p c r :
  find_ci p (String c r) = None ->
  starts_with_ci p (String c r) = false /\ find_ci p r = None.
Proof.
  rewrite find_ci_cons. destruct (starts_with_ci p (String c r)); [discriminate|].
  destruct (find_ci p r); [discriminate|]. auto.
Qed.

Lemma find_ci_at_end Pt u post :
  indexOf_char "<" Pt = None -> find_ci (String "<" Pt) u = None ->
  find_ci (String "<" Pt) (u ++ String "<" Pt ++ post) = Some (String.length u).
Proof.
  intros HP. induction u as [|c r IH]; intros H.
  - change ("" ++ String "<" Pt ++ post) with (String "<" (Pt ++ post)).
    rewrite find_ci_cons.
    change (String "<" (Pt ++ post)) with (String "<" Pt ++ post).
    rewrite starts_with_ci_app. reflexivity.
  - destruct (find_ci_none_inv _ _ _ H) as [S0 Hr].
    change (String c r ++ String "<" Pt ++ post) with (String c (r ++ String "<" Pt ++ post)).
    rewrite find_ci_cons.
    change (String c (r ++ String "<" Pt ++ post)) with (String c r ++ String "<" (Pt ++ post)).
    rewrite no_match_across by (assumption || discriminate).
    change (String c r ++ String "<" (Pt ++ post)) with (String c (r ++ String "<" Pt ++ post)).
    rewrite (IH Hr). reflexivity.
Qed.

Lemma match_tag_at_fails tag s :
  starts_with_ci ("<" ++ tag) s = false -> match_tag_at tag s = None.
Proof. intros H. unfold match_tag_at. cbv zeta. rewrite H. reflexivity. Qed.

Lemma find_tag_cons tag c r :
  find_tag tag (String c r)
  = match match_tag_at tag (String c r) with
    | Some x => Some x
    | None => find_tag tag r
    end.
Proof. reflexivity. Qed.

Lemma word_boundary_app a b : a <> "" -> word_boundary (a ++ b) = word_boundary a.
Proof. intros H. destruct a; [contradiction | reflexivity]. Qed.

(** The anchored match on an element written out in full. *)
Lemma match_tag_at_element tag attrs inner post :
  indexOf_char "<" tag = None ->
  indexOf_char ">" attrs = None -> word_boundary (attrs ++ ">") = true ->
  find_ci ("</" ++ tag ++ ">") inner = None ->
  match_tag_at tag ("<" ++ tag ++ attrs ++ ">" ++ inner ++ "</" ++ tag ++ ">" ++ post)
  = Some (inner, post).
Proof.
  intros Ht Ha Hw Hi. unfold match_tag_at. cbv zeta.
  set (closing := "</" ++ tag ++ ">").
  replace ("<" ++ tag ++ attrs ++ ">" ++ inner ++ "</" ++ tag ++ ">" ++ post)
    with (("<" ++ tag) ++ attrs ++ String ">" (inner ++ closing ++ post)).
  2:{ unfold closing. rewrite !append_assoc. reflexivity. }
  rewrite starts_with_ci_app, slice_from_app.
  replace (word_boundary (attrs ++ String ">" (inner ++ closing ++ post))) with true.
  2:{ symmetry. change (String ">" (inner ++ closing ++ post))
                 with (">" ++ (inner ++ closing ++ post)).
      rewrite <- append_assoc, word_boundary_app; [exact Hw|]. destruct attrs; discriminate. }
  cbn [andb]. rewrite indexOf_char_app by exact Ha. rewrite slice_from_S_app.
  assert (F : find_ci closing (inner ++ closing ++ post) = Some (String.length inner)).
  { unfold closing. change ("</" ++ tag ++ ">") with (String "<" ("/" ++ tag ++ ">")) in *.
    apply find_ci_at_end; [|exact Hi].
    change ("/" ++ tag ++ ">") with (String "/" (tag ++ ">")).
    cbn [indexOf_char]. change (Ascii.eqb "/" "<") with false. cbv iota.
    rewrite indexOf_char_app_none; [reflexivity | exact Ht | reflexivity]. }
  rewrite F, substring_0_app, slice_from_add, slice_from_app, slice_from_app. reflexivity.
Qed.

Lemma find_tag_element tag pre attrs inner post :
  indexOf_char "<" tag = None ->
  find_ci ("<" ++ tag) pre = None ->
  indexOf_char ">" attrs = None -> word_boundary (attrs ++ ">") = true ->
  find_ci ("</" ++ tag ++ ">") inner = None ->
  find_tag tag (pre ++ "<" ++ tag ++ attrs ++ ">" ++ inner ++ "</" ++ tag ++ ">" ++ post)
  = Some (inner, post).
Proof.
  intros Ht Hp Ha Hw Hi. induction pre as [|c r IH].
  - change ("" ++ "<" ++ tag ++ attrs ++ ">" ++ inner ++ "</" ++ tag ++ ">" ++ post)
      with (String "<" (tag ++ attrs ++ ">" ++ inner ++ "</" ++ tag ++ ">" ++ post)).
    rewrite find_tag_cons.
    change (String "<" (tag ++ attrs ++ ">" ++ inner ++ "</" ++ tag ++ ">" ++ post))
      with ("<" ++ tag ++ attrs ++ ">" ++ inner ++ "</" ++ tag ++ ">" ++ post).
    rewrite match_tag_at_element by assumption. reflexivity.
  - destruct (find_ci_none_inv _ _ _ Hp) as [S0 Hr].
    change (String c r ++ "<" ++ tag ++ attrs ++ ">" ++ inner ++ "</" ++ tag ++ ">" ++ post)
      with (String c (r ++ "<" ++ tag ++ attrs ++ ">" ++ inner ++ "</" ++ tag ++ ">" ++ post)).
    rewrite find_tag_cons, match_tag_at_fails; [exact (IH Hr)|].
    change (String c (r ++ "<" ++ tag ++ attrs ++ ">" ++ inner ++ "</" ++ tag ++ ">" ++ post))
      with (String c r
            ++ String "<" (tag ++ attrs ++ ">" ++ inner ++ "</" ++ tag ++ ">" ++ post)).
    change ("<" ++ tag) with (String "<" tag) in *.
    apply no_match_across; [exact Ht | discriminate | exact S0].
Qed.


(** ** Every element, and every item *)

Lemma match_tag_at_rest tag c r inner rest :
  match_tag_at tag (String c r) = Some (inner, rest) ->
  (String.length rest <= String.length r)%nat.
Proof.
  unfold match_tag_at. cbv zeta.
  destruct (starts_with_ci ("<" ++ tag) (String c r) && _); [|discriminate].
  assert (A : (String.length (slice_from (String.length ("<" ++ tag)) (String c r))
               <= String.length r)%nat).
  { change (slice_from (String.length ("<" ++ tag)) (String c r))
      with (slice_from (String.length tag) r). apply slice_from_length. }
  set (an := slice_from (String.length ("<" ++ tag)) (String c r)) in *.
  destruct (indexOf_char ">" an) as [j|]; [|discriminate].
  destruct (find_ci _ _) as [k|]; [|discriminate].
  intros Q. injection Q as _ <-.
  pose proof (slice_from_length (k + String.length ("</" ++ tag ++ ">")) (slice_from (S j) an)).
  pose proof (slice_from_length (S j) an).
  change (String.length
            (slice_from (k + String.length ("</" ++ tag ++ ">")) (slice_from (S j) an))
          <= String.length r)%nat.
  lia.
Qed.

Lemma pickAll_from_fuel tag f1 : forall f2 s,
  (String.length s <= f1)%nat -> (String.length s <= f2)%nat ->
  pickAll_from f1 s tag = pickAll_from f2 s tag.
Proof.
  induction f1 as [|f1 IH]; intros f2 s H1 H2.
  - destruct s; [|cbn in H1; lia]. destruct f2; reflexivity.
  - destruct f2 as [|f2]; [destruct s; [reflexivity | cbn in H2; lia]|].
    destruct s as [|c r]; [reflexivity|].
    cbn [String.length] in H1, H2. cbn [pickAll_from].
    destruct (match_tag_at tag (String c r)) as [[inner rest]|] eqn:E.
    + pose proof (match_tag_at_rest _ _ _ _ _ E). f_equal. apply IH; lia.
    + apply IH; lia.
Qed.

Lemma pickAll_from_element tag pre attrs inner post : forall f,
  indexOf_char "<" tag = None ->
  find_ci ("<" ++ tag) pre = None ->
  indexOf_char ">" attrs = None -> word_boundary (attrs ++ ">") = true ->
  find_ci ("</" ++ tag ++ ">") inner = None ->
  (String.length (pre ++ "<" ++ tag ++ attrs ++ ">" ++ inner ++ "</" ++ tag ++ ">" ++ post)
   <= f)%nat ->
  pickAll_from f (pre ++ "<" ++ tag ++ attrs ++ ">" ++ inner ++ "</" ++ tag ++ ">" ++ post) tag
  = trim (stripCDATA inner) :: pickAll post tag.
Proof.
  intros f Ht Hp Ha Hw Hi. revert f. induction pre as [|c r IH]; intros f Hf.
  - pose proof (match_tag_at_element tag attrs inner post Ht Ha Hw Hi) as M.
    change ("" ++ "<" ++ tag ++ attrs ++ ">" ++ inner ++ "</" ++ tag ++ ">" ++ post)
      with (String "<" (tag ++ attrs ++ ">" ++ inner ++ "</" ++ tag ++ ">" ++ post)) in *.
    change ("<" ++ tag ++ attrs ++ ">" ++ inner ++ "</" ++ tag ++ ">" ++ post)
      with (String "<" (tag ++ attrs ++ ">" ++ inner ++ "</" ++ tag ++ ">" ++ post)) in M.
    destruct f as [|f]; [cbn in Hf; lia|].
    cbn [pickAll_from]. rewrite M. f_equal. unfold pickAll.
    pose proof (match_tag_at_rest _ _ _ _ _ M). cbn [String.length] in Hf.
    apply pickAll_from_fuel; lia.
  - destruct (find_ci_none_inv _ _ _ Hp) as [S0 Hr].
    change (String c r ++ "<" ++ tag ++ attrs ++ ">" ++ inner ++ "</" ++ tag ++ ">" ++ post)
      with (String c (r ++ "<" ++ tag ++ attrs ++ ">" ++ inner ++ "</" ++ tag ++ ">" ++ post))
      in *.
    destruct f as [|f]; [cbn in Hf; lia|].
    cbn [pickAll_from]. rewrite match_tag_at_fails.
    + apply (IH Hr). cbn [String.length] in Hf. lia.
    + change (String c (r ++ "<" ++ tag ++ attrs ++ ">" ++ inner ++ "</" ++ tag ++ ">" ++ post))
        with (String c r
              ++ String "<" (tag ++ attrs ++ ">" ++ inner ++ "</" ++ tag ++ ">" ++ post)).
      change ("<" ++ tag) with (String "<" tag) in *.
      apply no_match_across; [exact Ht | discriminate | exact S0].
Qed.

Lemma find_tag_absent tag xml : find_ci ("<" ++ tag) xml = None -> find_tag tag xml = None.
Proof.
  induction xml as [|c r IH]; intros H.
  - cbn [find_tag]. rewrite match_tag_at_fails; [reflexivity|].
    destruct (starts_with_ci ("<" ++ tag) "") eqn:E; [|reflexivity].
    cbn [find_ci] in H. rewrite E in H. discriminate.
  - destruct (find_ci_none_inv _ _ _ H) as [S0 Hr].
    rewrite find_tag_cons, match_tag_at_fails by exact S0. exact (IH Hr).
Qed.

Lemma pickAll_from_absent tag f xml :
  find_ci ("<" ++ tag) xml = None -> pickAll_from f xml tag = [].
Proof.
  revert xml. induction f as [|f IH]; intros xml H; [reflexivity|].
  destruct xml as [|c r]; [reflexivity|].
  destruct (find_ci_none_inv _ _ _ H) as [S0 Hr].
  cbn [pickAll_from]. rewrite match_tag_at_fails by exact S0. exact (IH r Hr).
Qed.

Lemma all_word_no_lt s : all_word s = true -> indexOf_char "<" s = None.
Proof.
  induction s as [|c r IH]; [reflexivity|].
  cbn [all_word indexOf_char]. intros H. apply andb_prop in H. destruct H as [Hc Hr].
  destruct (Ascii.eqb_spec c "<") as [->|_]; [discriminate Hc|].
  rewrite (IH Hr). reflexivity.
Qed.

Lemma word_name_no_lt s : word_name s = true -> indexOf_char "<" s = None.
Proof.
  unfold word_name. intros H. apply andb_prop in H. apply all_word_no_lt. tauto.
Qed.

(** X30.  In text that holds an element written in full (a tag name of
    word characters, attributes without [>] that are empty or start with a
    character that is not a word character, content without the closing
    tag) after text in which the opening of the tag does not occur,
    [pickTag] returns the content, unwrapped and trimmed, and [pickAll]
    returns it followed by what it finds after the element; in text where
    the opening of the tag does not occur they return null and the empty
    list. *)
Theorem elements_are_picked_in_order tag pre attrs inner post :
  word_name tag = true ->
  find_ci ("<" ++ tag) pre = None ->
  indexOf_char ">" attrs = None -> word_boundary (attrs ++ ">") = true ->
  find_ci ("</" ++ tag ++ ">") inner = None ->
  let xml := pre ++ "<" ++ tag ++ attrs ++ ">" ++ inner ++ "</" ++ tag ++ ">" ++ post in
  pickTag xml tag = Some (trim (stripCDATA inner)) /\
  pickAll xml tag = trim (stripCDATA inner) :: pickAll post tag /\
  pickTag pre tag = None /\ pickAll pre tag = [].
Proof.
  intros Ht Hp Ha Hw Hi. apply word_name_no_lt in Ht. cbv zeta. split; [|split; [|split]].
  - unfold pickTag. rewrite find_tag_element by assumption. reflexivity.
  - unfold pickAll. apply pickAll_from_element; try assumption. lia.
  - unfold pickTag. rewrite find_tag_absent by exact Hp. reflexivity.
  - apply pickAll_from_absent. exact Hp.
Qed.

(** X30, for the title of an item, in a CDATA section. *)
Lemma element_example :
  pickTag ("<item>" ++ "<" ++ "title" ++ "" ++ ">" ++ "<![CDATA[ Goal! ]]>" ++ "</" ++ "title"
             ++ ">" ++ "</item>") "title"
  = Some "Goal!".
Proof.
  exact (proj1 (elements_are_picked_in_order "title" "<item>" "" "<![CDATA[ Goal! ]]>"
                  "</item>" eq_refl eq_refl eq_refl eq_refl eq_refl)).
Defined.

(** *** Items *)

Lemma match_item_at_fails s : starts_with_ci "<item" s = false -> match_item_at s = None.
Proof. intros H. unfold match_item_at. rewrite H. reflexivity. Qed.

Lemma match_item_at_rest c r blk rest :
  match_item_at (String c r) = Some (blk, rest) ->
  (String.length rest <= String.length r)%nat.
Proof.
  unfold match_item_at.
  destruct (starts_with_ci "<item" (String c r) && _); [|discriminate].
  destruct (find_ci "</item>" _) as [k|]; [|discriminate].
  intros Q. injection Q as _ <-.
  change (String.length (slice_from (4 + k + 7) r) <= String.length r)%nat.
  apply slice_from_length.
Qed.

Lemma itemBlocks_from_fuel f1 : forall f2 s,
  (String.length s <= f1)%nat -> (String.length s <= f2)%nat ->
  itemBlocks_from f1 s = itemBlocks_from f2 s.
Proof.
  induction f1 as [|f1 IH]; intros f2 s H1 H2.
  - destruct s; [|cbn in H1; lia]. destruct f2; reflexivity.
  - destruct f2 as [|f2]; [destruct s; [reflexivity | cbn in H2; lia]|].
    destruct s as [|c r]; [reflexivity|].
    cbn [String.length] in H1, H2. cbn [itemBlocks_from].
    destruct (match_item_at (String c r)) as [[blk rest]|] eqn:E.
    + pose proof (match_item_at_rest _ _ _ _ E). f_equal. apply IH; lia.
    + apply IH; lia.
Qed.

Lemma match_item_at_item body post :
  word_boundary (body ++ "<") = true -> find_ci "</item>" body = None ->
  match_item_at ("<item" ++ body ++ "</item>" ++ post)
  = Some ("<item" ++ body ++ "</item>", post).
Proof.
  intros Hw Hb. unfold match_item_at.
  rewrite starts_with_ci_app.
  change (slice_from 5 ("<item" ++ body ++ "</item>" ++ post)) with (body ++ "</item>" ++ post).
  replace (word_boundary (body ++ "</item>" ++ post)) with true.
  2:{ symmetry. destruct body; [reflexivity | exact Hw]. }
  cbn [andb].
  change ("</item>" ++ post) with (String "<" "/item>" ++ post).
  rewrite (find_ci_at_end "/item>" body post eq_refl Hb).
  f_equal. f_equal.
  - replace (5 + String.length body + 7)%nat
      with (String.length ("<item" ++ body ++ "</item>")).
    + rewrite <- (substring_0_app ("<item" ++ body ++ "</item>") post) at 2.
      rewrite !append_assoc. reflexivity.
    + rewrite !length_app. cbn [String.length]. lia.
  - replace (5 + String.length body + 7)%nat
      with (String.length ("<item" ++ body ++ "</item>")).
    + rewrite <- (slice_from_app ("<item" ++ body ++ "</item>") post) at 2.
      rewrite !append_assoc. reflexivity.
    + rewrite !length_app. cbn [String.length]. lia.
Qed.

Lemma itemBlocks_from_item pre body post : forall f,
  find_ci "<item" pre = None ->
  word_boundary (body ++ "<") = true -> find_ci "</item>" body = None ->
  (String.length (pre ++ "<item" ++ body ++ "</item>" ++ post) <= f)%nat ->
  itemBlocks_from f (pre ++ "<item" ++ body ++ "</item>" ++ post)
  = ("<item" ++ body ++ "</item>") :: itemBlocks post.
Proof.
  intros f Hp Hw Hb. revert f. induction pre as [|c r IH]; intros f Hf.
  - pose proof (match_item_at_item body post Hw Hb) as M.
    change ("" ++ "<item" ++ body ++ "</item>" ++ post)
      with (String "<" ("item" ++ body ++ "</item>" ++ post)) in *.
    change ("<item" ++ body ++ "</item>" ++ post)
      with (String "<" ("item" ++ body ++ "</item>" ++ post)) in M.
    destruct f as [|f]; [cbn in Hf; lia|].
    cbn [itemBlocks_from]. rewrite M. f_equal. unfold itemBlocks.
    pose proof (match_item_at_rest _ _ _ _ M). cbn [String.length] in Hf.
    apply itemBlocks_from_fuel; lia.
  - destruct (find_ci_none_inv _ _ _ Hp) as [S0 Hr].
    change (String c r ++ "<item" ++ body ++ "</item>" ++ post)
      with (String c (r ++ "<item" ++ body ++ "</item>" ++ post)) in *.
    destruct f as [|f]; [cbn in Hf; lia|].
    cbn [itemBlocks_from]. rewrite match_item_at_fails.
    + apply (IH Hr). cbn [String.length] in Hf. lia.
    + change (String c (r ++ "<item" ++ body ++ "</item>" ++ post))
        with (String c r ++ String "<" ("item" ++ body ++ "</item>" ++ post)).
      change "<item" with (String "<" "item") in *.
      apply no_match_across; [reflexivity | discriminate | exact S0].
Qed.

Lemma itemBlocks_from_none f xml : find_ci "<item" xml = None -> itemBlocks_from f xml = [].
Proof.
  revert xml. induction f as [|f IH]; intros xml H; [reflexivity|].
  destruct xml as [|c r]; [reflexivity|].
  destruct (find_ci_none_inv _ _ _ H) as [S0 Hr].
  cbn [itemBlocks_from]. rewrite match_item_at_fails by exact S0. exact (IH r Hr).
Qed.

(** X17.  In a feed that holds an item written in full (after [<item] a
    character that is not a word character, no closing tag inside) after
    text in which [<item] does not occur, the first block is that item,
    from its opening to its closing tag, and the blocks that follow are
    those of the text after it; a feed in which [<item] does not occur
    has no blocks and gives no news. *)
Theorem items_are_cut_out_in_order pre body post :
  find_ci "<item" pre = None ->
  word_boundary (body ++ "<") = true -> find_ci "</item>" body = None ->
  itemBlocks (pre ++ "<item" ++ body ++ "</item>" ++ post)
  = ("<item" ++ body ++ "</item>") :: itemBlocks post /\
  itemBlocks pre = [] /\
  (forall rt, parseRSS rt pre = []).
Proof.
  intros Hp Hw Hb. split; [|split].
  - unfold itemBlocks. apply itemBlocks_from_item; try assumption. lia.
  - apply itemBlocks_from_none. exact Hp.
  - intros rt. unfold parseRSS, itemBlocks. rewrite itemBlocks_from_none by exact Hp. reflexivity.
Qed.

(** X17, for a feed of two items. *)
Lemma items_example :
  itemBlocks ("<rss><channel>" ++ "<item" ++ "><title>a</title>" ++ "</item>"
                ++ "<item><title>b</title></item></channel></rss>")
  = ["<item><title>a</title></item>"; "<item><title>b</title></item>"].
Proof.
  refine (eq_trans (proj1 (items_are_cut_out_in_order "<rss><channel>" "><title>a</title>"
                             "<item><title>b</title></item></channel></rss>"
                             eq_refl eq_refl eq_refl)) _).
  vm_compute. reflexivity.
Defined.

(** ** Attributes *)

Lemma has_ci_slice a k s : has_ci a s = false -> has_ci a (slice_from k s) = false.
Proof.
  revert s. induction k as [|k IH]; intros s H; [exact H|].
  destruct s as [|c r]; [exact H|].
  cbn [slice_from]. apply IH. cbn [has_ci] in H. apply orb_false_iff in H. tauto.
Qed.

(** A pattern whose first character does not occur again in it does not
    match across the start of one of its occurrences. *)
Lemma no_match_across_char a Pt u v :
  has_ci a Pt = false -> u <> "" ->
  starts_with_ci (String a Pt) u = false ->
  starts_with_ci (String a Pt) (u ++ String a v) = false.
Proof.
  intros HP Hu H0.
  destruct (starts_with_ci (String a Pt) (u ++ String a v)) eqn:E; [|reflexivity].
  exfalso. destruct (starts_with_ci_split _ _ _ E) as [L|[L1 L2]]; [congruence|].
  destruct u as [|c r]; [contradiction|].
  cbn [String.length slice_from] in L1, L2.
  destruct (slice_from_nonempty (String.length r) Pt ltac:(lia)) as (b & t & Es).
  pose proof (has_ci_slice a (String.length r) Pt HP) as N.
  rewrite Es in L2, N. cbn [starts_with_ci] in L2. apply andb_prop in L2.
  destruct L2 as [L2 _]. cbn [has_ci] in N. rewrite L2 in N. discriminate.
Qed.

Lemma find_attr_cons attr q c r :
  find_attr attr q (String c r)
  = match (if starts_with_ci (attr ++ "=" ++ String q "") (String c r) then
             match indexOf_char q (slice_from (String.length (attr ++ "=" ++ String q ""))
                                              (String c r)) with
             | Some (S k) =>
                 Some (substring 0 (S k)
                         (slice_from (String.length (attr ++ "=" ++ String q "")) (String c r)))
             | _ => None
             end
           else None) with
    | Some v => Some v
    | None => find_attr attr q r
    end.
Proof. reflexivity. Qed.

Lemma find_attr_absent attr q attrs :
  find_ci (attr ++ "=" ++ String q "") attrs = None -> find_attr attr q attrs = None.
Proof.
  induction attrs as [|c r IH]; intros H.
  - cbn [find_attr]. cbn [find_ci] in H.
    destruct (starts_with_ci (attr ++ "=" ++ String q "") ""); [discriminate | reflexivity].
  - destruct (find_ci_none_inv _ _ _ H) as [S0 Hr].
    rewrite find_attr_cons, S0. exact (IH Hr).
Qed.

Lemma find_attr_value a0 at_ q a1 v0 vr a2 :
  has_ci a0 (at_ ++ "=" ++ String q "") = false ->
  find_ci (String a0 at_ ++ "=" ++ String q "") a1 = None ->
  indexOf_char q (String v0 vr) = None ->
  find_attr (String a0 at_) q
    (a1 ++ String a0 at_ ++ "=" ++ String q (String v0 vr ++ String q a2))
  = Some (String v0 vr).
Proof.
  intros Hc H1 Hv. set (P := String a0 at_ ++ "=" ++ String q "") in *.
  assert (EP : forall t, String a0 at_ ++ "=" ++ String q t = P ++ t).
  { intros t. unfold P. rewrite !append_assoc. reflexivity. }
  rewrite EP.
  induction a1 as [|c r IH].
  - change ("" ++ P ++ String v0 vr ++ String q a2)
      with (String a0 ((at_ ++ "=" ++ String q "") ++ String v0 vr ++ String q a2)).
    rewrite find_attr_cons. fold P.
    change (String a0 ((at_ ++ "=" ++ String q "") ++ String v0 vr ++ String q a2))
      with (P ++ String v0 vr ++ String q a2).
    rewrite starts_with_ci_app, slice_from_app.
    rewrite indexOf_char_app by exact Hv.
    cbn [String.length]. rewrite <- (substring_0_app (String v0 vr) (String q a2)) at 2.
    reflexivity.
  - destruct (find_ci_none_inv _ _ _ H1) as [S0 Hr].
    change (String c r ++ P ++ String v0 vr ++ String q a2)
      with (String c (r ++ P ++ String v0 vr ++ String q a2)).
    rewrite find_attr_cons. fold P.
    replace (starts_with_ci P (String c (r ++ P ++ String v0 vr ++ String q a2))) with false.
    + exact (IH Hr).
    + symmetry.
      change (String c (r ++ P ++ String v0 vr ++ String q a2))
        with (String c r
              ++ String a0 ((at_ ++ "=" ++ String q "") ++ String v0 vr ++ String q a2)).
      change P with (String a0 (at_ ++ "=" ++ String q "")) in *.
      apply no_match_across_char; [exact Hc | discriminate | exact S0].
Qed.

Lemma find_open_tag_cons tag c r :
  find_open_tag tag (String c r)
  = match (if starts_with_ci ("<" ++ tag) (String c r)
              && word_boundary (slice_from (String.length ("<" ++ tag)) (String c r)) then
             match indexOf_char ">" (slice_from (String.length ("<" ++ tag)) (String c r)) with
             | Some j => Some (substring 0 j (slice_from (String.length ("<" ++ tag)) (String c r)))
             | None => None
             end
           else None) with
    | Some v => Some v
    | None => find_open_tag tag r
    end.
Proof. reflexivity. Qed.

Lemma find_open_tag_absent tag xml :
  find_ci ("<" ++ tag) xml = None -> find_open_tag tag xml = None.
Proof.
  induction xml as [|c r IH]; intros H.
  - cbn [find_open_tag]. cbn [find_ci] in H.
    destruct (starts_with_ci ("<" ++ tag) ""); [discriminate | reflexivity].
  - destruct (find_ci_none_inv _ _ _ H) as [S0 Hr].
    rewrite find_open_tag_cons, S0. exact (IH Hr).
Qed.

Lemma find_open_tag_element tag pre attrs post :
  indexOf_char "<" tag = None ->
  find_ci ("<" ++ tag) pre = None ->
  indexOf_char ">" attrs = None -> word_boundary (attrs ++ ">") = true ->
  find_open_tag tag (pre ++ "<" ++ tag ++ attrs ++ String ">" post) = Some attrs.
Proof.
  intros Ht Hp Ha Hw. induction pre as [|c r IH].
  - change ("" ++ "<" ++ tag ++ attrs ++ String ">" post)
      with (String "<" (tag ++ attrs ++ String ">" post)).
    rewrite find_open_tag_cons.
    change (String "<" (tag ++ attrs ++ String ">" post))
      with (("<" ++ tag) ++ attrs ++ String ">" post).
    rewrite starts_with_ci_app, slice_from_app.
    replace (word_boundary (attrs ++ String ">" post)) with true.
    2:{ symmetry. change (String ">" post) with (">" ++ post).
        rewrite <- append_assoc, word_boundary_app; [exact Hw|]. destruct attrs; discriminate. }
    cbn [andb]. rewrite indexOf_char_app by exact Ha. rewrite substring_0_app. reflexivity.
  - destruct (find_ci_none_inv _ _ _ Hp) as [S0 Hr].
    change (String c r ++ "<" ++ tag ++ attrs ++ String ">" post)
      with (String c (r ++ "<" ++ tag ++ attrs ++ String ">" post)).
    rewrite find_open_tag_cons.
    replace (starts_with_ci ("<" ++ tag) (String c (r ++ "<" ++ tag ++ attrs ++ String ">" post)))
      with false; [exact (IH Hr)|].
    symmetry.
    change (String c (r ++ "<" ++ tag ++ attrs ++ String ">" post))
      with (String c r ++ String "<" (tag ++ attrs ++ String ">" post)).
    change ("<" ++ tag) with (String "<" tag) in *.
    apply no_match_across; [exact Ht | discriminate | exact S0].
Qed.

(** X4.  In text that holds an opening tag written in full (a tag name
    of word characters, attributes without [>] starting with a character
    that is not a word character) after text in which the opening of the
    tag does not occur, [pickAttr] returns the value of the attribute: the
    text, not empty and without the quote character, between the quotes
    that follow the attribute's name and [=], for a name of word
    characters whose first character occurs nowhere else in it and that
    does not occur with [=] and the quote earlier in the tag; double quotes are tried first, single quotes when
    the name does not occur with [=] and a double quote.  In text where the
    opening of the tag does not occur, [pickAttr] returns null. *)
Theorem an_attribute_is_picked tag pre post a0 at_ a1 v0 vr a2 (q : ascii) :
  let attr := String a0 at_ in
  let v := String v0 vr in
  let attrs := a1 ++ attr ++ "=" ++ String q (v ++ String q a2) in
  let xml := pre ++ "<" ++ tag ++ attrs ++ String ">" post in
  word_name tag = true -> word_name attr = true -> find_ci ("<" ++ tag) pre = None ->
  indexOf_char ">" attrs = None -> word_boundary (attrs ++ ">") = true ->
  has_ci a0 (at_ ++ "=" ++ String q "") = false ->
  find_ci (attr ++ "=" ++ String q "") a1 = None ->
  indexOf_char q v = None ->
  (q = dquote \/ (q = "'"%char /\ find_ci (attr ++ "=" ++ String dquote "") attrs = None)) ->
  pickAttr xml tag attr = Some v /\ pickAttr pre tag attr = None.
Proof.
  cbv zeta. intros Ht _ Hp Ha Hw Hc H1 Hv Hq. apply word_name_no_lt in Ht. split.
  - unfold pickAttr. rewrite find_open_tag_element by assumption.
    destruct Hq as [->|[-> Hd]].
    + rewrite find_attr_value by assumption. reflexivity.
    + rewrite (find_attr_absent _ dquote _ Hd). apply find_attr_value; assumption.
  - unfold pickAttr. rewrite find_open_tag_absent by exact Hp. reflexivity.
Qed.

(** X4, for the enclosure of an item. *)
Lemma attribute_example :
  pickAttr ("<item>" ++ "<" ++ "enclosure"
              ++ (" type='image/jpeg' " ++ "url" ++ "=" ++ String dquote
                    ("https://cdn.example/a.jpg" ++ String dquote " /"))
              ++ String ">" "</item>") "enclosure" "url"
  = Some "https://cdn.example/a.jpg".
Proof.
  exact (proj1 (an_attribute_is_picked "enclosure" "<item>" "</item>" "u" "rl"
                  " type='image/jpeg' " "h" "ttps://cdn.example/a.jpg" " /" dquote
                  eq_refl eq_refl eq_refl eq_refl eq_refl eq_refl eq_refl eq_refl
                  (or_introl eq_refl))).
Defined.
